(** * Odyssey-AI: the free-text prompt parser and the clarification merge

    A shallow embedding of [src/utils/promptParser.ts] (class
    [AIPromptParser]) and of [handleClarificationAnswer] in
    [src/components/wizard/AIItineraryWizard.tsx].

    Modelling conventions.
    - A JavaScript string is a [string]: a sequence of code units in the
      range 0..255 (Latin-1).  Case conversion, white space and regular
      expression classes follow ECMAScript on that range.
    - A JavaScript number that holds a day count is a [number]: [NaN],
      an infinity or the integer value of a double; [parseInt] and the
      arithmetic on day counts round to the nearest double.  Confidence
      scores are exact rationals ([Q]); the last-bit rounding of their
      sums is outside the model.
    - TypeScript types are erased at run time: a slot typed [number],
      ['hotel' | 'camping'] or a pace can also hold a member inherited
      from [Object.prototype], which is what a lookup [map[answer]] on an
      object literal returns for an answer such as "constructor".
    - Regular expressions are kept as syntax trees and run by a
      backtracking matcher with ECMAScript priorities (leftmost start,
      ordered alternation, greedy and lazy quantifiers, capture groups).
    - The [lastIndex] slot of every [/g] regular expression stored in the
      static table [durationPatterns] is program state: it is threaded
      through [extractDuration], [calculateConfidence] and [parsePrompt]. *)

From Stdlib Require Import String Ascii List ZArith QArith Qminmax Bool Arith Lia Lqa Sorted.
Import ListNotations.

Close Scope Q_scope.
Open Scope string_scope.
Open Scope list_scope.
Open Scope nat_scope.

(* ================================================================= *)
(** ** JavaScript primitives used by the source *)

Module JS.

Definition code (c : ascii) : nat := nat_of_ascii c.

Definition between (lo hi n : nat) : bool := (lo <=? n) && (n <=? hi).

(** [String.prototype.toLowerCase] on one code unit: A-Z and the
    Latin-1 capitals U+00C0..U+00DE (without the sign U+00D7). *)
Definition lowerChar (c : ascii) : ascii :=
  let n := code c in
  if between 65 90 n || (between 192 222 n && negb (n =? 215))
  then ascii_of_nat (n + 32) else c.

(** The single-unit upper-case image of a code unit: a-z and the
    Latin-1 small letters U+00E0..U+00FE (without the sign U+00F7). *)
Definition upperChar (c : ascii) : ascii :=
  let n := code c in
  if between 97 122 n || (between 224 254 n && negb (n =? 247))
  then ascii_of_nat (n - 32) else c.

Fixpoint toLowerCase (s : string) : string :=
  match s with
  | EmptyString => EmptyString
  | String c s' => String (lowerChar c) (toLowerCase s')
  end.

(** [String.prototype.toUpperCase]; the sharp s (U+00DF) becomes "SS".
    The two Latin-1 letters whose capital lies above U+00FF (U+00B5,
    U+00FF) are left as they are: the source applies [toUpperCase] only
    to the first character of vocabulary constants and of captures of
    the class [[a-zA-Z\s,]]. *)
Fixpoint toUpperCase (s : string) : string :=
  match s with
  | EmptyString => EmptyString
  | String c s' =>
      if code c =? 223 then String "S" (String "S" (toUpperCase s'))
      else String (upperChar c) (toUpperCase s')
  end.

(** White space of ECMAScript ([\s], [trim], [parseInt]) below U+0100. *)
Definition isWhiteSpace (c : ascii) : bool :=
  let n := code c in between 9 13 n || (n =? 32) || (n =? 160).

Definition isDigit (c : ascii) : bool := between 48 57 (code c).

(** [s.includes(sub)] *)
Fixpoint includes (s sub : string) : bool :=
  if prefix sub s then true
  else match s with
       | EmptyString => false
       | String _ s' => includes s' sub
       end.

(** [s.split(sep)] for a one-character separator. *)
Fixpoint split (sep : ascii) (s : string) : list string :=
  match s with
  | EmptyString => [EmptyString]
  | String c s' =>
      let r := split sep s' in
      if Ascii.eqb c sep then EmptyString :: r
      else match r with
           | w :: ws => String c w :: ws
           | [] => [String c EmptyString]
           end
  end.

(** [l.join(sep)] *)
Definition join (sep : string) (l : list string) : string := String.concat sep l.

(** [s.charAt(0)] and [s.slice(1)] *)
Definition charAt0 (s : string) : string :=
  match s with
  | EmptyString => EmptyString
  | String c _ => String c EmptyString
  end.

Definition slice1 (s : string) : string :=
  match s with
  | EmptyString => EmptyString
  | String _ s' => s'
  end.

Fixpoint drop (n : nat) (s : string) : string :=
  match n, s with
  | O, _ => s
  | S n', String _ s' => drop n' s'
  | S _, EmptyString => EmptyString
  end.

Fixpoint take (n : nat) (s : string) : string :=
  match n, s with
  | S n', String c s' => String c (take n' s')
  | _, _ => EmptyString
  end.

Fixpoint trimStart (s : string) : string :=
  match s with
  | String c s' => if isWhiteSpace c then trimStart s' else s
  | EmptyString => EmptyString
  end.

Fixpoint trimEnd (s : string) : string :=
  match s with
  | EmptyString => EmptyString
  | String c s' =>
      match trimEnd s' with
      | EmptyString => if isWhiteSpace c then EmptyString else String c EmptyString
      | t => String c t
      end
  end.

Definition trim (s : string) : string := trimEnd (trimStart s).

(** [arr.includes(x)] on an array of strings. *)
Definition arrIncludes (l : list string) (x : string) : bool :=
  existsb (String.eqb x) l.

(** A [Set<string>], kept in insertion order. *)
Definition setAdd (s : list string) (x : string) : list string :=
  if arrIncludes s x then s else s ++ [x].

(** [new Set(arr)] followed by [Array.from] / spread. *)
Definition newSet (l : list string) : list string := fold_left setAdd l [].

(** [arr.slice(0, n)] *)
Definition slice0 {A} (n : nat) (l : list A) : list A := firstn n l.

(** What a slot typed [number] holds at run time.  [Int z] is the double
    whose value is the integer [z]; [Infinity] carries its sign.
    [Inherited key] is not a number: it is the member of
    [Object.prototype] named [key], which an object-literal lookup
    [map[key]] returns when [key] is no own key of the literal and which
    the wizard then stores in the slot. *)
Inductive number : Type :=
| NaN
| Int (z : Z)
| Infinity (negative : bool)
| Inherited (key : string).

Definition truthy (n : number) : bool :=
  match n with
  | NaN => false
  | Int z => negb (z =? 0)%Z
  | Infinity _ | Inherited _ => true
  end.

(** [a || b] on numbers. *)
Definition orElse (a b : number) : number := if truthy a then a else b.

(** The double nearest to the integer [z], ties to the even mantissa:
    exact below 2^53, a multiple of a power of two above, and an
    infinity from 2^1024 - 2^970 on. *)
Definition roundToDouble (z : Z) : number :=
  let a := Z.abs z in
  if (a <? 9007199254740992)%Z then Int z
  else
    let e := (Z.log2 a - 52)%Z in
    let q := Z.shiftr a e in
    let r := (a - Z.shiftl q e)%Z in
    let half := Z.shiftl 1 (e - 1) in
    let q' := if (half <? r)%Z || ((r =? half)%Z && Z.odd q) then (q + 1)%Z else q in
    if (1024 <=? Z.log2 (Z.shiftl q' e))%Z then Infinity (z <? 0)%Z
    else Int (Z.sgn z * Z.shiftl q' e).

(** [a * k] for a constant [k]; the operand is a result of [parseInt]. *)
Definition mul (a : number) (k : Z) : number :=
  match a with
  | Int z => roundToDouble (z * k)
  | Infinity negative => if (k =? 0)%Z then NaN else Infinity (xorb negative (k <? 0)%Z)
  | NaN | Inherited _ => NaN
  end.

(** [a + b]; the operands are results of [parseInt]. *)
Definition add (a b : number) : number :=
  match a, b with
  | Int x, Int y => roundToDouble (x + y)
  | Infinity n, Int _ | Int _, Infinity n => Infinity n
  | Infinity n, Infinity m => if Bool.eqb n m then Infinity n else NaN
  | _, _ => NaN
  end.

(** [Math.ceil((a + b) / 2)]: halving a double that holds an integer is
    exact (a sum of 2^53 or more is even). *)
Definition ceilAvg (a b : number) : number :=
  match add a b with
  | Int s => Int (- ((- s) / 2))
  | Infinity n => Infinity n
  | _ => NaN
  end.

Definition digitValue (radix : Z) (c : ascii) : option Z :=
  let n := Z.of_nat (code c) in
  let v := if isDigit c then Some (n - 48)%Z
           else if between 97 122 (code c) then Some (n - 87)%Z
           else if between 65 90 (code c) then Some (n - 55)%Z
           else None in
  match v with
  | Some d => if (d <? radix)%Z then Some d else None
  | None => None
  end.

Fixpoint digits (radix : Z) (acc : option Z) (s : string) : option Z :=
  match s with
  | EmptyString => acc
  | String c s' =>
      match digitValue radix c with
      | Some d =>
          digits radix (Some (match acc with Some a => a * radix + d | None => d end)%Z) s'
      | None => acc
      end
  end.

(** [parseInt(s)] with no radix argument: leading white space, an
    optional sign, an optional [0x] prefix, then the longest run of
    digits; [NaN] when there is none.  The result is the double nearest
    to the integer read (ECMAScript lets an implementation read the
    decimal digits after the twentieth as zeros; nothing below depends
    on the value of a number that long). *)
Definition parseInt (s : string) : number :=
  let s0 := trimStart s in
  let '(sign, s1) :=
    match s0 with
    | String "-" r => ((-1)%Z, r)
    | String "+" r => (1%Z, r)
    | _ => (1%Z, s0)
    end in
  let '(radix, s2) :=
    match s1 with
    | String "0" (String "x" r) => (16%Z, r)
    | String "0" (String "X" r) => (16%Z, r)
    | _ => (10%Z, s1)
    end in
  match digits radix None s2 with
  | Some v => roundToDouble (sign * v)
  | None => NaN
  end.

End JS.

(* ================================================================= *)
(** ** Regular expressions *)

Module RegExp.
Import JS.

(** Members of a character class. *)
Inductive cset : Type :=
| CChar (c : ascii)
| CRange (lo hi : ascii)
| CDigit                      (* \d *)
| CSpace.                     (* \s *)

Inductive regex : Type :=
| Eps
| Lit (c : ascii)
| Class (cs : list cset)
| Seq (r1 r2 : regex)
| Alt (r1 r2 : regex)
| Star (greedy : bool) (r : regex)
| Group (i : nat) (r : regex)          (* capturing group number i *)
| Eos.                                 (* $ *)

Definition Plus (r : regex) : regex := Seq r (Star true r).
Definition LazyPlus (r : regex) : regex := Seq r (Star false r).
Definition Opt (r : regex) : regex := Alt r Eps.

Fixpoint cat (l : list regex) : regex :=
  match l with
  | [] => Eps
  | [r] => r
  | r :: l' => Seq r (cat l')
  end.

Fixpoint alt (l : list regex) : regex :=
  match l with
  | [] => Eps
  | [r] => r
  | r :: l' => Alt r (alt l')
  end.

(** A literal word. *)
Fixpoint str (s : string) : regex :=
  match s with
  | EmptyString => Eps
  | String c EmptyString => Lit c
  | String c s' => Seq (Lit c) (str s')
  end.

Definition digit : regex := Class [CDigit].
Definition space : regex := Class [CSpace].

Definition sameChar (icase : bool) (a c : ascii) : bool :=
  if icase then Ascii.eqb (upperChar a) (upperChar c) else Ascii.eqb a c.

Definition inRange (lo hi c : ascii) : bool := between (code lo) (code hi) (code c).

Definition inCset (icase : bool) (c : ascii) (m : cset) : bool :=
  match m with
  | CChar a => sameChar icase a c
  | CRange lo hi =>
      inRange lo hi c
      || (icase && (inRange lo hi (lowerChar c) || inRange lo hi (upperChar c)))
  | CDigit => isDigit c
  | CSpace => isWhiteSpace c
  end.

(** State of one match attempt: the position reached, the rest of the
    input from there, and the captures made so far (latest first). *)
Record mstate : Type := MState {
  pos : nat;
  rest : string;
  caps : list (nat * string)
}.

Definition step1 (st : mstate) (ok : ascii -> bool) (k : mstate -> option mstate)
  : option mstate :=
  match rest st with
  | String c s' => if ok c then k (MState (S (pos st)) s' (caps st)) else None
  | EmptyString => None
  end.

(** The backtracking matcher, in continuation-passing style.  An
    iteration of a quantifier that consumes nothing is rejected, as in
    ECMAScript, so the iteration count is bounded by the input left. *)
Fixpoint run (icase : bool) (r : regex) (st : mstate)
         (k : mstate -> option mstate) {struct r} : option mstate :=
  match r with
  | Eps => k st
  | Lit a => step1 st (sameChar icase a) k
  | Class cs => step1 st (fun c => existsb (inCset icase c) cs) k
  | Seq r1 r2 => run icase r1 st (fun st' => run icase r2 st' k)
  | Alt r1 r2 =>
      match run icase r1 st k with
      | Some x => Some x
      | None => run icase r2 st k
      end
  | Star greedy r' =>
      (fix loop (n : nat) (st : mstate) {struct n} : option mstate :=
         match n with
         | O => k st
         | S n' =>
             let more :=
               run icase r' st
                   (fun st' => if pos st' =? pos st then None else loop n' st') in
             if greedy then
               match more with
               | Some x => Some x
               | None => k st
               end
             else
               match k st with
               | Some x => Some x
               | None => more
               end
         end) (S (String.length (rest st))) st
  | Group i r' =>
      run icase r' st
          (fun st' =>
             k (MState (pos st') (rest st')
                       ((i, take (pos st' - pos st) (rest st)) :: caps st')))
  | Eos =>
      match rest st with
      | EmptyString => k st
      | String _ _ => None
      end
  end.

(** The result array of [exec]: where the match starts and ends and
    what each group captured. *)
Record rmatch : Type := RMatch {
  index : nat;
  endIndex : nat;
  groups : list (nat * string)
}.

(** [match[i]] *)
Fixpoint group (i : nat) (g : list (nat * string)) : option string :=
  match g with
  | [] => None
  | (j, s) :: g' => if i =? j then Some s else group i g'
  end.

(** Leftmost match at or after position [p], where [s] is the input
    from [p] on. *)
Fixpoint search (icase : bool) (r : regex) (p : nat) (s : string) : option rmatch :=
  match run icase r (MState p s []) Some with
  | Some st => Some (RMatch p (pos st) (caps st))
  | None =>
      match s with
      | EmptyString => None
      | String _ s' => search icase r (S p) s'
      end
  end.

(** A regular expression literal with its flags. *)
Record t : Type := Make {
  source : regex;
  global : bool;
  ignoreCase : bool
}.

(** [re.exec(s)] for a regular expression whose [lastIndex] is [li]:
    the match, if any, and the new [lastIndex]. *)
Definition exec (re : t) (li : nat) (s : string) : option rmatch * nat :=
  let start := if global re then li else 0 in
  if String.length s <? start then (None, if global re then 0 else li)
  else match search (ignoreCase re) (source re) start (drop start s) with
       | Some m => (Some m, if global re then endIndex m else li)
       | None => (None, if global re then 0 else li)
       end.

(** [re.test(s)] *)
Definition test (re : t) (li : nat) (s : string) : bool * nat :=
  match exec re li s with
  | (Some _, li') => (true, li')
  | (None, li') => (false, li')
  end.

End RegExp.

(* ================================================================= *)
(** ** Data model ([promptParser.ts], lines 1-24) *)

(** ['hotel' | 'camping'], and what a slot of that type can hold besides:
    the member of [Object.prototype] named [key] (see [Wizard.lookup]). *)
Inductive Accommodation : Type :=
| hotel
| camping
| inheritedAccommodation (key : string).

(** ['relaxed' | 'moderate' | 'fast'], and likewise an inherited member. *)
Inductive Pace : Type :=
| relaxed
| moderate
| fast
| inheritedPace (key : string).

Module ParsingConfidence.
Record t : Type := Make {
  overall : Q;
  destination : Q;
  duration : Q;
  interests : Q;
  accommodationType : Q;
  pace : Q
}.
End ParsingConfidence.

Module ParsedPreferences.
Record t : Type := Make {
  destination : string;
  duration : JS.number;
  interests : list string;
  accommodationType : option Accommodation;
  pace : option Pace;
  confidence : ParsingConfidence.t
}.
End ParsedPreferences.

(** [keyof ParsedPreferences] *)
Inductive Field : Type :=
| Fdestination
| Fduration
| Finterests
| FaccommodationType
| Fpace
| Fconfidence.

Inductive Priority : Type := high | medium | low.

Module ClarificationQuestion.
Record t : Type := Make {
  field : Field;
  question : string;
  suggestions : list string;
  priority : Priority
}.
End ClarificationQuestion.

(* ================================================================= *)
(** ** The parser ([promptParser.ts], class AIPromptParser) *)

Module AIPromptParser.
Import JS RegExp.

Definition destinations : list string :=
 [
  "california"; "florida"; "texas"; "new york"; "washington"; "oregon"; "colorado";
  "arizona"; "nevada"; "utah"; "montana"; "wyoming"; "north carolina";
  "south carolina"; "georgia"; "virginia"; "maine"; "new hampshire"; "vermont";
  "massachusetts"; "connecticut"; "rhode island"; "new england"; "pacific northwest";
  "southwest"; "midwest"; "great lakes"; "appalachian"; "san francisco";
  "los angeles"; "seattle"; "portland"; "denver"; "chicago"; "new york city";
  "boston"; "washington dc"; "miami"; "orlando"; "austin"; "dallas"; "houston";
  "phoenix"; "las vegas"; "salt lake city"; "minneapolis"; "detroit"; "atlanta";
  "charlotte"; "nashville"; "yellowstone"; "yosemite"; "grand canyon"; "zion";
  "arches"; "bryce canyon"; "glacier"; "great smoky mountains"; "acadia"; "olympic";
  "mount rainier"; "crater lake"; "sequoia"; "joshua tree"; "death valley";
  "big sur"; "napa valley"; "blue ridge parkway"; "europe"; "france"; "germany";
  "italy"; "spain"; "england"; "scotland"; "ireland"; "norway"; "sweden"; "denmark";
  "netherlands"; "switzerland"; "austria"; "canada"; "british columbia"; "alberta";
  "ontario"; "quebec"; "australia"; "new zealand"; "japan"
 ].

Definition interests : list string :=
 [
  "nature"; "hiking"; "national parks"; "beaches"; "mountains"; "forests";
  "wildlife"; "camping"; "history"; "museums"; "architecture"; "culture"; "art";
  "galleries"; "monuments"; "historic sites"; "food"; "restaurants"; "wineries";
  "breweries"; "local cuisine"; "farmers markets"; "adventure"; "outdoor activities";
  "rock climbing"; "kayaking"; "fishing"; "skiing"; "cycling"; "photography";
  "scenic drives"; "viewpoints"; "landscapes"; "sunsets"; "waterfalls"; "cities";
  "urban exploration"; "nightlife"; "shopping"; "entertainment"; "theaters";
  "relaxation"; "spas"; "hot springs"; "meditation"; "wellness"; "yoga retreats";
  "family"; "kids"; "theme parks"; "zoos"; "aquariums"; "family-friendly"; "budget";
  "luxury"; "off the beaten path"; "hidden gems"; "local experiences"
 ].

Record DurationPattern : Type := DP {
  pattern : RegExp.t;
  multiplier : option Z;
  value : option Z;
  range : bool
}.

(** A literal [/.../gi]. *)
Definition gi (r : regex) : RegExp.t := RegExp.Make r true true.

Definition withMultiplier (r : regex) (m : Z) : DurationPattern := DP (gi r) (Some m) None false.
Definition withValue (r : regex) (v : Z) : DurationPattern := DP (gi r) None (Some v) false.
Definition withRange (r : regex) : DurationPattern := DP (gi r) None None true.

Definition days : regex := cat [str "day"; Opt (Lit "s")].      (* days? *)
Definition weeks : regex := cat [str "week"; Opt (Lit "s")].    (* weeks? *)
Definition months : regex := cat [str "month"; Opt (Lit "s")].  (* months? *)

Definition durationPatterns : list DurationPattern :=
  [ (* Direct numbers *)
    withMultiplier (cat [Group 1 (Plus digit); Star true space; days]) 1;
    withMultiplier (cat [Group 1 (Plus digit); Star true space; weeks]) 7;
    withMultiplier (cat [Group 1 (Plus digit); Star true space; months]) 30;
    (* Written numbers *)
    withValue (cat [Group 1 (alt [str "one"; str "a"]); Plus space; str "day"]) 1;
    withValue (cat [Group 1 (str "two"); Plus space; days]) 2;
    withValue (cat [Group 1 (str "three"); Plus space; days]) 3;
    withValue (cat [Group 1 (str "four"); Plus space; days]) 4;
    withValue (cat [Group 1 (str "five"); Plus space; days]) 5;
    withValue (cat [Group 1 (str "six"); Plus space; days]) 6;
    withValue (cat [Group 1 (alt [str "seven"; cat [str "a"; Plus space; str "week"]]);
                    Plus space; days]) 7;
    withValue (cat [Group 1 (alt [str "one"; str "a"]); Plus space; str "week"]) 7;
    withValue (cat [Group 1 (str "two"); Plus space; weeks]) 14;
    (* Range patterns *)
    withRange (cat [Group 1 (Plus digit); Lit "-"; Group 2 (Plus digit); Star true space; days]);
    withRange (cat [Group 1 (Plus digit); Star true space; str "to"; Star true space;
                    Group 2 (Plus digit); Star true space; days]);
    (* Common phrases *)
    withValue (str "weekend") 2;
    withValue (cat [str "long"; Plus space; str "weekend"]) 3;
    withValue (cat [str "short"; Plus space; str "trip"]) 2;
    withValue (cat [str "quick"; Plus space; str "trip"]) 1;
    withValue (cat [str "extended"; Plus space; str "trip"]) 10;
    withValue (cat [str "road"; Plus space; str "trip"]) 7 ].

(** The mutable part of [durationPatterns]: the [lastIndex] of each
    entry, in table order.  A missing entry reads as 0. *)
Definition Store : Type := list nat.

(** The store when the module has just been loaded. *)
Definition freshStore : Store := map (fun _ => 0) durationPatterns.

(** [word.charAt(0).toUpperCase() + word.slice(1)] *)
Definition capitalize (word : string) : string :=
  (toUpperCase (charAt0 word) ++ slice1 word)%string.

(** [s.split(' ').map(capitalize).join(' ')] *)
Definition titleCase (s : string) : string :=
  join " " (map capitalize (split " " s)).

(** [[a-zA-Z\s,]] *)
Definition placeChar : regex :=
  Class [CRange "a" "z"; CRange "A" "Z"; CSpace; CChar ","].

(** [(?:to|visit|explore|see|trip to|travel to|drive to|go to)] *)
Definition travelVerb : regex :=
  alt [str "to"; str "visit"; str "explore"; str "see"; str "trip to";
       str "travel to"; str "drive to"; str "go to"].

(** [(?:\s|,|\.|\?|!|$)] *)
Definition phraseEnd : regex :=
  alt [space; Lit ","; Lit "."; Lit "?"; Lit "!"; Eos].

(** The three patterns of [extractDestination]; the literals are
    evaluated at each call, so their [lastIndex] starts at 0. *)
Definition destinationPatterns : list RegExp.t :=
  [ gi (cat [travelVerb; Plus space; Group 1 (LazyPlus placeChar); phraseEnd]);
    gi (cat [alt [str "around"; str "through"; str "across"]; Plus space;
             Group 1 (LazyPlus placeChar); phraseEnd]);
    gi (cat [alt [str "in"; str "from"]; Plus space;
             Group 1 (LazyPlus placeChar); phraseEnd]) ].

Definition stopWords : list string :=
  ["the"; "and"; "or"; "with"; "for"; "my"; "a"; "an"].

(** First loop of [extractDestination]: the first gazetteer entry that
    occurs in the prompt. *)
Definition gazetteerHit (prompt : string) : option string :=
  find (includes prompt) destinations.

(** What one pattern of the second loop yields: the capitalised
    capture when it passes the plausibility filter. *)
Definition acceptedCapture (prompt : string) (p : RegExp.t) : option string :=
  match fst (exec p 0 prompt) with
  | Some m =>
      match group 1 (groups m) with
      | Some (String c1 s1) =>
          let extracted := trim (String c1 s1) in
          if (2 <? String.length extracted) && (String.length extracted <? 50)
             && negb (arrIncludes stopWords extracted)
          then Some (titleCase extracted) else None
      | _ => None
      end
  | None => None
  end.

(** Second loop of [extractDestination]: the first pattern with an
    accepted capture. *)
Fixpoint patternDestination (prompt : string) (ps : list RegExp.t) : option string :=
  match ps with
  | [] => None
  | p :: ps' =>
      match acceptedCapture prompt p with
      | Some d => Some d
      | None => patternDestination prompt ps'
      end
  end.

Definition extractDestination (prompt : string) : string :=
  match gazetteerHit prompt with
  | Some dest => titleCase dest
  | None =>
      match patternDestination prompt destinationPatterns with
      | Some d => d
      | None => "California"
      end
  end.

(** [parseInt(match[i])] *)
Definition parseGroup (i : nat) (m : rmatch) : number :=
  match group i (groups m) with
  | Some s => parseInt s
  | None => NaN
  end.

(** What the body of the loop of [extractDuration] returns once the
    pattern has matched; [None] when it falls through. *)
Definition durationOf (p : DurationPattern) (m : rmatch) : option number :=
  match value p with
  | Some v => Some (Int v)
  | None =>
      if range p then Some (ceilAvg (parseGroup 1 m) (parseGroup 2 m))
      else match multiplier p with
           | Some k => Some (mul (parseGroup 1 m) k)
           | None => None
           end
  end.

(** The loop of [extractDuration] over the table and its store.  A
    [return] leaves the [lastIndex] that [exec] has just set; only the
    fall-through path resets it to 0. *)
Fixpoint durationLoop (prompt : string) (ps : list DurationPattern) (st : Store)
  : option number * Store :=
  match ps with
  | [] => (None, st)
  | p :: ps' =>
      let '(om, li) := exec (pattern p) (hd 0 st) prompt in
      let returned :=
        match om with
        | Some m => durationOf p m
        | None => None
        end in
      match returned with
      | Some d => (Some d, li :: tl st)
      | None =>
          let '(r, st') := durationLoop prompt ps' (tl st) in
          (r, 0 :: st')
      end
  end.

Definition extractDuration (prompt : string) (st : Store) : number * Store :=
  match durationLoop prompt durationPatterns st with
  | (Some d, st') => (d, st')
  | (None, st') =>
      (if includes prompt "quick" || includes prompt "short" then Int 2
       else if includes prompt "extended" || includes prompt "long" then Int 10
       else if includes prompt "weekend" then Int 2
       else if includes prompt "week" then Int 7
       else Int 5, st')
  end.

(** The vocabulary hits and the derived tags, before the default and
    the deduplication. *)
Definition foundInterests (prompt : string) : list string :=
  filter (includes prompt) interests
  ++ (if includes prompt "electric" || includes prompt "ev"
      then ["eco-friendly"; "sustainable travel"] else [])
  ++ (if includes prompt "family" || includes prompt "kids"
      then ["family-friendly"] else [])
  ++ (if includes prompt "romantic" || includes prompt "couple"
      then ["romantic"; "intimate"] else [])
  ++ (if includes prompt "solo" || includes prompt "alone"
      then ["solo travel"; "self-discovery"] else []).

Definition extractInterests (prompt : string) : list string :=
  match foundInterests prompt with
  | [] => ["scenic drives"; "nature"; "photography"]
  | found => slice0 5 (newSet found)
  end.

Definition extractAccommodationType (prompt : string) : option Accommodation :=
  if includes prompt "camp" || includes prompt "tent" || includes prompt "rv"
     || includes prompt "outdoors" || includes prompt "wilderness"
  then Some camping
  else if includes prompt "hotel" || includes prompt "resort" || includes prompt "luxury"
          || includes prompt "comfort" || includes prompt "spa"
  then Some hotel
  else None.

Definition extractPace (prompt : string) : option Pace :=
  if includes prompt "relax" || includes prompt "slow" || includes prompt "leisure"
     || includes prompt "peaceful" || includes prompt "calm"
  then Some relaxed
  else if includes prompt "fast" || includes prompt "quick" || includes prompt "efficient"
          || includes prompt "packed" || includes prompt "busy"
  then Some fast
  else if includes prompt "moderate" || includes prompt "balanced"
  then Some moderate
  else None.

(** The synonym table of [mapInterestsToUITags], in key order. *)
Definition uiTagMap : list (string * list string) :=
 [
  ("Nature & Wildlife",
    ["nature"; "wildlife"; "outdoors"; "forests"; "animals"; "parks";
     "scenic drives"; "waterfalls"]);
  ("Historical Sites",
    ["history"; "historic sites"; "monuments"; "heritage"; "ancient"; "historical";
     "historic"]);
  ("Food & Dining",
    ["food"; "restaurants"; "cuisine"; "dining"; "local food"; "culinary";
     "farmers markets"; "coffee"; "local cuisine"]);
  ("Adventure Sports",
    ["adventure"; "rock climbing"; "kayaking"; "skiing"; "outdoor activities";
     "sports"; "extreme"; "rafting"; "climbing"]);
  ("Art & Culture",
    ["art"; "culture"; "galleries"; "cultural"; "museums"; "exhibitions"; "theaters";
     "performances"]);
  ("Photography",
    ["photography"; "photo"; "scenic"; "viewpoints"; "landscapes"; "instagram";
     "sunsets"]);
  ("Wine & Breweries",
    ["wine"; "wineries"; "breweries"; "beer"; "tasting"; "vineyards"]);
  ("Museums",
    ["museums"; "exhibits"; "collections"; "science"; "technology"]);
  ("Beaches & Coast",
    ["beaches"; "coast"; "ocean"; "seaside"; "coastal"; "waterfront"; "coastline";
     "surfing"]);
  ("Mountains",
    ["mountains"; "peaks"; "alpine"; "elevation"; "summit"; "hiking"; "trails"]);
  ("Local Markets",
    ["markets"; "shopping"; "local"; "crafts"; "souvenirs"]);
  ("Music Venues",
    ["music"; "concerts"; "venues"; "live music"; "festivals"; "entertainment"]);
  ("Wellness & Relaxation",
    ["relaxation"; "spas"; "hot springs"; "wellness"; "yoga"]);
  ("Family Friendly",
    ["family"; "kids"; "theme parks"; "zoos"; "aquariums"; "family-friendly"])
 ].

(** [uiTagMap[tag]] on the own keys of the table.  The tags looked up are
    keys of the table and capitalised vocabulary terms; none of them
    names a member inherited from [Object.prototype]. *)
Fixpoint uiTagLookup (m : list (string * list string)) (tag : string) : option (list string) :=
  match m with
  | [] => None
  | (k, v) :: m' => if String.eqb k tag then Some v else uiTagLookup m' tag
  end.

(** The test of the first loop of [mapInterestsToUITags]. *)
Definition tagMatches (uiTag : string) (synonyms : list string) (interest : string) : bool :=
  arrIncludes synonyms (toLowerCase interest)
  || includes (toLowerCase interest) (toLowerCase uiTag)
  || includes (toLowerCase uiTag) (toLowerCase interest).

(** First loop: a UI tag is added when some interest matches it. *)
Definition directTags (ints : list string) : list string :=
  fold_left
    (fun mapped e =>
       if existsb (tagMatches (fst e) (snd e)) ints then setAdd mapped (fst e) else mapped)
    uiTagMap [].

(** Body of the second loop: an interest no mapped tag lists as a
    synonym becomes a capitalised custom tag. *)
Definition addCustom (mapped : list string) (interest : string) : list string :=
  let isAlreadyMapped :=
    existsb
      (fun tag =>
         match uiTagLookup uiTagMap tag with
         | Some synonyms => arrIncludes synonyms (toLowerCase interest)
         | None => false
         end) mapped in
  if negb isAlreadyMapped && negb (arrIncludes mapped interest)
  then setAdd mapped (titleCase interest)
  else mapped.

Definition mapInterestsToUITags (ints : list string) : list string :=
  slice0 6 (fold_left addCustom ints (directTags ints)).

(** The object literal handed to [calculateConfidence]. *)
Module Extracted.
Record t : Type := Make {
  destination : string;
  duration : number;
  interests : list string;
  accommodationType : option Accommodation;
  pace : option Pace
}.
End Extracted.

(** The flagless literal tested by [calculateConfidence]:
    [/(?:to|visit|explore|see|trip to|travel to|drive to|go to)\s+[a-zA-Z\s,]+/] *)
Definition travelVerbPhrase : RegExp.t :=
  RegExp.Make (cat [travelVerb; Plus space; Plus placeChar]) false false.

(** The duration loop of [calculateConfidence]: [true] as soon as one
    [test] succeeds (which leaves that entry's [lastIndex] where [test]
    put it); every failed entry is reset to 0. *)
Fixpoint confidenceLoop (lowerPrompt : string) (ps : list DurationPattern) (st : Store)
  : bool * Store :=
  match ps with
  | [] => (false, st)
  | p :: ps' =>
      let '(b, li) := test (pattern p) (hd 0 st) lowerPrompt in
      if b then (true, li :: tl st)
      else
        let '(r, st') := confidenceLoop lowerPrompt ps' (tl st) in
        (r, 0 :: st')
  end.

Definition calculateConfidence (prompt : string) (extracted : Extracted.t) (st : Store)
  : ParsingConfidence.t * Store :=
  let lowerPrompt := toLowerCase prompt in
  let destinationConfidence :=
    (if existsb (includes lowerPrompt) destinations then 0.9
     else if fst (test travelVerbPhrase 0 lowerPrompt) then 0.7
     else if negb (String.eqb (Extracted.destination extracted) "California") then 0.6
     else 0.3)%Q in
  let '(hit, st') := confidenceLoop lowerPrompt durationPatterns st in
  let durationConfidence := (if hit then 0.9 else 0.4)%Q in
  let interestsConfidence :=
    (Qmin 0.9 (0.3 + inject_Z (Z.of_nat (length (Extracted.interests extracted))) * 0.15))%Q in
  let accommodationConfidence :=
    (match Extracted.accommodationType extracted with Some _ => 0.8 | None => 0.2 end)%Q in
  let paceConfidence :=
    (match Extracted.pace extracted with Some _ => 0.7 | None => 0.3 end)%Q in
  let overall :=
    ((destinationConfidence + durationConfidence + interestsConfidence
      + accommodationConfidence + paceConfidence) / 5)%Q in
  (ParsingConfidence.Make overall destinationConfidence durationConfidence
     interestsConfidence accommodationConfidence paceConfidence, st').

Definition parsePrompt (prompt : string) (st : Store) : ParsedPreferences.t * Store :=
  let lowerPrompt := toLowerCase prompt in
  let destination := extractDestination lowerPrompt in
  let '(duration, st1) := extractDuration lowerPrompt st in
  let ints := extractInterests lowerPrompt in
  let accommodationType := extractAccommodationType lowerPrompt in
  let pace := extractPace lowerPrompt in
  let '(confidence, st2) :=
    calculateConfidence prompt
      (Extracted.Make destination duration ints accommodationType pace) st1 in
  (ParsedPreferences.Make destination duration (mapInterestsToUITags ints)
     accommodationType pace confidence, st2).

Definition priorityOrder (p : Priority) : Z :=
  match p with
  | high => 0
  | medium => 1
  | low => 2
  end.

(** The comparator given to [sort]. *)
Definition byPriority (a b : ClarificationQuestion.t) : Z :=
  priorityOrder (ClarificationQuestion.priority a)
  - priorityOrder (ClarificationQuestion.priority b).

(** [Array.prototype.sort] is stable; for a consistent comparator its
    result is the one of a stable insertion sort. *)
Fixpoint insertSorted {A} (cmp : A -> A -> Z) (x : A) (l : list A) : list A :=
  match l with
  | [] => [x]
  | y :: l' => if (0 <? cmp x y)%Z then y :: insertSorted cmp x l' else x :: l
  end.

Definition sort {A} (cmp : A -> A -> Z) (l : list A) : list A :=
  fold_right (insertSorted cmp) [] l.

Definition threshold : Q := 0.6%Q.

(** [x < y] on numbers. *)
Definition lt (x y : Q) : bool := negb (Qle_bool y x).

Definition destinationQuestion : ClarificationQuestion.t :=
  ClarificationQuestion.Make Fdestination
    "Where would you like to go? I wasn't sure about the destination."
    ["California"; "Pacific Northwest"; "New England"; "Southwest USA"; "Florida"]
    high.

Definition durationQuestion : ClarificationQuestion.t :=
  ClarificationQuestion.Make Fduration
    "How many days do you have for this trip?"
    ["2-3 days (weekend)"; "4-6 days (long trip)"; "7+ days (extended journey)"]
    high.

Definition interestsQuestion : ClarificationQuestion.t :=
  ClarificationQuestion.Make Finterests
    "What activities or attractions interest you most?"
    ["Nature & Wildlife"; "Food & Dining"; "Art & Culture"; "Adventure Sports"; "Photography"]
    medium.

Definition accommodationQuestion : ClarificationQuestion.t :=
  ClarificationQuestion.Make FaccommodationType
    "Do you prefer hotels or camping?"
    ["Hotels (comfort & amenities)"; "Camping (nature & adventure)"]
    medium.

Definition paceQuestion : ClarificationQuestion.t :=
  ClarificationQuestion.Make Fpace
    "What's your preferred travel pace?"
    ["Relaxed (slow & peaceful)"; "Moderate (balanced)"; "Fast (action-packed)"]
    low.

(** The questions in the order the source pushes them. *)
Definition pushedQuestions (parsed : ParsedPreferences.t) : list ClarificationQuestion.t :=
  let c := ParsedPreferences.confidence parsed in
  (if lt (ParsingConfidence.destination c) threshold then [destinationQuestion] else [])
  ++ (if lt (ParsingConfidence.duration c) threshold then [durationQuestion] else [])
  ++ (if lt (ParsingConfidence.interests c) threshold then [interestsQuestion] else [])
  ++ (if lt (ParsingConfidence.accommodationType c) threshold
      then [accommodationQuestion] else [])
  ++ (if lt (ParsingConfidence.pace c) threshold then [paceQuestion] else []).

Definition generateClarificationQuestions (parsed : ParsedPreferences.t)
  : list ClarificationQuestion.t :=
  sort byPriority (pushedQuestions parsed).

End AIPromptParser.

(* ================================================================= *)
(** ** The clarification merge ([AIItineraryWizard.tsx], lines 32-56, 124-200) *)

Inductive Budget : Type := budgetLow | budgetMedium | budgetHigh.

Module TourPreferences.
Record t : Type := Make {
  destination : string;
  duration : JS.number;
  interests : list string;
  accommodationType : Accommodation;
  vehicleRange : JS.number;
  budget : Budget
}.
End TourPreferences.

Module Wizard.
Import JS.

(** The component state read or written by [handleClarificationAnswer]. *)
Record State : Type := MkState {
  parsedData : option ParsedPreferences.t;
  prompt : string;
  preferences : TourPreferences.t;
  clarificationQuestions : list ClarificationQuestion.t;
  showClarification : bool
}.

Definition interestOptions : list string :=
  ["Nature & Wildlife"; "Historical Sites"; "Food & Dining"; "Adventure Sports";
   "Art & Culture"; "Photography"; "Wine & Breweries"; "Museums";
   "Beaches & Coast"; "Mountains"; "Local Markets"; "Music Venues"].

(** The own keys of an object literal. *)
Fixpoint own {A} (m : list (string * A)) (key : string) : option A :=
  match m with
  | [] => None
  | (k, v) :: m' => if String.eqb k key then Some v else own m' key
  end.

(** The property names of [Object.prototype], from which every object
    literal inherits; each of these members is an object or a function,
    hence truthy. *)
Definition objectPrototypeKeys : list string :=
  ["constructor"; "__defineGetter__"; "__defineSetter__"; "hasOwnProperty";
   "__lookupGetter__"; "__lookupSetter__"; "isPrototypeOf"; "propertyIsEnumerable";
   "toString"; "valueOf"; "__proto__"; "toLocaleString"].

(** [map[key]] on an object literal: an own key first, then a member
    inherited from [Object.prototype], else [undefined].  [inherited]
    says how the slot that receives the value holds such a member. *)
Definition lookup {A} (inherited : string -> A) (m : list (string * A)) (key : string)
  : option A :=
  match own m key with
  | Some v => Some v
  | None => if arrIncludes objectPrototypeKeys key then Some (inherited key) else None
  end.

Definition durationMap : list (string * number) :=
  [("2-3 days (weekend)", Int 3);
   ("4-6 days (long trip)", Int 5);
   ("7+ days (extended journey)", Int 7)].

Definition typeMap : list (string * Accommodation) :=
  [("Hotels (comfort & amenities)", hotel);
   ("Camping (nature & adventure)", camping)].

Definition paceMap : list (string * Pace) :=
  [("Relaxed (slow & peaceful)", relaxed);
   ("Moderate (balanced)", moderate);
   ("Fast (action-packed)", fast)].

(** [c || 0] on a confidence. *)
Definition orZero (c : Q) : Q := if Qeq_bool c 0 then 0%Q else c.

(** [x > y] on numbers. *)
Definition gt (x y : Q) : bool := negb (Qle_bool x y).

Definition Field_eqb (a b : Field) : bool :=
  match a, b with
  | Fdestination, Fdestination | Fduration, Fduration | Finterests, Finterests
  | FaccommodationType, FaccommodationType | Fpace, Fpace
  | Fconfidence, Fconfidence => true
  | _, _ => false
  end.

Definition Priority_eqb (a b : Priority) : bool :=
  match a, b with
  | high, high | medium, medium | low, low => true
  | _, _ => false
  end.

(** [updatedParsed] as it stands just before [setParsedData]:
    the field-specific overwrite, then the recomputed [overall].
    [prefDuration] is [preferences.duration]. *)
Definition mergeAnswer (currentParsed : ParsedPreferences.t) (prefDuration : number)
           (field : Field) (answer : string) : ParsedPreferences.t :=
  let c := ParsedPreferences.confidence currentParsed in
  let '(updatedParsed, updatedConf) :=
    match field with
    | Fdestination =>
        (ParsedPreferences.Make answer
           (ParsedPreferences.duration currentParsed)
           (ParsedPreferences.interests currentParsed)
           (ParsedPreferences.accommodationType currentParsed)
           (ParsedPreferences.pace currentParsed) c,
         ParsingConfidence.Make (ParsingConfidence.overall c) 0.95%Q
           (ParsingConfidence.duration c) (ParsingConfidence.interests c)
           (ParsingConfidence.accommodationType c) (ParsingConfidence.pace c))
    | Fduration =>
        let numeric :=
          let rest :=
            orElse (parseInt answer)
              (orElse (ParsedPreferences.duration currentParsed) prefDuration) in
          match lookup Inherited durationMap answer with
          | Some n => orElse n rest
          | None => rest
          end in
        (ParsedPreferences.Make
           (ParsedPreferences.destination currentParsed) numeric
           (ParsedPreferences.interests currentParsed)
           (ParsedPreferences.accommodationType currentParsed)
           (ParsedPreferences.pace currentParsed) c,
         ParsingConfidence.Make (ParsingConfidence.overall c)
           (ParsingConfidence.destination c) 0.95%Q (ParsingConfidence.interests c)
           (ParsingConfidence.accommodationType c) (ParsingConfidence.pace c))
    | Finterests =>
        let ints := ParsedPreferences.interests currentParsed in
        (ParsedPreferences.Make
           (ParsedPreferences.destination currentParsed)
           (ParsedPreferences.duration currentParsed)
           (if arrIncludes ints answer then ints else ints ++ [answer])
           (ParsedPreferences.accommodationType currentParsed)
           (ParsedPreferences.pace currentParsed) c,
         ParsingConfidence.Make (ParsingConfidence.overall c)
           (ParsingConfidence.destination c) (ParsingConfidence.duration c)
           (Qmin 0.95 (orZero (ParsingConfidence.interests c) + 0.25))%Q
           (ParsingConfidence.accommodationType c) (ParsingConfidence.pace c))
    | FaccommodationType =>
        let mapped :=
          match lookup inheritedAccommodation typeMap answer with
          | Some a => a
          | None => if String.eqb answer "camping" then camping else hotel
          end in
        (ParsedPreferences.Make
           (ParsedPreferences.destination currentParsed)
           (ParsedPreferences.duration currentParsed)
           (ParsedPreferences.interests currentParsed)
           (Some mapped)
           (ParsedPreferences.pace currentParsed) c,
         ParsingConfidence.Make (ParsingConfidence.overall c)
           (ParsingConfidence.destination c) (ParsingConfidence.duration c)
           (ParsingConfidence.interests c) 0.95%Q (ParsingConfidence.pace c))
    | Fpace =>
        let mapped :=
          match lookup inheritedPace paceMap answer with
          | Some p => Some p
          | None => ParsedPreferences.pace currentParsed
          end in
        (ParsedPreferences.Make
           (ParsedPreferences.destination currentParsed)
           (ParsedPreferences.duration currentParsed)
           (ParsedPreferences.interests currentParsed)
           (ParsedPreferences.accommodationType currentParsed)
           mapped c,
         ParsingConfidence.Make (ParsingConfidence.overall c)
           (ParsingConfidence.destination c) (ParsingConfidence.duration c)
           (ParsingConfidence.interests c) (ParsingConfidence.accommodationType c) 0.95%Q)
    | Fconfidence => (currentParsed, c)
    end in
  let overall :=
    ((orZero (ParsingConfidence.destination updatedConf)
      + orZero (ParsingConfidence.duration updatedConf)
      + orZero (ParsingConfidence.interests updatedConf)
      + orZero (ParsingConfidence.accommodationType updatedConf)
      + orZero (ParsingConfidence.pace updatedConf)) / 5)%Q in
  ParsedPreferences.Make
    (ParsedPreferences.destination updatedParsed)
    (ParsedPreferences.duration updatedParsed)
    (ParsedPreferences.interests updatedParsed)
    (ParsedPreferences.accommodationType updatedParsed)
    (ParsedPreferences.pace updatedParsed)
    (ParsingConfidence.Make overall
       (ParsingConfidence.destination updatedConf)
       (ParsingConfidence.duration updatedConf)
       (ParsingConfidence.interests updatedConf)
       (ParsingConfidence.accommodationType updatedConf)
       (ParsingConfidence.pace updatedConf)).

(** The updater handed to [setPreferences]. *)
Definition updatePreferences (updatedParsed : ParsedPreferences.t) (prev : TourPreferences.t)
  : TourPreferences.t :=
  let c := ParsedPreferences.confidence updatedParsed in
  let ints := ParsedPreferences.interests updatedParsed in
  TourPreferences.Make
    (if gt (ParsingConfidence.destination c) 0.5
     then ParsedPreferences.destination updatedParsed
     else TourPreferences.destination prev)
    (if gt (ParsingConfidence.duration c) 0.5
     then ParsedPreferences.duration updatedParsed
     else TourPreferences.duration prev)
    (if gt (ParsingConfidence.interests c) 0.4 && negb (length ints =? 0)
     then
       match filter (arrIncludes interestOptions) ints with
       | [] => newSet (TourPreferences.interests prev ++ ints)
       | mapped => mapped
       end
     else TourPreferences.interests prev)
    (match ParsedPreferences.accommodationType updatedParsed with
     | Some a =>
         if gt (ParsingConfidence.accommodationType c) 0.6 then a
         else TourPreferences.accommodationType prev
     | None => TourPreferences.accommodationType prev
     end)
    (TourPreferences.vehicleRange prev)
    (TourPreferences.budget prev).

(** One run of the handler on the component state and the store of the
    parser's duration patterns (read when [parsedData] is still null). *)
Definition handleClarificationAnswer (field : Field) (answer : string)
           (w : State) (st : AIPromptParser.Store) : State * AIPromptParser.Store :=
  let '(currentParsed, st') :=
    match parsedData w with
    | Some p => (p, st)
    | None => AIPromptParser.parsePrompt (prompt w) st
    end in
  let updatedParsed :=
    mergeAnswer currentParsed (TourPreferences.duration (preferences w)) field answer in
  let stillOpen (q : ClarificationQuestion.t) :=
    negb (Field_eqb (ClarificationQuestion.field q) field) in
  (MkState (Some updatedParsed) (prompt w)
     (updatePreferences updatedParsed (preferences w))
     (filter stillOpen (clarificationQuestions w))
     (match filter (fun q => stillOpen q
                             && Priority_eqb (ClarificationQuestion.priority q) high)
                   (clarificationQuestions w) with
      | [] => false
      | _ :: _ => showClarification w
      end),
   st').

End Wizard.

(* ================================================================= *)
(** ** The other handlers of the wizard ([AIItineraryWizard.tsx],
       lines 58-122 and 202-291) *)

(** The object literal [{ ...base, ... }] that [parsePromptPreferences]
    and the updater of [handlePromptChange] build: its
    [accommodationType] is copied from an optional field. *)
Module PreferencesObject.
Record t : Type := Make {
  destination : string;
  duration : JS.number;
  interests : list string;
  accommodationType : option Accommodation;
  vehicleRange : JS.number;
  budget : Budget
}.
End PreferencesObject.

Module Handlers.
Import JS Wizard.

(** [list.includes(x) ? list.filter(i => i !== x) : [...list, x]] *)
Definition toggle (l : list string) (interest : string) : list string :=
  if arrIncludes l interest
  then filter (fun i => negb (String.eqb i interest)) l
  else l ++ [interest].

(** The updater that [toggleInterest] hands to [setPreferences]. *)
Definition toggleInterest (interest : string) (prev : TourPreferences.t) : TourPreferences.t :=
  TourPreferences.Make
    (TourPreferences.destination prev)
    (TourPreferences.duration prev)
    (toggle (TourPreferences.interests prev) interest)
    (TourPreferences.accommodationType prev)
    (TourPreferences.vehicleRange prev)
    (TourPreferences.budget prev).

(** The [user] of [useAuth]; it is null until somebody has signed in. *)
Record User : Type := MkUser {
  id : string;
  email : string
}.

(** How the synchronous start of [handleGenerate] (lines 67-79) ends. *)
Inductive GenerateStart : Type :=
| Ignored                                            (* [if (!user) return;] *)
| Clarify (questions : list ClarificationQuestion.t) (* the modal opens, [return] *)
| Generate (userId : string).                        (* on to [generateTour] *)

Definition handleGenerate (user : option User) (parsedData : option ParsedPreferences.t)
  : GenerateStart :=
  match user with
  | None => Ignored
  | Some u =>
      let needed :=
        match parsedData with
        | Some p =>
            if AIPromptParser.lt
                 (ParsingConfidence.overall (ParsedPreferences.confidence p)) 0.6
            then
              let questions := AIPromptParser.generateClarificationQuestions p in
              match filter (fun q => Priority_eqb (ClarificationQuestion.priority q) high)
                           questions with
              | [] => None
              | _ :: _ => Some questions
              end
            else None
        | None => None
        end in
      match needed with
      | Some questions => Clarify questions
      | None => Generate (id u)
      end
  end.

(** [parsePromptPreferences(prompt, base)] *)
Definition parsePromptPreferences (prompt : string) (base : TourPreferences.t)
           (st : AIPromptParser.Store) : PreferencesObject.t * AIPromptParser.Store :=
  let '(parsed, st') := AIPromptParser.parsePrompt prompt st in
  let c := ParsedPreferences.confidence parsed in
  (PreferencesObject.Make
     (if gt (ParsingConfidence.destination c) 0.5
      then ParsedPreferences.destination parsed else TourPreferences.destination base)
     (if gt (ParsingConfidence.duration c) 0.5
      then ParsedPreferences.duration parsed else TourPreferences.duration base)
     (if gt (ParsingConfidence.interests c) 0.4
      then ParsedPreferences.interests parsed else TourPreferences.interests base)
     (if gt (ParsingConfidence.accommodationType c) 0.6
      then ParsedPreferences.accommodationType parsed
      else Some (TourPreferences.accommodationType base))
     (TourPreferences.vehicleRange base)
     (match ParsedPreferences.pace parsed with
      | Some pace =>
          if gt (ParsingConfidence.pace c) 0.6
          then match pace with
               | relaxed => budgetHigh
               | fast => budgetLow
               | _ => budgetMedium
               end
          else TourPreferences.budget base
      | None => TourPreferences.budget base
      end),
   st').

(** What [handlePromptChange] hands to the setters of the component. *)
Record PromptChange : Type := MkPromptChange {
  newPrompt : string;
  newParsedData : option ParsedPreferences.t;
  newPreferences : PreferencesObject.t;
  newQuestions : list ClarificationQuestion.t;
  newShowReviewPanel : bool
}.

Definition keep (prev : TourPreferences.t) : PreferencesObject.t :=
  PreferencesObject.Make
    (TourPreferences.destination prev) (TourPreferences.duration prev)
    (TourPreferences.interests prev) (Some (TourPreferences.accommodationType prev))
    (TourPreferences.vehicleRange prev) (TourPreferences.budget prev).

(** [handlePromptChange(value)], with [prev] the preferences the updater
    is applied to. *)
Definition handlePromptChange (value : string) (prev : TourPreferences.t)
           (st : AIPromptParser.Store) : PromptChange * AIPromptParser.Store :=
  if 20 <? String.length (trim value) then
    let '(parsed, st') := AIPromptParser.parsePrompt value st in
    let c := ParsedPreferences.confidence parsed in
    let updated :=
      PreferencesObject.Make
        (if gt (ParsingConfidence.destination c) 0.7
         then ParsedPreferences.destination parsed else TourPreferences.destination prev)
        (if gt (ParsingConfidence.duration c) 0.7
         then ParsedPreferences.duration parsed else TourPreferences.duration prev)
        (if gt (ParsingConfidence.interests c) 0.5
         then ParsedPreferences.interests parsed else TourPreferences.interests prev)
        (if gt (ParsingConfidence.accommodationType c) 0.7
         then ParsedPreferences.accommodationType parsed
         else Some (TourPreferences.accommodationType prev))
        (TourPreferences.vehicleRange prev)
        (TourPreferences.budget prev) in
    if AIPromptParser.lt (ParsingConfidence.overall c) 0.7
    then (MkPromptChange value (Some parsed) updated
            (AIPromptParser.generateClarificationQuestions parsed) true, st')
    else (MkPromptChange value (Some parsed) updated [] false, st')
  else (MkPromptChange value None (keep prev) [] false, st).

(** The edits the review panel sends to [handleParsedPreferencesChange]
    (lines 290, 421, 439, 481, 490): the field and its [value]. *)
Inductive ReviewEdit : Type :=
| EditDestination (value : string)
| EditDuration (value : string)
| EditInterests (value : list string)
| EditAccommodation (value : Accommodation).

(** [pace || 0.5] on a confidence. *)
Definition orHalf (c : Q) : Q := if Qeq_bool c 0 then 0.5%Q else c.

(** [updatedParsed] of [handleParsedPreferencesChange]; the confidence
    object it writes to is the one of the previous state, which is
    dropped when the new state is committed. *)
Definition reviewParsed (parsedData : ParsedPreferences.t) (edit : ReviewEdit)
  : ParsedPreferences.t :=
  let c := ParsedPreferences.confidence parsedData in
  let '(destination, duration, ints, accommodationType, cd, cu, ci, ca) :=
    match edit with
    | EditDestination value =>
        (value, ParsedPreferences.duration parsedData,
         ParsedPreferences.interests parsedData,
         ParsedPreferences.accommodationType parsedData,
         0.95%Q, ParsingConfidence.duration c, ParsingConfidence.interests c,
         ParsingConfidence.accommodationType c)
    | EditDuration value =>
        (ParsedPreferences.destination parsedData,
         orElse (parseInt value) (ParsedPreferences.duration parsedData),
         ParsedPreferences.interests parsedData,
         ParsedPreferences.accommodationType parsedData,
         ParsingConfidence.destination c, 0.95%Q, ParsingConfidence.interests c,
         ParsingConfidence.accommodationType c)
    | EditInterests value =>
        (ParsedPreferences.destination parsedData,
         ParsedPreferences.duration parsedData,
         value,
         ParsedPreferences.accommodationType parsedData,
         ParsingConfidence.destination c, ParsingConfidence.duration c, 0.9%Q,
         ParsingConfidence.accommodationType c)
    | EditAccommodation value =>
        (ParsedPreferences.destination parsedData,
         ParsedPreferences.duration parsedData,
         ParsedPreferences.interests parsedData,
         Some value,
         ParsingConfidence.destination c, ParsingConfidence.duration c,
         ParsingConfidence.interests c, 0.95%Q)
    end in
  ParsedPreferences.Make destination duration ints accommodationType
    (ParsedPreferences.pace parsedData)
    (ParsingConfidence.Make
       ((cd + cu + ci + ca + orHalf (ParsingConfidence.pace c)) / 5)%Q
       cd cu ci ca (ParsingConfidence.pace c)).

(** The updater that [handleParsedPreferencesChange] hands to
    [setPreferences]. *)
Definition syncPreferences (updatedParsed : ParsedPreferences.t) (prev : TourPreferences.t)
  : TourPreferences.t :=
  TourPreferences.Make
    (ParsedPreferences.destination updatedParsed)
    (ParsedPreferences.duration updatedParsed)
    (ParsedPreferences.interests updatedParsed)
    (match ParsedPreferences.accommodationType updatedParsed with
     | Some a => a
     | None => TourPreferences.accommodationType prev
     end)
    (TourPreferences.vehicleRange prev)
    (TourPreferences.budget prev).

(** [handleParsedPreferencesChange(field, value)] on the component
    state; nothing happens while [parsedData] is null. *)
Definition handleParsedPreferencesChange (edit : ReviewEdit) (w : State) : State :=
  match parsedData w with
  | None => w
  | Some p =>
      let updatedParsed := reviewParsed p edit in
      MkState (Some updatedParsed) (prompt w)
        (syncPreferences updatedParsed (preferences w))
        (clarificationQuestions w) (showClarification w)
  end.

(** [toggleReviewInterest(interest)] *)
Definition toggleReviewInterest (interest : string) (w : State) : State :=
  match parsedData w with
  | None => w
  | Some p =>
      handleParsedPreferencesChange
        (EditInterests (toggle (ParsedPreferences.interests p) interest)) w
  end.

End Handlers.

(* ================================================================= *)
(** * Properties *)

Import JS AIPromptParser.

(** The five per-field scores of a confidence record. *)
Definition fieldConfidence (f : Field) (c : ParsingConfidence.t) : Q :=
  match f with
  | Fdestination => ParsingConfidence.destination c
  | Fduration => ParsingConfidence.duration c
  | Finterests => ParsingConfidence.interests c
  | FaccommodationType => ParsingConfidence.accommodationType c
  | Fpace => ParsingConfidence.pace c
  | Fconfidence => ParsingConfidence.overall c
  end.

(** The arithmetic mean of the five per-field scores. *)
Definition mean5 (c : ParsingConfidence.t) : Q :=
  ((ParsingConfidence.destination c + ParsingConfidence.duration c
    + ParsingConfidence.interests c + ParsingConfidence.accommodationType c
    + ParsingConfidence.pace c) / 5)%Q.

(** The result of a call of the parser, without the store. *)
Definition parse (text : string) (st : Store) : ParsedPreferences.t :=
  fst (parsePrompt text st).

(** The store a call of the parser leaves behind. *)
Definition storeAfter (text : string) (st : Store) : Store :=
  snd (parsePrompt text st).

(** The order in which [generateClarificationQuestions] checks the fields. *)
Definition fieldCheckOrder : list Field :=
  [Fdestination; Fduration; Finterests; FaccommodationType; Fpace].

(** The fixed priority of a field's question. *)
Definition fieldPriority (f : Field) : Priority :=
  match f with
  | Fdestination | Fduration => high
  | Finterests | FaccommodationType => medium
  | Fpace | Fconfidence => low
  end.

(** Whether a field's confidence is strictly below the threshold. *)
Definition belowThreshold (parsed : ParsedPreferences.t) (f : Field) : bool :=
  if Qlt_le_dec (fieldConfidence f (ParsedPreferences.confidence parsed)) threshold
  then true else false.

(** The text holds a travel-verb phrase from which no destination was
    extracted: no gazetteer entry occurs, [calculateConfidence] finds the
    phrase, and yet the destination is the default.  The test of
    [calculateConfidence] repeats the first pattern of
    [extractDestination] without its plausibility filter (capture longer
    than 2, not a stop word). *)
Definition unfilteredVerbPhrase (text : string) : bool :=
  negb (existsb (includes (toLowerCase text)) destinations)
  && fst (RegExp.test travelVerbPhrase 0 (toLowerCase text))
  && String.eqb (extractDestination (toLowerCase text)) "California".

(** How many questions of a list ask about field [f]. *)
Definition questionsFor (f : Field) (qs : list ClarificationQuestion.t) : nat :=
  length (filter (fun q => Wizard.Field_eqb (ClarificationQuestion.field q) f) qs).

(** Ascending priority rank. *)
Definition priorityLe (a b : ClarificationQuestion.t) : Prop :=
  (priorityOrder (ClarificationQuestion.priority a)
   <= priorityOrder (ClarificationQuestion.priority b))%Z.

(** The number of distinct raw terms found (vocabulary hits and derived
    tags), or 3, the size of the default triple, when none was found. *)
Definition rawCount (prompt : string) : nat :=
  match foundInterests prompt with
  | [] => 3
  | found => length (newSet found)
  end.

Import Wizard.

(** The component state as [useState] initialises it. *)
Definition initialState : State :=
  MkState None ""
    (TourPreferences.Make "" (Int 3) [] hotel (Int 300) budgetMedium)
    [] false.

(** The state [w] once [parsedData] holds the record [p]. *)
Definition withParsed (w : State) (p : ParsedPreferences.t) : State :=
  MkState (Some p) (prompt w) (preferences w) (clarificationQuestions w)
    (showClarification w).

(** The component state after the handler has run. *)
Definition answered (f : Field) (a : string) (w : State) (st : Store) : State :=
  fst (handleClarificationAnswer f a w st).

(** The answer [a] for field [f] does not name a member that the
    lookup table of that field inherits from [Object.prototype]
    (destination and interests use no table). *)
Definition ownAnswer (f : Field) (a : string) : bool :=
  match f with
  | Fduration | FaccommodationType | Fpace => negb (arrIncludes objectPrototypeKeys a)
  | _ => true
  end.

(** What the answer [a] for field [f] makes of that field, given the
    record [prev] before the merge and [preferences.duration]. *)
Definition fieldSetTo (f : Field) (a : string) (prev : ParsedPreferences.t)
           (prefDuration : number) (r : ParsedPreferences.t) : Prop :=
  match f with
  | Fdestination => ParsedPreferences.destination r = a
  | Fduration =>
      ParsedPreferences.duration r
      = match own durationMap a with
        | Some n => n
        | None =>
            if truthy (parseInt a) then parseInt a
            else orElse (ParsedPreferences.duration prev) prefDuration
        end
  | FaccommodationType =>
      ParsedPreferences.accommodationType r
      = Some (if String.eqb a "Camping (nature & adventure)" || String.eqb a "camping"
              then camping else hotel)
  | Fpace =>
      ParsedPreferences.pace r
      = match own paceMap a with
        | Some x => Some x
        | None => ParsedPreferences.pace prev
        end
  | Finterests =>
      ParsedPreferences.interests r
      = if arrIncludes (ParsedPreferences.interests prev) a
        then ParsedPreferences.interests prev
        else ParsedPreferences.interests prev ++ [a]
  | Fconfidence => True
  end.

(** Every field other than [f], and every per-field confidence other
    than that of [f], is as before. *)
Definition othersKept (f : Field) (prev r : ParsedPreferences.t) : Prop :=
  (f = Fdestination
   \/ ParsedPreferences.destination r = ParsedPreferences.destination prev)
  /\ (f = Fduration \/ ParsedPreferences.duration r = ParsedPreferences.duration prev)
  /\ (f = Finterests \/ ParsedPreferences.interests r = ParsedPreferences.interests prev)
  /\ (f = FaccommodationType
      \/ ParsedPreferences.accommodationType r = ParsedPreferences.accommodationType prev)
  /\ (f = Fpace \/ ParsedPreferences.pace r = ParsedPreferences.pace prev)
  /\ Forall (fun g => g = f
                      \/ fieldConfidence g (ParsedPreferences.confidence r)
                         = fieldConfidence g (ParsedPreferences.confidence prev))
            fieldCheckOrder.

(** The lower-cased text of the California scenario. *)
Definition californiaPrompt : string :=
  "i want a 7-day road trip through california visiting national parks and wineries".

(** The last entry of the table, [/road\s+trip/gi]. *)
Definition roadTrip : DurationPattern :=
  withValue (RegExp.cat [RegExp.str "road"; RegExp.Plus RegExp.space; RegExp.str "trip"]) 7.

(** The first entry of the table, [/(\d+)\s*days?/gi]. *)
Definition numberOfDays : RegExp.t :=
  gi (RegExp.cat [RegExp.Group 1 (RegExp.Plus RegExp.digit);
                  RegExp.Star true RegExp.space; days]).

(** [exec] finds nothing in [s], whatever the [lastIndex] up to the
    length of [s]. *)
Definition neverMatches (s : string) (p : DurationPattern) : bool :=
  forallb (fun li => match RegExp.exec (pattern p) li s with
                     | (None, 0) => true
                     | _ => false
                     end)
          (seq 0 (S (String.length s))).

(** ** Vocabulary of the further properties *)

(** What one successful path of the matcher does: the text it consumes
    and the state it reaches. *)
Inductive Matches (icase : bool) : RegExp.regex -> RegExp.mstate -> string -> RegExp.mstate -> Prop :=
| MEps st : Matches icase RegExp.Eps st "" st
| MLit a c s' st :
    RegExp.rest st = String c s' -> RegExp.sameChar icase a c = true ->
    Matches icase (RegExp.Lit a) st (String c "")
            (RegExp.MState (S (RegExp.pos st)) s' (RegExp.caps st))
| MClass cs c s' st :
    RegExp.rest st = String c s' -> existsb (RegExp.inCset icase c) cs = true ->
    Matches icase (RegExp.Class cs) st (String c "")
            (RegExp.MState (S (RegExp.pos st)) s' (RegExp.caps st))
| MSeq r1 r2 st w1 st1 w2 st2 :
    Matches icase r1 st w1 st1 -> Matches icase r2 st1 w2 st2 ->
    Matches icase (RegExp.Seq r1 r2) st (w1 ++ w2)%string st2
| MAltL r1 r2 st w st' :
    Matches icase r1 st w st' -> Matches icase (RegExp.Alt r1 r2) st w st'
| MAltR r1 r2 st w st' :
    Matches icase r2 st w st' -> Matches icase (RegExp.Alt r1 r2) st w st'
| MStarNil g r st : Matches icase (RegExp.Star g r) st "" st
| MStarCons g r st w1 st1 w2 st2 :
    Matches icase r st w1 st1 -> RegExp.pos st1 <> RegExp.pos st ->
    Matches icase (RegExp.Star g r) st1 w2 st2 ->
    Matches icase (RegExp.Star g r) st (w1 ++ w2)%string st2
| MGroup i r st w st' :
    Matches icase r st w st' ->
    Matches icase (RegExp.Group i r) st w
            (RegExp.MState (RegExp.pos st') (RegExp.rest st')
               ((i, take (RegExp.pos st' - RegExp.pos st) (RegExp.rest st))
                  :: RegExp.caps st'))
| MEos st : RegExp.rest st = "" -> Matches icase RegExp.Eos st "" st.

(** The loop the matcher runs for a quantifier, with the matcher of the
    body as a parameter. *)
Definition starLoop (greedy : bool)
           (body : RegExp.mstate -> (RegExp.mstate -> option RegExp.mstate)
                   -> option RegExp.mstate)
           (k : RegExp.mstate -> option RegExp.mstate)
  : nat -> RegExp.mstate -> option RegExp.mstate :=
  fix loop (n : nat) (st : RegExp.mstate) {struct n} : option RegExp.mstate :=
    match n with
    | O => k st
    | S n' =>
        let more :=
          body st (fun st' => if RegExp.pos st' =? RegExp.pos st then None else loop n' st') in
        if greedy then
          match more with
          | Some x => Some x
          | None => k st
          end
        else
          match k st with
          | Some x => Some x
          | None => more
          end
    end.

(** Every character of [s] passes [ok]. *)
Fixpoint allChars (ok : ascii -> bool) (s : string) : bool :=
  match s with
  | EmptyString => true
  | String c s' => ok c && allChars ok s'
  end.

(** The text of [n] nines. *)
Fixpoint nines (n : nat) : string :=
  match n with
  | O => ""
  | S n' => String "9" (nines n')
  end.

(** A non-empty run of decimal digits. *)
Definition digitString (s : string) : Prop := s <> "" /\ allChars isDigit s = true.

(** A day count that is not negative: the integer value of a double, or
    plus infinity; never [NaN]. *)
Definition isCount (n : number) : Prop :=
  (exists z : Z, n = Int z /\ (0 <= z)%Z) \/ n = Infinity false.

(** The capturing groups of a regular expression, each with its body. *)
Fixpoint groupBodies (r : RegExp.regex) : list (nat * RegExp.regex) :=
  match r with
  | RegExp.Seq r1 r2 | RegExp.Alt r1 r2 => groupBodies r1 ++ groupBodies r2
  | RegExp.Star _ r' => groupBodies r'
  | RegExp.Group i r' => (i, r') :: groupBodies r'
  | _ => []
  end.

(** The groups that take part in every match: those not under an
    alternative or a quantifier. *)
Fixpoint sureGroups (r : RegExp.regex) : list nat :=
  match r with
  | RegExp.Seq r1 r2 => sureGroups r1 ++ sureGroups r2
  | RegExp.Group i r' => i :: sureGroups r'
  | _ => []
  end.

(** Whether a regular expression can match the empty text. *)
Fixpoint nullable (r : RegExp.regex) : bool :=
  match r with
  | RegExp.Eps | RegExp.Eos | RegExp.Star _ _ => true
  | RegExp.Lit _ | RegExp.Class _ => false
  | RegExp.Seq r1 r2 => nullable r1 && nullable r2
  | RegExp.Alt r1 r2 => nullable r1 || nullable r2
  | RegExp.Group _ r' => nullable r'
  end.

(** The store with every [lastIndex] of the table at 0, followed by
    whatever [st] holds beyond the table. *)
Definition resetStore (st : Store) : Store :=
  repeat 0 (length durationPatterns) ++ skipn (length durationPatterns) st.

(** The tags that [extractInterests] derives from cues. *)
Definition derivedTerms : list string :=
  ["eco-friendly"; "sustainable travel"; "family-friendly"; "romantic"; "intimate";
   "solo travel"; "self-discovery"].

(** Every raw interest term the parser can produce. *)
Definition rawTerms : list string := interests ++ derivedTerms.

(** Every tag the parser can produce: the UI categories and the
    capitalised raw terms. *)
Definition knownTags : list string := map fst uiTagMap ++ map titleCase rawTerms.

(** Whether the question about field [f] follows from what the parse of
    [text] found. *)
Definition askedAfterParse (text : string) (st : Store) (f : Field) : bool :=
  match f with
  | Fdestination =>
      negb (existsb (includes (toLowerCase text)) destinations)
      && negb (fst (RegExp.test travelVerbPhrase 0 (toLowerCase text)))
      && String.eqb (ParsedPreferences.destination (parse text st)) "California"
  | Fduration =>
      Qeq_bool (ParsingConfidence.duration (ParsedPreferences.confidence (parse text st))) 0.4
  | Finterests => rawCount (toLowerCase text) =? 1
  | FaccommodationType =>
      match ParsedPreferences.accommodationType (parse text st) with
      | None => true
      | Some _ => false
      end
  | Fpace =>
      match ParsedPreferences.pace (parse text st) with
      | None => true
      | Some _ => false
      end
  | Fconfidence => false
  end.

(** The state in which the questions of [p] have just been shown. *)
Definition asking (w : State) (p : ParsedPreferences.t) : State :=
  MkState (Some p) (prompt w) (preferences w) (generateClarificationQuestions p) true.

(** The entries of the synonym table that the first loop of
    [mapInterestsToUITags] matches with one interest. *)
Definition tagsOf (interest : string) : list (string * list string) :=
  filter (fun e => tagMatches (fst e) (snd e) interest) uiTagMap.

(** Whether some entry of the table lists the interest as a synonym. *)
Definition inSynonyms (interest : string) : bool :=
  existsb (fun e => arrIncludes (snd e) (toLowerCase interest)) uiTagMap.

(** How many tags one interest can bring: its UI categories, and itself
    as a custom tag when no entry lists it. *)
Definition tagWeight (interest : string) : nat :=
  length (tagsOf interest) + (if inSynonyms interest then 0 else 1).

(** The tags before the cut to six. *)
Definition allTags (ints : list string) : list string :=
  fold_left addCustom ints (directTags ints).

(** An interest is represented by a list of tags when a tag lists it as
    a synonym, or is the interest itself, or is the interest with its
    words capitalised. *)
Definition represented (tags : list string) (interest : string) : bool :=
  existsb (fun tag => match uiTagLookup uiTagMap tag with
                      | Some synonyms => arrIncludes synonyms (toLowerCase interest)
                      | None => false
                      end) tags
  || arrIncludes tags interest
  || arrIncludes tags (titleCase interest).

(** The first loop of [mapInterestsToUITags], over any part [m] of the
    table, from any set. *)
Definition directFrom (ints : list string) (m : list (string * list string))
    (s : list string) : list string :=
  fold_left
    (fun mapped e =>
       if existsb (tagMatches (fst e) (snd e)) ints then setAdd mapped (fst e) else mapped)
    m s.

(** A raw interest is mapped into [tags]: to a UI category of the
    synonym table that matches it, or to itself with its words
    capitalised. *)
Definition mappedInto (tags : list string) (interest : string) : bool :=
  existsb (fun e => arrIncludes tags (fst e)) (tagsOf interest)
  || arrIncludes tags (titleCase interest).

(** A tag comes from the raw interests [ints]: it is a UI category that
    one of them matches, or one of them with its words capitalised. *)
Definition mappedFrom (ints : list string) (tag : string) : bool :=
  existsb (fun e => String.eqb (fst e) tag && existsb (tagMatches (fst e) (snd e)) ints)
          uiTagMap
  || existsb (fun i => String.eqb (titleCase i) tag) ints.

(** ** The primitives on sample inputs *)

Section Samples.

Example table_first_and_last :
  nth_error durationPatterns 0 = Some (DP numberOfDays (Some 1%Z) None false)
  /\ nth_error durationPatterns 19 = Some roadTrip
  /\ length durationPatterns = 20.
Proof. repeat split. Qed.

Example exec_leftmost :
  RegExp.exec numberOfDays 0 "2 days and 3 days"
  = (Some (RegExp.RMatch 0 6 [(1, "2")]), 6).
Proof. vm_compute. reflexivity. Qed.

Example exec_resumes_at_lastIndex :
  RegExp.exec numberOfDays 6 "2 days and 3 days"
  = (Some (RegExp.RMatch 11 17 [(1, "3")]), 17).
Proof. vm_compute. reflexivity. Qed.

Example exec_failure_resets :
  RegExp.exec numberOfDays 17 "2 days and 3 days" = (None, 0)
  /\ RegExp.exec numberOfDays 40 "2 days" = (None, 0).
Proof. split; vm_compute; reflexivity. Qed.

Example exec_ignores_case :
  fst (RegExp.exec numberOfDays 0 "12 DAYS")
  = Some (RegExp.RMatch 0 7 [(1, "12")]).
Proof. vm_compute. reflexivity. Qed.

Example exec_lazy_capture :
  fst (RegExp.exec (hd (gi RegExp.Eps) destinationPatterns) 0 "a trip to paris, then home")
  = Some (RegExp.RMatch 2 16 [(1, "paris")]).
Proof. vm_compute. reflexivity. Qed.

Example test_without_flags :
  RegExp.test travelVerbPhrase 5 "go to the" = (true, 5)
  /\ RegExp.test travelVerbPhrase 0 "around mexico" = (false, 0).
Proof. split; vm_compute; reflexivity. Qed.

Example parseInt_samples :
  parseInt "  42 days" = Int 42 /\ parseInt "-7" = Int (-7) /\ parseInt "0x1F" = Int 31
  /\ parseInt "007" = Int 7 /\ parseInt "ten" = NaN /\ parseInt "" = NaN.
Proof. repeat split; vm_compute; reflexivity. Qed.

Example titleCase_samples :
  titleCase "new york city" = "New York City"
  /\ titleCase "family-friendly" = "Family-friendly"
  /\ split " " "a  b" = ["a"; ""; "b"]
  /\ trim "  big sur  " = "big sur".
Proof. repeat split; vm_compute; reflexivity. Qed.

Example mapInterestsToUITags_samples :
  mapInterestsToUITags ["scenic drives"; "nature"; "photography"]
  = ["Nature & Wildlife"; "Photography"]
  /\ mapInterestsToUITags ["national parks"; "wineries"]
     = ["Wine & Breweries"; "National Parks"].
Proof. split; vm_compute; reflexivity. Qed.

Example questions_for_the_empty_text :
  map ClarificationQuestion.field
      (generateClarificationQuestions (parse "" freshStore))
  = [Fdestination; Fduration; FaccommodationType; Fpace].
Proof. vm_compute. reflexivity. Qed.

End Samples.

(** ** Sets kept as insertion-ordered lists *)

Section SetFacts.

Lemma arrIncludes_In (l : list string) (x : string) :
  arrIncludes l x = true <-> In x l.
Proof.
  unfold arrIncludes. rewrite existsb_exists. split.
  - intros [y [Hy He]]. apply String.eqb_eq in He. now subst.
  - intros H. exists x. split; [assumption | apply String.eqb_refl].
Qed.

Lemma setAdd_NoDup (s : list string) (x : string) :
  NoDup s -> NoDup (setAdd s x).
Proof.
  intros Hs. unfold setAdd.
  destruct (arrIncludes s x) eqn:E; [assumption|].
  apply NoDup_app; [assumption | repeat constructor; intros [] | ].
  intros y Hy [<- | []].
  apply arrIncludes_In in Hy. congruence.
Qed.

Lemma setAdd_nonempty (s : list string) (x : string) : setAdd s x <> [].
Proof.
  unfold setAdd. destruct (arrIncludes s x) eqn:E.
  - destruct s; [discriminate | discriminate].
  - destruct s; discriminate.
Qed.

Lemma setAdd_keeps (s : list string) (x y : string) : In y s -> In y (setAdd s x).
Proof.
  unfold setAdd. destruct (arrIncludes s x); [auto | intros; apply in_or_app; auto].
Qed.

Lemma fold_setAdd_NoDup (l s : list string) :
  NoDup s -> NoDup (fold_left setAdd l s).
Proof.
  revert s. induction l as [|x l IH]; intros s Hs; simpl; [assumption|].
  apply IH. now apply setAdd_NoDup.
Qed.

Lemma newSet_NoDup (l : list string) : NoDup (newSet l).
Proof. apply fold_setAdd_NoDup. constructor. Qed.

Lemma fold_setAdd_keeps (l s : list string) (y : string) :
  In y s -> In y (fold_left setAdd l s).
Proof.
  revert s. induction l as [|x l IH]; intros s Hs; simpl; [assumption|].
  apply IH. now apply setAdd_keeps.
Qed.

Lemma newSet_nonempty (x : string) (l : list string) : newSet (x :: l) <> [].
Proof.
  unfold newSet. simpl. intros H.
  assert (Hin : In x (fold_left setAdd l (setAdd [] x))).
  { apply fold_setAdd_keeps. unfold setAdd. simpl. auto. }
  rewrite H in Hin. destruct Hin.
Qed.

Lemma firstn_In_subset {A} (n : nat) (l : list A) (x : A) :
  In x (firstn n l) -> In x l.
Proof.
  revert l. induction n as [|n IH]; intros [|y l]; simpl; try tauto.
  intros [H | H]; auto.
Qed.

Lemma firstn_NoDup {A} (n : nat) (l : list A) : NoDup l -> NoDup (firstn n l).
Proof.
  revert l. induction n as [|n IH]; intros [|y l] H; simpl; try constructor.
  - inversion H; subst. intros Hin. apply firstn_In_subset in Hin. contradiction.
  - inversion H; subst. now apply IH.
Qed.

Lemma firstn_nonempty {A} (n : nat) (l : list A) : l <> [] -> firstn (S n) l <> [].
Proof. destruct l; [congruence | discriminate]. Qed.

End SetFacts.

(** ** The UI-tag mapping *)

Section TagMapping.

Lemma directTags_NoDup (ints : list string) : NoDup (directTags ints).
Proof.
  unfold directTags.
  generalize uiTagMap. intros m.
  assert (H : NoDup (@nil string)) by constructor. revert H.
  generalize (@nil string). induction m as [|e m IH]; intros s Hs; simpl; [assumption|].
  apply IH. destruct (existsb _ ints); [now apply setAdd_NoDup | assumption].
Qed.

Lemma addCustom_NoDup (mapped : list string) (interest : string) :
  NoDup mapped -> NoDup (addCustom mapped interest).
Proof.
  intros H. unfold addCustom.
  destruct (negb _ && negb _); [now apply setAdd_NoDup | assumption].
Qed.

Lemma fold_addCustom_NoDup (ints mapped : list string) :
  NoDup mapped -> NoDup (fold_left addCustom ints mapped).
Proof.
  revert mapped. induction ints as [|i ints IH]; intros mapped H; simpl; [assumption|].
  apply IH. now apply addCustom_NoDup.
Qed.

(** The second loop never empties the set, and its first round leaves
    it non-empty: an interest is skipped only because of a tag that is
    already there. *)
Lemma addCustom_nonempty (mapped : list string) (interest : string) :
  addCustom mapped interest <> [].
Proof.
  unfold addCustom. destruct mapped as [|t mapped].
  - simpl. apply setAdd_nonempty.
  - destruct (negb _ && negb _); [apply setAdd_nonempty | discriminate].
Qed.

Lemma fold_addCustom_nonempty (ints mapped : list string) :
  mapped <> [] -> fold_left addCustom ints mapped <> [].
Proof.
  revert mapped. induction ints as [|i ints IH]; intros mapped H; simpl; [assumption|].
  apply IH. apply addCustom_nonempty.
Qed.

Lemma mapInterestsToUITags_nonempty (ints : list string) :
  ints <> [] -> mapInterestsToUITags ints <> [].
Proof.
  intros H. unfold mapInterestsToUITags, slice0.
  apply firstn_nonempty.
  destruct ints as [|i ints]; [congruence|]. simpl.
  apply fold_addCustom_nonempty. apply addCustom_nonempty.
Qed.

Lemma mapInterestsToUITags_NoDup (ints : list string) :
  NoDup (mapInterestsToUITags ints).
Proof.
  unfold mapInterestsToUITags, slice0. apply firstn_NoDup.
  apply fold_addCustom_NoDup, directTags_NoDup.
Qed.

Lemma extractInterests_nonempty (prompt : string) : extractInterests prompt <> [].
Proof.
  unfold extractInterests.
  destruct (foundInterests prompt) as [|x l]; [discriminate|].
  unfold slice0. apply firstn_nonempty, newSet_nonempty.
Qed.

Lemma extractInterests_length (prompt : string) :
  1 <= length (extractInterests prompt) <= 5.
Proof.
  split.
  - pose proof (extractInterests_nonempty prompt) as H.
    destruct (extractInterests prompt); [congruence | simpl; lia].
  - unfold extractInterests.
    destruct (foundInterests prompt) as [|x l]; [simpl; lia|].
    unfold slice0. apply firstn_le_length.
Qed.

End TagMapping.

(** ** Projections of a parse *)

Section Projections.

Variables (text : string) (st : Store).

Lemma parse_destination :
  ParsedPreferences.destination (parse text st) = extractDestination (toLowerCase text).
Proof.
  unfold parse, parsePrompt.
  destruct (extractDuration _ st) as [d st1].
  destruct (calculateConfidence _ _ st1) as [c st2]. reflexivity.
Qed.

Lemma parse_duration :
  ParsedPreferences.duration (parse text st) = fst (extractDuration (toLowerCase text) st).
Proof.
  unfold parse, parsePrompt.
  destruct (extractDuration _ st) as [d st1].
  destruct (calculateConfidence _ _ st1) as [c st2]. reflexivity.
Qed.

Lemma parse_interests :
  ParsedPreferences.interests (parse text st)
  = mapInterestsToUITags (extractInterests (toLowerCase text)).
Proof.
  unfold parse, parsePrompt.
  destruct (extractDuration _ st) as [d st1].
  destruct (calculateConfidence _ _ st1) as [c st2]. reflexivity.
Qed.

Lemma parse_confidence :
  ParsedPreferences.confidence (parse text st)
  = fst (calculateConfidence text
           (Extracted.Make (extractDestination (toLowerCase text))
              (fst (extractDuration (toLowerCase text) st))
              (extractInterests (toLowerCase text))
              (extractAccommodationType (toLowerCase text))
              (extractPace (toLowerCase text)))
           (snd (extractDuration (toLowerCase text) st))).
Proof.
  unfold parse, parsePrompt.
  destruct (extractDuration _ st) as [d st1]. simpl.
  destruct (calculateConfidence _ _ st1) as [c st2]. reflexivity.
Qed.

End Projections.

(** C9: for every input text (and every state of the duration patterns),
    the interests of the parse hold no duplicate and at most 6 entries. *)
Theorem parse_interests_nodup_le6 (text : string) (st : Store) :
  NoDup (ParsedPreferences.interests (parse text st))
  /\ length (ParsedPreferences.interests (parse text st)) <= 6.
Proof.
  rewrite parse_interests. split.
  - apply mapInterestsToUITags_NoDup.
  - unfold mapInterestsToUITags, slice0. apply firstn_le_length.
Qed.

(** ** Confidence scores *)

Section Confidence.

Lemma interestsConfidence_bounds (n : nat) :
  (0 <= Qmin 0.9 (0.3 + inject_Z (Z.of_nat n) * 0.15) <= 1)%Q.
Proof.
  assert (Hn : (0 <= inject_Z (Z.of_nat n))%Q).
  { change 0%Q with (inject_Z 0). rewrite <- Zle_Qle. lia. }
  split.
  - apply Q.min_glb; lra.
  - apply Qle_trans with (y := 0.9%Q); [apply Q.le_min_l | lra].
Qed.

(** Every record [calculateConfidence] builds has its five scores in
    [0,1] and their mean as [overall]. *)
Lemma calculateConfidence_bounds (prompt : string) (e : Extracted.t) (st : Store) :
  let c := fst (calculateConfidence prompt e st) in
  (0 <= ParsingConfidence.destination c <= 1)%Q
  /\ (0 <= ParsingConfidence.duration c <= 1)%Q
  /\ (0 <= ParsingConfidence.interests c <= 1)%Q
  /\ (0 <= ParsingConfidence.accommodationType c <= 1)%Q
  /\ (0 <= ParsingConfidence.pace c <= 1)%Q
  /\ ParsingConfidence.overall c = mean5 c.
Proof.
  unfold calculateConfidence.
  destruct (confidenceLoop _ _ st) as [hit st']. cbn [fst].
  unfold mean5. cbn [ParsingConfidence.destination ParsingConfidence.duration
    ParsingConfidence.interests ParsingConfidence.accommodationType
    ParsingConfidence.pace ParsingConfidence.overall].
  repeat split.
  1-2: destruct (existsb _ _); [lra|]; destruct (fst _); [lra|];
       destruct (negb _); lra.
  1-2: destruct hit; lra.
  1-2: apply interestsConfidence_bounds.
  1-2: destruct (Extracted.accommodationType e); lra.
  1-2: destruct (Extracted.pace e); lra.
Qed.

Lemma mean5_bounds (c : ParsingConfidence.t) :
  (0 <= ParsingConfidence.destination c <= 1)%Q ->
  (0 <= ParsingConfidence.duration c <= 1)%Q ->
  (0 <= ParsingConfidence.interests c <= 1)%Q ->
  (0 <= ParsingConfidence.accommodationType c <= 1)%Q ->
  (0 <= ParsingConfidence.pace c <= 1)%Q ->
  (0 <= mean5 c <= 1)%Q.
Proof.
  unfold mean5. intros [? ?] [? ?] [? ?] [? ?] [? ?].
  split.
  - apply Qle_shift_div_l; lra.
  - apply Qle_shift_div_r; lra.
Qed.

End Confidence.

(** C8: for every input text (and every state of the duration patterns),
    each of the five per-field confidences of the parse lies in [0,1];
    [overall] is their arithmetic mean and lies in [0,1] too. *)
Theorem parse_confidence_in_unit_interval (text : string) (st : Store) :
  (0 <= ParsingConfidence.destination (ParsedPreferences.confidence (parse text st)) <= 1)%Q
  /\ (0 <= ParsingConfidence.duration (ParsedPreferences.confidence (parse text st)) <= 1)%Q
  /\ (0 <= ParsingConfidence.interests (ParsedPreferences.confidence (parse text st)) <= 1)%Q
  /\ (0 <= ParsingConfidence.accommodationType
             (ParsedPreferences.confidence (parse text st)) <= 1)%Q
  /\ (0 <= ParsingConfidence.pace (ParsedPreferences.confidence (parse text st)) <= 1)%Q
  /\ ParsingConfidence.overall (ParsedPreferences.confidence (parse text st))
     = mean5 (ParsedPreferences.confidence (parse text st))
  /\ (0 <= ParsingConfidence.overall (ParsedPreferences.confidence (parse text st)) <= 1)%Q.
Proof.
  rewrite parse_confidence.
  destruct (calculateConfidence_bounds text
              (Extracted.Make (extractDestination (toLowerCase text))
                 (fst (extractDuration (toLowerCase text) st))
                 (extractInterests (toLowerCase text))
                 (extractAccommodationType (toLowerCase text))
                 (extractPace (toLowerCase text)))
              (snd (extractDuration (toLowerCase text) st)))
    as (Hd & Hu & Hi & Ha & Hp & Ho).
  repeat (split; [assumption|]).
  rewrite Ho. now apply mean5_bounds.
Qed.

(** ** Clarification questions *)

Section Questions.

Lemma lt_Qlt_le_dec (x y : Q) : lt x y = if Qlt_le_dec x y then true else false.
Proof.
  unfold lt. destruct (Qlt_le_dec x y) as [H | H].
  - destruct (Qle_bool y x) eqn:E; [|reflexivity].
    apply Qle_bool_imp_le in E. exfalso. apply (Qlt_not_le _ _ H E).
  - apply Qle_bool_iff in H. now rewrite H.
Qed.

Lemma pushedQuestions_fields (parsed : ParsedPreferences.t) :
  pushedQuestions parsed
  = map (fun f =>
           match f with
           | Fdestination => destinationQuestion
           | Fduration => durationQuestion
           | Finterests => interestsQuestion
           | FaccommodationType => accommodationQuestion
           | _ => paceQuestion
           end)
        (filter (belowThreshold parsed) fieldCheckOrder).
Proof.
  unfold pushedQuestions, belowThreshold, fieldCheckOrder.
  rewrite !lt_Qlt_le_dec. cbn [filter fieldConfidence].
  destruct (Qlt_le_dec (ParsingConfidence.destination _) _);
    destruct (Qlt_le_dec (ParsingConfidence.duration _) _);
    destruct (Qlt_le_dec (ParsingConfidence.interests _) _);
    destruct (Qlt_le_dec (ParsingConfidence.accommodationType _) _);
    destruct (Qlt_le_dec (ParsingConfidence.pace _) _); reflexivity.
Qed.

(** A stable sort leaves a list that is already in order as it is. *)
Lemma insertSorted_head {A} (cmp : A -> A -> Z) (x : A) (l : list A) :
  Forall (fun y => (cmp x y <= 0)%Z) l -> insertSorted cmp x l = x :: l.
Proof.
  intros H. destruct l as [|y l]; [reflexivity|]. simpl.
  inversion H; subst. destruct (0 <? cmp x y)%Z eqn:E; [|reflexivity].
  apply Z.ltb_lt in E. lia.
Qed.

Lemma sort_sorted_id {A} (cmp : A -> A -> Z) (l : list A) :
  StronglySorted (fun x y => (cmp x y <= 0)%Z) l -> sort cmp l = l.
Proof.
  induction 1 as [|x l Hs IH Hx]; [reflexivity|].
  unfold sort in *. simpl. rewrite IH. now apply insertSorted_head.
Qed.

End Questions.

(** C7: for every record, [generateClarificationQuestions] asks exactly
    one question about each field whose confidence is strictly below 0.6
    and none about a field whose confidence is at least 0.6; each question
    carries its field's fixed priority; the result is in ascending
    priority rank (high, then medium, then low) and its fields come in
    the field-check order destination, duration, interests,
    accommodationType, pace, so the order inside a tier is that order. *)
Theorem generateClarificationQuestions_spec (parsed : ParsedPreferences.t) :
  Forall (fun f =>
            questionsFor f (generateClarificationQuestions parsed)
            = if Qlt_le_dec (fieldConfidence f (ParsedPreferences.confidence parsed)) 0.6
              then 1 else 0)
         fieldCheckOrder
  /\ questionsFor Fconfidence (generateClarificationQuestions parsed) = 0
  /\ map ClarificationQuestion.field (generateClarificationQuestions parsed)
     = filter (belowThreshold parsed) fieldCheckOrder
  /\ Forall (fun q => ClarificationQuestion.priority q
                      = fieldPriority (ClarificationQuestion.field q))
            (generateClarificationQuestions parsed)
  /\ StronglySorted priorityLe (generateClarificationQuestions parsed)
  /\ generateClarificationQuestions parsed = pushedQuestions parsed.
Proof.
  assert (Hid : generateClarificationQuestions parsed = pushedQuestions parsed).
  { unfold generateClarificationQuestions. apply sort_sorted_id.
    rewrite pushedQuestions_fields. unfold fieldCheckOrder. cbn [filter].
    destruct (belowThreshold parsed Fdestination);
      destruct (belowThreshold parsed Fduration);
      destruct (belowThreshold parsed Finterests);
      destruct (belowThreshold parsed FaccommodationType);
      destruct (belowThreshold parsed Fpace);
      cbn [map]; repeat constructor; unfold byPriority; simpl; lia. }
  rewrite Hid, pushedQuestions_fields.
  unfold fieldCheckOrder, belowThreshold, threshold.
  apply conj; [repeat (apply Forall_cons); try apply Forall_nil|];
    cbn [filter fieldConfidence];
    destruct (Qlt_le_dec (ParsingConfidence.destination _) _);
    destruct (Qlt_le_dec (ParsingConfidence.duration _) _);
    destruct (Qlt_le_dec (ParsingConfidence.interests _) _);
    destruct (Qlt_le_dec (ParsingConfidence.accommodationType _) _);
    destruct (Qlt_le_dec (ParsingConfidence.pace _) _);
    cbn [map filter];
    try reflexivity;
    (repeat split; try reflexivity; repeat constructor;
     unfold priorityLe; simpl; lia).
Qed.

(** ** Destination confidence *)

(** The destination score as [calculateConfidence] computes it. *)
Lemma destination_confidence_code (text : string) (st : Store) :
  ParsingConfidence.destination (ParsedPreferences.confidence (parse text st))
  = (if existsb (includes (toLowerCase text)) destinations then 0.9
     else if fst (RegExp.test travelVerbPhrase 0 (toLowerCase text)) then 0.7
     else if negb (String.eqb (ParsedPreferences.destination (parse text st)) "California")
          then 0.6
          else 0.3)%Q.
Proof.
  rewrite parse_confidence, parse_destination.
  unfold calculateConfidence.
  destruct (confidenceLoop _ _ _) as [hit st']. reflexivity.
Qed.

(** C5, corrected: the destination confidence is 0.9 when a gazetteer
    entry occurs in the lower-cased text; otherwise 0.3 when no
    destination was extracted (the destination is the default
    "California"); otherwise 0.7 when the lower-cased text holds a
    travel-verb phrase (one of to, visit, explore, see, trip to, travel
    to, drive to, go to, then white space, then a letter, white space or
    comma), and 0.6 when it holds none, which is how a destination
    captured by the around/through/across or the in/from pattern is
    scored.  This holds of every text except those with a travel-verb
    phrase from which no destination was extracted. *)
Theorem destination_confidence_cascade (text : string) (st : Store) :
  unfilteredVerbPhrase text = false ->
  ParsingConfidence.destination (ParsedPreferences.confidence (parse text st))
  = (if existsb (includes (toLowerCase text)) destinations then 0.9
     else if String.eqb (ParsedPreferences.destination (parse text st)) "California"
          then 0.3
          else if fst (RegExp.test travelVerbPhrase 0 (toLowerCase text)) then 0.7
               else 0.6)%Q.
Proof.
  intros H. rewrite destination_confidence_code.
  unfold unfilteredVerbPhrase in H. rewrite <- parse_destination with (st := st) in H.
  destruct (existsb _ destinations); [reflexivity|].
  destruct (fst (RegExp.test _ _ _));
    destruct (String.eqb _ "California"); try reflexivity.
  discriminate H.
Qed.

Lemma destination_confidence_cascade_witness :
  unfilteredVerbPhrase "Let us visit mexico" = false
  /\ ParsingConfidence.destination
       (ParsedPreferences.confidence (parse "Let us visit mexico" freshStore))
     = (if existsb (includes (toLowerCase "Let us visit mexico")) destinations then 0.9
        else if String.eqb (ParsedPreferences.destination
                              (parse "Let us visit mexico" freshStore)) "California"
             then 0.3
             else if fst (RegExp.test travelVerbPhrase 0 (toLowerCase "Let us visit mexico"))
                  then 0.7
                  else 0.6)%Q.
Proof.
  split; [vm_compute; reflexivity|].
  apply (destination_confidence_cascade "Let us visit mexico" freshStore).
  vm_compute. reflexivity.
Defined.

(** C5 as stated fails: in "around mexico" no gazetteer entry occurs and
    the destination is extracted by the around/through/across pattern,
    yet the confidence is 0.6, not 0.7. *)
Lemma destination_confidence_counterexample :
  existsb (includes (toLowerCase "around mexico")) destinations = false
  /\ patternDestination (toLowerCase "around mexico") destinationPatterns = Some "Mexico"
  /\ ParsedPreferences.destination (parse "around mexico" freshStore) = "Mexico"
  /\ ParsingConfidence.destination
       (ParsedPreferences.confidence (parse "around mexico" freshStore)) = 0.6%Q
  /\ ~ (0.6 == 0.7)%Q.
Proof.
  repeat split; try (vm_compute; reflexivity); intros H; vm_compute in H; discriminate.
Qed.

(** The texts that C5 leaves out: in "go to the" the capture of the
    travel-verb pattern is a stop word, so no destination is extracted
    and the destination is the default, yet [calculateConfidence] finds
    the phrase and scores 0.7. *)
Lemma verb_phrase_without_destination :
  unfilteredVerbPhrase "go to the" = true
  /\ patternDestination (toLowerCase "go to the") destinationPatterns = None
  /\ ParsedPreferences.destination (parse "go to the" freshStore) = "California"
  /\ ParsingConfidence.destination
       (ParsedPreferences.confidence (parse "go to the" freshStore)) = 0.7%Q.
Proof. repeat split; vm_compute; reflexivity. Qed.

(** ** Interests confidence *)

Section InterestsConfidence.

Lemma inject_nat_le (a b : nat) :
  a <= b -> (inject_Z (Z.of_nat a) <= inject_Z (Z.of_nat b))%Q.
Proof. intros H. rewrite <- Zle_Qle. lia. Qed.

(** The cap at five raw terms is invisible in the score: four terms
    already reach the ceiling 0.9. *)
Lemma interestsConfidence_cap (m : nat) :
  (Qmin 0.9 (0.3 + inject_Z (Z.of_nat (Nat.min 5 m)) * 0.15)
   == Qmin 0.9 (0.3 + inject_Z (Z.of_nat m) * 0.15))%Q.
Proof.
  destruct (Nat.le_gt_cases m 5) as [H | H].
  - rewrite Nat.min_r by assumption. reflexivity.
  - rewrite Nat.min_l by lia.
    pose proof (inject_nat_le 5 m ltac:(lia)) as Hm.
    change (inject_Z (Z.of_nat 5)) with 5%Q in *.
    rewrite !Q.min_l by lra. reflexivity.
Qed.

Lemma extractInterests_rawCount (prompt : string) :
  length (extractInterests prompt) = Nat.min 5 (rawCount prompt).
Proof.
  unfold extractInterests, rawCount.
  destruct (foundInterests prompt) as [|x l]; [reflexivity|].
  unfold slice0. apply length_firstn.
Qed.

End InterestsConfidence.

(** The interests score as [calculateConfidence] computes it:
    min(0.9, 0.3 + 0.15 n) where n is the length of the raw interest list
    that [extractInterests] returns; equivalently n is the number of
    distinct raw terms found (vocabulary hits and derived tags), or 3 when
    none was found, the default triple being counted like any other list. *)
Lemma interests_confidence_formula (text : string) (st : Store) :
  ParsingConfidence.interests (ParsedPreferences.confidence (parse text st))
  = (Qmin 0.9 (0.3 + inject_Z (Z.of_nat (length (extractInterests (toLowerCase text))))
                     * 0.15))%Q
  /\ (ParsingConfidence.interests (ParsedPreferences.confidence (parse text st))
      == Qmin 0.9 (0.3 + inject_Z (Z.of_nat (rawCount (toLowerCase text))) * 0.15))%Q.
Proof.
  assert (H : ParsingConfidence.interests (ParsedPreferences.confidence (parse text st))
              = (Qmin 0.9 (0.3 + inject_Z (Z.of_nat
                                   (length (extractInterests (toLowerCase text)))) * 0.15))%Q).
  { rewrite parse_confidence. unfold calculateConfidence.
    destruct (confidenceLoop _ _ _) as [hit st']. reflexivity. }
  split; [exact H|].
  rewrite H, extractInterests_rawCount. apply interestsConfidence_cap.
Qed.

(** C6 fails on the code: a text in which no interest term is found
    (the empty text, for one) gets the default triple, and
    [calculateConfidence] counts the three defaults as if they had been
    found: the interests confidence is 0.75, not the 0.3 of a text that
    matched nothing, and it is higher than the 0.45 and 0.6 of a text in
    which one or two terms were found. *)
Theorem no_interest_found_scores_three (text : string) (st : Store) :
  foundInterests (toLowerCase text) = [] ->
  extractInterests (toLowerCase text) = ["scenic drives"; "nature"; "photography"]
  /\ (ParsingConfidence.interests (ParsedPreferences.confidence (parse text st)) == 0.75)%Q
  /\ ~ (ParsingConfidence.interests (ParsedPreferences.confidence (parse text st)) == 0.3)%Q.
Proof.
  intros H.
  assert (E : extractInterests (toLowerCase text)
              = ["scenic drives"; "nature"; "photography"]).
  { unfold extractInterests. now rewrite H. }
  destruct (interests_confidence_formula text st) as [F _].
  rewrite F, E. repeat split.
  intros K. vm_compute in K. discriminate K.
Qed.

Lemma no_interest_found_scores_three_witness :
  foundInterests (toLowerCase "") = []
  /\ extractInterests (toLowerCase "") = ["scenic drives"; "nature"; "photography"]
  /\ (ParsingConfidence.interests (ParsedPreferences.confidence (parse "" freshStore))
      == 0.75)%Q
  /\ ~ (ParsingConfidence.interests (ParsedPreferences.confidence (parse "" freshStore))
        == 0.3)%Q.
Proof.
  split; [reflexivity|].
  apply (no_interest_found_scores_three "" freshStore). reflexivity.
Defined.

(** ** The state of the duration patterns *)

(** C1 fails on the code: [extractDuration] returns from inside its loop
    without resetting the [lastIndex] that [exec] has just set, and
    [calculateConfidence] leaves the loop in the same way after a
    successful [test].  From a freshly loaded module, the first parse of
    "2 days and 3 days" finds 2 days and leaves the first pattern with
    [lastIndex] 17; the second parse of the same text starts that pattern
    at 17, finds nothing and answers the default 5; the third finds 3
    days, with confidence 0.4. *)
Theorem parse_twice_differs :
  ParsedPreferences.duration (parse "2 days and 3 days" freshStore) = Int 2
  /\ hd 0 (storeAfter "2 days and 3 days" freshStore) = 17
  /\ ParsedPreferences.duration
       (parse "2 days and 3 days" (storeAfter "2 days and 3 days" freshStore)) = Int 5
  /\ parse "2 days and 3 days" freshStore
     <> parse "2 days and 3 days" (storeAfter "2 days and 3 days" freshStore)
  /\ ParsedPreferences.duration
       (parse "2 days and 3 days"
          (storeAfter "2 days and 3 days"
             (storeAfter "2 days and 3 days" freshStore))) = Int 3
  /\ ParsingConfidence.duration
       (ParsedPreferences.confidence
          (parse "2 days and 3 days"
             (storeAfter "2 days and 3 days"
                (storeAfter "2 days and 3 days" freshStore)))) = 0.4%Q.
Proof.
  repeat split; try (vm_compute; reflexivity).
  intros H. apply (f_equal ParsedPreferences.duration) in H.
  vm_compute in H. discriminate.
Qed.

(** C2 on the code, from a freshly loaded module: the destination is
    "California" with confidence 0.9 and the duration is 7, found by the
    road-trip idiom (no digit pattern matches "7-day"); but the duration
    confidence is 0.4, not 0.9: [test] resumes the road-trip pattern at
    the [lastIndex] 24 that [extractDuration] left, finds no second
    occurrence and reports no match. *)
Theorem california_scenario :
  ParsedPreferences.destination
    (parse "I want a 7-day road trip through California visiting national parks and wineries"
       freshStore) = "California"
  /\ ParsingConfidence.destination
       (ParsedPreferences.confidence
          (parse "I want a 7-day road trip through California visiting national parks and wineries"
             freshStore)) = 0.9%Q
  /\ ParsedPreferences.duration
       (parse "I want a 7-day road trip through California visiting national parks and wineries"
          freshStore) = Int 7
  /\ snd (extractDuration
            "i want a 7-day road trip through california visiting national parks and wineries"
            freshStore)
     = [0; 0; 0; 0; 0; 0; 0; 0; 0; 0; 0; 0; 0; 0; 0; 0; 0; 0; 0; 24]
  /\ ParsingConfidence.duration
       (ParsedPreferences.confidence
          (parse "I want a 7-day road trip through California visiting national parks and wineries"
             freshStore)) = 0.4%Q
  /\ ~ (0.4 == 0.9)%Q.
Proof.
  repeat split; try (vm_compute; reflexivity).
  intros H. vm_compute in H. discriminate.
Qed.

Section StaleStore.

Lemma exec_past_end (re : RegExp.t) (li : nat) (s : string) :
  RegExp.global re = true -> String.length s < li -> RegExp.exec re li s = (None, 0).
Proof.
  intros Hg Hl. unfold RegExp.exec. rewrite Hg.
  apply Nat.ltb_lt in Hl. now rewrite Hl.
Qed.

Lemma neverMatches_spec (s : string) (p : DurationPattern) :
  RegExp.global (pattern p) = true -> neverMatches s p = true ->
  forall li, RegExp.exec (pattern p) li s = (None, 0).
Proof.
  intros Hg Hn li. destruct (le_lt_dec li (String.length s)) as [Hl | Hl].
  - unfold neverMatches in Hn. rewrite forallb_forall in Hn.
    specialize (Hn li). rewrite in_seq in Hn.
    destruct (RegExp.exec (pattern p) li s) as [[m|] [|n]];
      try (discriminate Hn; lia); reflexivity || (exfalso; assert (H : false = true) by (apply Hn; lia); discriminate).
  - now apply exec_past_end.
Qed.

Lemma skipn_S_tl {A} (n : nat) (l : list A) : skipn (S n) l = skipn n (tl l).
Proof. destruct l; [destruct n; reflexivity | reflexivity]. Qed.

(** Patterns that find nothing are passed over and reset. *)
Lemma durationLoop_skip (s : string) (ps1 ps2 : list DurationPattern) (st : Store) :
  Forall (fun p => forall li, RegExp.exec (pattern p) li s = (None, 0)) ps1 ->
  durationLoop s (ps1 ++ ps2) st
  = (fst (durationLoop s ps2 (skipn (length ps1) st)),
     repeat 0 (length ps1) ++ snd (durationLoop s ps2 (skipn (length ps1) st))).
Proof.
  intros H. revert st. induction H as [|p ps1 Hp Hps IH]; intros st.
  - cbn [app length repeat skipn]. apply surjective_pairing.
  - cbn [app durationLoop length repeat]. rewrite Hp, IH, skipn_S_tl. reflexivity.
Qed.

Lemma confidenceLoop_skip (s : string) (ps1 ps2 : list DurationPattern) (st : Store) :
  Forall (fun p => forall li, RegExp.exec (pattern p) li s = (None, 0)) ps1 ->
  confidenceLoop s (ps1 ++ ps2) st
  = (fst (confidenceLoop s ps2 (skipn (length ps1) st)),
     repeat 0 (length ps1) ++ snd (confidenceLoop s ps2 (skipn (length ps1) st))).
Proof.
  intros H. revert st. induction H as [|p ps1 Hp Hps IH]; intros st.
  - cbn [app length repeat skipn]. apply surjective_pairing.
  - cbn [app confidenceLoop length repeat]. unfold RegExp.test.
    rewrite Hp, IH, skipn_S_tl. reflexivity.
Qed.

Lemma skipn_repeat_app {A} (n : nat) (x : A) (l : list A) :
  skipn n (repeat x n ++ l) = l.
Proof. induction n; simpl; auto. Qed.

Lemma california_other_patterns :
  Forall (fun p => forall li, RegExp.exec (pattern p) li californiaPrompt = (None, 0))
         (firstn 19 durationPatterns).
Proof.
  assert (Hg : Forall (fun p => RegExp.global (pattern p) = true) (firstn 19 durationPatterns))
    by (repeat constructor).
  assert (Hn : forallb (neverMatches californiaPrompt) (firstn 19 durationPatterns) = true)
    by (vm_compute; reflexivity).
  rewrite forallb_forall in Hn. rewrite Forall_forall in *.
  intros p Hp. apply neverMatches_spec; auto.
Qed.


Lemma forallb_seq (f : nat -> bool) (a n i : nat) :
  forallb f (seq a n) = true -> a <= i < a + n -> f i = true.
Proof.
  intros H Hi. rewrite forallb_forall in H. apply H, in_seq. exact Hi.
Qed.

Lemma roadTrip_found (li : nat) :
  li <= 15 ->
  exists m, RegExp.exec (pattern roadTrip) li californiaPrompt = (Some m, 24).
Proof.
  intros H.
  assert (Hc : forallb (fun i => match RegExp.exec (pattern roadTrip) i californiaPrompt with
                                 | (Some _, 24) => true
                                 | _ => false
                                 end) (seq 0 16) = true) by (vm_compute; reflexivity).
  apply forallb_seq with (i := li) in Hc; [|lia].
  destruct (RegExp.exec (pattern roadTrip) li californiaPrompt) as [[m|] n];
    [|discriminate].
  exists m. f_equal.
  do 24 (destruct n as [|n]; [discriminate|]). destruct n; [reflexivity | discriminate].
Qed.

Lemma roadTrip_missed (li : nat) :
  15 < li -> RegExp.exec (pattern roadTrip) li californiaPrompt = (None, 0).
Proof.
  intros H. destruct (le_lt_dec li 80) as [Hl | Hl].
  - assert (Hc : forallb (fun i => match RegExp.exec (pattern roadTrip) i californiaPrompt with
                                   | (None, 0) => true
                                   | _ => false
                                   end) (seq 16 65) = true) by (vm_compute; reflexivity).
    apply forallb_seq with (i := li) in Hc; [|lia].
    destruct (RegExp.exec (pattern roadTrip) li californiaPrompt) as [[m|] [|n]];
      try discriminate; reflexivity.
  - apply exec_past_end; [reflexivity | exact Hl].
Qed.

Lemma calculateConfidence_duration (prompt : string) (e : Extracted.t) (st : Store) :
  ParsingConfidence.duration (fst (calculateConfidence prompt e st))
  = if fst (confidenceLoop (toLowerCase prompt) durationPatterns st) then 0.9%Q else 0.4%Q.
Proof.
  unfold calculateConfidence. destruct (confidenceLoop _ _ st) as [hit st']. reflexivity.
Qed.

End StaleStore.

(** C2 in every state of the duration patterns: the parse of the
    scenario text has either duration 7 with confidence 0.4 (the
    road-trip pattern starts at or before the phrase) or the default
    duration 5 with confidence 0.9 (it starts after the phrase, finds
    nothing in [extractDuration], is reset, and is found by [test]);
    never duration 7 with confidence 0.9. *)
Theorem any_store_california (st : Store) :
  (ParsedPreferences.duration
     (parse "I want a 7-day road trip through California visiting national parks and wineries"
        st) = Int 7
   /\ ParsingConfidence.duration
        (ParsedPreferences.confidence
           (parse "I want a 7-day road trip through California visiting national parks and wineries"
              st)) = 0.4%Q)
  \/ (ParsedPreferences.duration
        (parse "I want a 7-day road trip through California visiting national parks and wineries"
           st) = Int 5
      /\ ParsingConfidence.duration
           (ParsedPreferences.confidence
              (parse "I want a 7-day road trip through California visiting national parks and wineries"
                 st)) = 0.9%Q).
Proof.
  rewrite parse_duration, parse_confidence, calculateConfidence_duration.
  change (toLowerCase _) with californiaPrompt.
  unfold extractDuration.
  change durationPatterns with (firstn 19 durationPatterns ++ [roadTrip]).
  rewrite durationLoop_skip by apply california_other_patterns.
  change (length (firstn 19 durationPatterns)) with 19.
  set (st' := skipn 19 st).
  cbn [durationLoop fst snd].
  destruct (le_lt_dec (hd 0 st') 15) as [Hli | Hli].
  - left. destruct (roadTrip_found _ Hli) as [m Hm]. rewrite Hm.
    cbn [durationOf roadTrip withValue value fst snd].
    split; [reflexivity|].
    rewrite confidenceLoop_skip by apply california_other_patterns.
    change (length (firstn 19 durationPatterns)) with 19.
    rewrite skipn_repeat_app.
    cbn [confidenceLoop hd fst]. unfold RegExp.test.
    rewrite roadTrip_missed by lia. reflexivity.
  - right. rewrite (roadTrip_missed _ Hli).
    cbn [fst snd].
    split; [vm_compute; reflexivity|].
    rewrite confidenceLoop_skip by apply california_other_patterns.
    change (length (firstn 19 durationPatterns)) with 19.
    rewrite skipn_repeat_app.
    cbn [confidenceLoop hd fst]. unfold RegExp.test.
    destruct (roadTrip_found 0 ltac:(lia)) as [m Hm]. rewrite Hm. reflexivity.
Qed.

(** C4 fails on the code: the pattern for "N days" stands before the two
    range patterns in the table and matches inside every range, so from a
    freshly loaded module a range is never averaged: "2-6 days" gives 6,
    not 4, and "3 to 8 days" gives 8, not 6. *)
Theorem range_is_shadowed :
  ParsedPreferences.duration (parse "2-6 days" freshStore) = Int 6
  /\ ceilAvg (Int 2) (Int 6) = Int 4
  /\ ParsedPreferences.duration (parse "3 to 8 days" freshStore) = Int 8
  /\ ceilAvg (Int 3) (Int 8) = Int 6
  /\ fst (RegExp.exec (pattern (nth 12 durationPatterns (withValue RegExp.Eps 0)))
            0 "2-6 days")
     = Some (RegExp.RMatch 0 8 [(2, "6"); (1, "2")])
  /\ fst (RegExp.exec (pattern (nth 0 durationPatterns (withValue RegExp.Eps 0)))
            0 "2-6 days")
     = Some (RegExp.RMatch 2 8 [(1, "6")]).
Proof.
  repeat split; vm_compute; reflexivity.
Qed.

(** The same holds in every state in which the [lastIndex] of the first
    pattern is 0, whatever the other entries are. *)
Lemma first_pattern_reset_shadows_range (st : Store) :
  hd 0 st = 0 ->
  ParsedPreferences.duration (parse "2-6 days" st) = Int 6.
Proof.
  intros H. rewrite parse_duration.
  change (toLowerCase "2-6 days") with "2-6 days".
  unfold extractDuration.
  change durationPatterns with (DP numberOfDays (Some 1%Z) None false :: tl durationPatterns).
  cbn [durationLoop pattern]. rewrite H.
  change (RegExp.exec numberOfDays 0 "2-6 days")
    with (Some (RegExp.RMatch 2 8 [(1, "6")]), 8).
  reflexivity.
Qed.

(** ** The clarification merge *)

Section Merge.

Lemma orZero_eq (c : Q) : (orZero c == c)%Q.
Proof.
  unfold orZero. destruct (Qeq_bool c 0) eqn:E; [|reflexivity].
  apply Qeq_bool_eq in E. now rewrite E.
Qed.

Lemma mergeAnswer_overall (p : ParsedPreferences.t) (d : number) (f : Field) (a : string) :
  (ParsingConfidence.overall (ParsedPreferences.confidence (mergeAnswer p d f a))
   == mean5 (ParsedPreferences.confidence (mergeAnswer p d f a)))%Q.
Proof.
  unfold mean5, mergeAnswer.
  destruct f;
    cbn [ParsedPreferences.confidence ParsingConfidence.overall
         ParsingConfidence.destination ParsingConfidence.duration
         ParsingConfidence.interests ParsingConfidence.accommodationType
         ParsingConfidence.pace];
    rewrite !orZero_eq; reflexivity.
Qed.

Lemma own_durationMap_truthy (a : string) (n : number) :
  own durationMap a = Some n -> truthy n = true.
Proof.
  unfold durationMap, own.
  repeat (destruct (String.eqb _ a); [intros [= <-]; reflexivity|]).
  discriminate.
Qed.

(** Whatever the lookup in [durationMap] finds is truthy. *)
Lemma durationMap_truthy (a : string) (n : number) :
  lookup Inherited durationMap a = Some n -> truthy n = true.
Proof.
  unfold lookup. destruct (own durationMap a) as [m|] eqn:E.
  - intros [= <-]. exact (own_durationMap_truthy a m E).
  - destruct (arrIncludes objectPrototypeKeys a); [intros [= <-]; reflexivity | discriminate].
Qed.

(** Outside the names of [Object.prototype] a lookup sees own keys only. *)
Lemma lookup_own {A} (inherited : string -> A) (m : list (string * A)) (a : string) :
  arrIncludes objectPrototypeKeys a = false -> lookup inherited m a = own m a.
Proof. intros H. unfold lookup. rewrite H. now destruct (own m a). Qed.

Lemma mergeAnswer_fieldSetTo (p : ParsedPreferences.t) (d : number) (f : Field) (a : string) :
  ownAnswer f a = true -> fieldSetTo f a p d (mergeAnswer p d f a).
Proof.
  intros Ha.
  destruct f; unfold fieldSetTo, mergeAnswer;
    cbn [ParsedPreferences.destination ParsedPreferences.duration
         ParsedPreferences.interests ParsedPreferences.accommodationType
         ParsedPreferences.pace];
    try reflexivity;
    cbn [ownAnswer] in Ha; apply negb_true_iff in Ha; rewrite (lookup_own _ _ a Ha).
  - destruct (own durationMap a) as [n|] eqn:E.
    + unfold orElse at 1. now rewrite (own_durationMap_truthy a n E).
    + reflexivity.
  - f_equal. unfold typeMap, own.
    rewrite (String.eqb_sym a "Camping (nature & adventure)").
    destruct (String.eqb "Hotels (comfort & amenities)" a) eqn:E1.
    + apply String.eqb_eq in E1. subst a. reflexivity.
    + destruct (String.eqb "Camping (nature & adventure)" a); reflexivity.
  - reflexivity.
Qed.

Lemma mergeAnswer_othersKept (p : ParsedPreferences.t) (d : number) (f : Field) (a : string) :
  othersKept f p (mergeAnswer p d f a).
Proof.
  unfold othersKept, fieldCheckOrder, mergeAnswer.
  destruct f;
    cbn [ParsedPreferences.destination ParsedPreferences.duration
         ParsedPreferences.interests ParsedPreferences.accommodationType
         ParsedPreferences.pace ParsedPreferences.confidence];
    repeat split; auto;
    repeat (apply Forall_cons); try apply Forall_nil;
    cbn [fieldConfidence]; (right; reflexivity) || (left; reflexivity).
Qed.

(** For the four overwritten fields the new confidence record does not
    depend on the answer nor on how often the field was answered. *)
Lemma mergeAnswer_confidence_again (p : ParsedPreferences.t) (d d' : number)
      (f : Field) (a b : string) :
  f <> Finterests ->
  ParsedPreferences.confidence (mergeAnswer (mergeAnswer p d f a) d' f b)
  = ParsedPreferences.confidence (mergeAnswer p d f a).
Proof.
  intros Hf. destruct f; try congruence; reflexivity.
Qed.

Lemma handler_parsedData (f : Field) (a : string) (w : State) (p : ParsedPreferences.t)
      (st : Store) :
  parsedData (answered f a (withParsed w p) st)
  = Some (mergeAnswer p (TourPreferences.duration (preferences w)) f a).
Proof. reflexivity. Qed.

Lemma handler_preferences (f : Field) (a : string) (w : State) (p : ParsedPreferences.t)
      (st : Store) :
  preferences (answered f a (withParsed w p) st)
  = updatePreferences (mergeAnswer p (TourPreferences.duration (preferences w)) f a)
      (preferences w).
Proof. reflexivity. Qed.

Lemma answered_withParsed (f : Field) (a : string) (w : State) (p : ParsedPreferences.t)
      (st : Store) :
  answered f a (withParsed w p) st
  = withParsed (answered f a (withParsed w p) st)
      (mergeAnswer p (TourPreferences.duration (preferences w)) f a).
Proof. reflexivity. Qed.

Ltac fields :=
  cbn [ParsedPreferences.destination ParsedPreferences.duration
       ParsedPreferences.interests ParsedPreferences.accommodationType
       ParsedPreferences.pace ParsedPreferences.confidence
       ParsingConfidence.overall ParsingConfidence.destination
       ParsingConfidence.duration ParsingConfidence.interests
       ParsingConfidence.accommodationType ParsingConfidence.pace
       TourPreferences.duration].

(** Once a duration has been merged, [preferences.duration] holds it. *)
Lemma updatePreferences_duration (p : ParsedPreferences.t) (d : number) (a : string)
      (prev : TourPreferences.t) :
  TourPreferences.duration (updatePreferences (mergeAnswer p d Fduration a) prev)
  = ParsedPreferences.duration (mergeAnswer p d Fduration a).
Proof. reflexivity. Qed.

(** The fall-back chain of the duration reaches the value just stored. *)
Lemma mergeAnswer_duration_again (p : ParsedPreferences.t) (d : number) (a : string) :
  mergeAnswer (mergeAnswer p d Fduration a)
    (ParsedPreferences.duration (mergeAnswer p d Fduration a)) Fduration a
  = mergeAnswer p d Fduration a.
Proof.
  destruct p as [dest dur ints acc pc [o cd cu ci ca cp]].
  unfold mergeAnswer. fields. f_equal.
  destruct (lookup Inherited durationMap a) as [n|] eqn:E.
  - unfold orElse. now rewrite !(durationMap_truthy a n E).
  - unfold orElse.
    destruct (truthy (parseInt a)); [reflexivity|].
    destruct (truthy dur) eqn:Ed; [now rewrite Ed|].
    destruct (truthy d) eqn:Ep; now rewrite ?Ep.
Qed.

(** An unmapped pace answer keeps the pace just stored. *)
Lemma mergeAnswer_pace_again (p : ParsedPreferences.t) (d d' : number) (a : string) :
  mergeAnswer (mergeAnswer p d Fpace a) d' Fpace a = mergeAnswer p d Fpace a.
Proof.
  destruct p as [dest dur ints acc pc [o cd cu ci ca cp]].
  unfold mergeAnswer. fields. f_equal.
  destruct (lookup inheritedPace paceMap a); reflexivity.
Qed.

(** What the handler stores for an answer that names a member of
    [Object.prototype], such as "constructor" typed into the free-text
    box of the modal: the inherited member itself, as duration,
    accommodation type or pace, and from there as the duration and the
    accommodation type of the form. *)
Lemma mergeAnswer_inherited (p : ParsedPreferences.t) (d : number) (a : string) :
  arrIncludes objectPrototypeKeys a = true ->
  ParsedPreferences.duration (mergeAnswer p d Fduration a) = Inherited a
  /\ ParsedPreferences.accommodationType (mergeAnswer p d FaccommodationType a)
     = Some (inheritedAccommodation a)
  /\ ParsedPreferences.pace (mergeAnswer p d Fpace a) = Some (inheritedPace a).
Proof.
  intros Ha.
  assert (Hown : forall A (m : list (string * A)),
             forallb (fun e => negb (arrIncludes objectPrototypeKeys (fst e))) m = true ->
             own m a = None).
  { intros A m. induction m as [|[k v] m IH]; [reflexivity|].
    cbn [forallb fst own]. intros H. apply andb_true_iff in H as [Hk Hm].
    destruct (String.eqb k a) eqn:E; [|now apply IH].
    apply String.eqb_eq in E. subst k. rewrite Ha in Hk. discriminate. }
  unfold mergeAnswer;
    cbn [ParsedPreferences.duration ParsedPreferences.accommodationType
         ParsedPreferences.pace];
    unfold lookup; rewrite !Hown, Ha by reflexivity.
  repeat split.
Qed.

End Merge.

(** C3, corrected.  For every parsed record, every field and
    every answer that names no member of [Object.prototype] where the
    field is looked up in a table (duration, accommodationType, pace):
    the handler overwrites the field with the mapped answer
    (destination: the answer itself; duration: the day count of a bucket
    label, else [parseInt] of the answer, else the previous value;
    accommodationType: camping for the camping label or "camping", else
    hotel; pace: the labelled pace, else the previous one), keeps every
    other field and every other per-field confidence, and recomputes
    [overall] as the mean of the five per-field confidences.  For
    destination, duration, accommodationType and pace the field's
    confidence becomes exactly 0.95; answering the same field again gives
    0.95 again, the same confidence record (no accumulation) and the value
    of the later answer, and repeating the same answer changes nothing.
    For interests the answer is appended when absent and the confidence
    becomes min(0.95, previous + 0.25). *)
Theorem merge_answer_reconciliation
        (p : ParsedPreferences.t) (w : State) (st : Store) (f : Field) (a b : string) :
  ownAnswer f a = true ->
  ownAnswer f b = true ->
  exists r1 r2 : ParsedPreferences.t,
    parsedData (answered f a (withParsed w p) st) = Some r1
    /\ parsedData (answered f b (answered f a (withParsed w p) st) st) = Some r2
    /\ fieldSetTo f a p (TourPreferences.duration (preferences w)) r1
    /\ othersKept f p r1
    /\ (ParsingConfidence.overall (ParsedPreferences.confidence r1)
        == mean5 (ParsedPreferences.confidence r1))%Q
    /\ fieldSetTo f b r1
         (TourPreferences.duration (preferences (answered f a (withParsed w p) st))) r2
    /\ othersKept f r1 r2
    /\ (ParsingConfidence.overall (ParsedPreferences.confidence r2)
        == mean5 (ParsedPreferences.confidence r2))%Q
    /\ match f with
       | Finterests =>
           (ParsingConfidence.interests (ParsedPreferences.confidence r1)
            == Qmin 0.95 (ParsingConfidence.interests (ParsedPreferences.confidence p) + 0.25))%Q
           /\ (ParsingConfidence.interests (ParsedPreferences.confidence r2)
               == Qmin 0.95
                    (ParsingConfidence.interests (ParsedPreferences.confidence r1) + 0.25))%Q
       | Fconfidence => True
       | _ =>
           fieldConfidence f (ParsedPreferences.confidence r1) = 0.95%Q
           /\ fieldConfidence f (ParsedPreferences.confidence r2) = 0.95%Q
           /\ ParsedPreferences.confidence r2 = ParsedPreferences.confidence r1
           /\ parsedData (answered f a (answered f a (withParsed w p) st) st) = Some r1
       end.
Proof.
  intros Ha Hb.
  set (d := TourPreferences.duration (preferences w)).
  set (r1 := mergeAnswer p d f a).
  set (d' := TourPreferences.duration (preferences (answered f a (withParsed w p) st))).
  exists r1, (mergeAnswer r1 d' f b).
  assert (H1 : parsedData (answered f a (withParsed w p) st) = Some r1) by reflexivity.
  assert (H2 : forall c, parsedData (answered f c (answered f a (withParsed w p) st) st)
                         = Some (mergeAnswer r1 d' f c)).
  { intros c. rewrite (answered_withParsed f a w p st). reflexivity. }
  split; [exact H1|]. split; [apply H2|].
  split; [now apply mergeAnswer_fieldSetTo|]. split; [apply mergeAnswer_othersKept|].
  split; [apply mergeAnswer_overall|].
  split; [now apply mergeAnswer_fieldSetTo|]. split; [apply mergeAnswer_othersKept|].
  split; [apply mergeAnswer_overall|].
  destruct f; try exact I.
  - (* destination *)
    repeat (split; [reflexivity|]). rewrite H2. reflexivity.
  - (* duration *)
    repeat (split; [reflexivity|]). rewrite H2. f_equal.
    subst r1 d'. rewrite handler_preferences, updatePreferences_duration.
    apply mergeAnswer_duration_again.
  - (* interests *)
    split.
    + subst r1. unfold mergeAnswer.
      cbn [ParsedPreferences.confidence ParsingConfidence.interests].
      now rewrite orZero_eq.
    + unfold mergeAnswer at 1.
      cbn [ParsedPreferences.confidence ParsingConfidence.interests].
      now rewrite orZero_eq.
  - (* accommodationType *)
    repeat (split; [reflexivity|]). rewrite H2. reflexivity.
  - (* pace *)
    repeat (split; [reflexivity|]). rewrite H2. f_equal.
    apply mergeAnswer_pace_again.
Qed.

Lemma merge_answer_reconciliation_witness :
  ownAnswer Fduration "4-6 days (long trip)" = true
  /\ ownAnswer Fduration "12" = true
  /\ exists r1 r2 : ParsedPreferences.t,
       parsedData (answered Fduration "4-6 days (long trip)"
                     (withParsed initialState (parse "hiking" freshStore)) freshStore)
       = Some r1
       /\ parsedData (answered Fduration "12"
                        (answered Fduration "4-6 days (long trip)"
                           (withParsed initialState (parse "hiking" freshStore)) freshStore)
                        freshStore)
          = Some r2
       /\ ParsedPreferences.duration r1 = Int 5
       /\ ParsedPreferences.duration r2 = Int 12
       /\ ParsingConfidence.duration (ParsedPreferences.confidence r1) = 0.95%Q
       /\ ParsedPreferences.confidence r2 = ParsedPreferences.confidence r1.
Proof.
  split; [reflexivity|]. split; [reflexivity|].
  destruct (merge_answer_reconciliation (parse "hiking" freshStore) initialState freshStore
              Fduration "4-6 days (long trip)" "12" eq_refl eq_refl)
    as (r1 & r2 & H1 & H2 & S1 & _ & _ & S2 & _ & _ & C1 & _ & C3 & _).
  exists r1, r2.
  split; [exact H1|]. split; [exact H2|]. split; [exact S1|]. split; [exact S2|].
  split; [exact C1 | exact C3].
Defined.

(** C3 as stated fails for the interests field: on the parse of "hiking"
    (interests ["Mountains"], confidence 0.45) the answer "Food & Dining"
    is appended, not written over the list, and the confidence becomes
    0.7, not 0.95; a second answer raises it again, to 0.95. *)
Lemma merge_interests_counterexample :
  exists r1 r2 : ParsedPreferences.t,
    parsedData (answered Finterests "Food & Dining"
                  (withParsed initialState (parse "hiking" freshStore)) freshStore)
    = Some r1
    /\ parsedData (answered Finterests "Photography"
                     (answered Finterests "Food & Dining"
                        (withParsed initialState (parse "hiking" freshStore)) freshStore)
                     freshStore)
       = Some r2
    /\ ParsedPreferences.interests (parse "hiking" freshStore) = ["Mountains"]
    /\ (ParsingConfidence.interests (ParsedPreferences.confidence (parse "hiking" freshStore))
        == 0.45)%Q
    /\ ParsedPreferences.interests r1 = ["Mountains"; "Food & Dining"]
    /\ (ParsingConfidence.interests (ParsedPreferences.confidence r1) == 0.7)%Q
    /\ ~ (ParsingConfidence.interests (ParsedPreferences.confidence r1) == 0.95)%Q
    /\ ParsedPreferences.interests r2 = ["Mountains"; "Food & Dining"; "Photography"]
    /\ (ParsingConfidence.interests (ParsedPreferences.confidence r2) == 0.95)%Q.
Proof.
  eexists. eexists.
  split; [reflexivity|]. split; [reflexivity|].
  repeat split; try (vm_compute; reflexivity).
  intros H. vm_compute in H. discriminate.
Qed.

(* ================================================================= *)
(** * Further properties of the code *)

(** ** The matcher *)

Section MatcherSoundness.

Variable icase : bool.

Lemma run_sound (r : RegExp.regex) :
  forall st k res,
    RegExp.run icase r st k = Some res ->
    exists w st', Matches icase r st w st' /\ k st' = Some res.
Proof.
  induction r as [ | a | cs | r1 IH1 r2 IH2 | r1 IH1 r2 IH2 | g r IH | i r IH | ];
    intros st k res H; [cbn [RegExp.run] in H .. | | cbn [RegExp.run] in H | cbn [RegExp.run] in H].
  - exists "", st. split; [constructor | exact H].
  - unfold RegExp.step1 in H. destruct (RegExp.rest st) as [|c s'] eqn:Er; [discriminate|].
    destruct (RegExp.sameChar icase a c) eqn:Ec; [|discriminate].
    eexists; eexists; split; [eapply MLit; eauto | exact H].
  - unfold RegExp.step1 in H. destruct (RegExp.rest st) as [|c s'] eqn:Er; [discriminate|].
    destruct (existsb _ cs) eqn:Ec; [|discriminate].
    eexists; eexists; split; [eapply MClass; eauto | exact H].
  - apply IH1 in H. destruct H as (w1 & st1 & M1 & H).
    apply IH2 in H. destruct H as (w2 & st2 & M2 & H).
    exists (w1 ++ w2)%string, st2. split; [econstructor; eauto | exact H].
  - destruct (RegExp.run icase r1 st k) eqn:E1.
    + injection H as <-. apply IH1 in E1. destruct E1 as (w & st' & M & Hk).
      exists w, st'. split; [now apply MAltL | exact Hk].
    + apply IH2 in H. destruct H as (w & st' & M & Hk).
      exists w, st'. split; [now apply MAltR | exact Hk].
  - change (RegExp.run icase (RegExp.Star g r) st k)
      with (starLoop g (RegExp.run icase r) k (S (String.length (RegExp.rest st))) st) in H.
    revert res H. generalize (S (String.length (RegExp.rest st))). intros n. revert st.
    induction n as [|n IHn]; intros st res H; cbn [starLoop] in H.
    + exists "", st. split; [constructor | exact H].
    + fold (starLoop g (RegExp.run icase r) k) in H.
      match type of H with
      | (if g then match ?m with _ => _ end else _) = _ => destruct m as [x|] eqn:E
      end.
      * assert (Hx : exists w st', Matches icase (RegExp.Star g r) st w st' /\ k st' = Some x).
        { apply IH in E. destruct E as (w1 & st1 & M1 & Hk).
          destruct (RegExp.pos st1 =? RegExp.pos st) eqn:Ep; [discriminate|].
          apply Nat.eqb_neq in Ep.
          apply IHn in Hk. destruct Hk as (w2 & st2 & M2 & Hk).
          exists (w1 ++ w2)%string, st2. split; [eapply MStarCons; eauto | exact Hk]. }
        destruct g.
        -- injection H as <-. exact Hx.
        -- destruct (k st) eqn:Ek.
           ++ injection H as <-. exists "", st. split; [constructor | exact Ek].
           ++ injection H as <-. exact Hx.
      * destruct g.
        -- exists "", st. split; [constructor | exact H].
        -- destruct (k st) eqn:Ek; [|discriminate].
           exists "", st. split; [constructor | congruence].
  - apply IH in H. destruct H as (w & st' & M & Hk).
    eexists; eexists; split; [eapply MGroup; eauto | exact Hk].
  - destruct (RegExp.rest st) eqn:Er; [|discriminate].
    exists "", st. split; [now constructor | exact H].
Qed.

End MatcherSoundness.

Section MatcherFacts.

Variable icase : bool.

Lemma take_app_length (w x : string) : take (String.length w) (w ++ x) = w.
Proof. induction w as [|c w IH]; simpl; [now destruct x | now rewrite IH]. Qed.

Lemma string_app_assoc (a b c : string) : ((a ++ b) ++ c = a ++ (b ++ c))%string.
Proof. induction a as [|x a IH]; simpl; [reflexivity | now rewrite IH]. Qed.

Lemma string_app_length (a b : string) :
  String.length (a ++ b) = String.length a + String.length b.
Proof. induction a as [|x a IH]; simpl; [reflexivity | now rewrite IH]. Qed.

(** A match consumes a prefix of the input and advances the position by
    its length. *)
Lemma Matches_consumes (r : RegExp.regex) (st st' : RegExp.mstate) (w : string) :
  Matches icase r st w st' ->
  RegExp.rest st = (w ++ RegExp.rest st')%string
  /\ RegExp.pos st' = RegExp.pos st + String.length w.
Proof.
  induction 1; cbn [RegExp.rest RegExp.pos String.length append] in *;
    repeat match goal with H : _ /\ _ |- _ => destruct H end;
    rewrite ?string_app_assoc, ?string_app_length;
    (split; [first [assumption | reflexivity | congruence] | lia]).
Qed.

(** A match only adds captures; each new capture is a text matched by
    the body of its group, and every sure group has one. *)
Lemma Matches_caps (r : RegExp.regex) (st st' : RegExp.mstate) (w : string) :
  Matches icase r st w st' ->
  exists extra,
    RegExp.caps st' = extra ++ RegExp.caps st
    /\ Forall (fun c => exists body st1 st2,
                   In (fst c, body) (groupBodies r)
                   /\ Matches icase body st1 (snd c) st2) extra
    /\ incl (sureGroups r) (map fst extra).
Proof.
  induction 1; cbn [RegExp.caps groupBodies sureGroups] in *;
    try (exists []; repeat split; [constructor | apply incl_nil_l]).
  - destruct IHMatches1 as (e1 & C1 & F1 & S1), IHMatches2 as (e2 & C2 & F2 & S2).
    exists (e2 ++ e1). rewrite C2, C1, app_assoc. repeat split.
    + apply Forall_app. split; [eapply Forall_impl; [|exact F2] | eapply Forall_impl; [|exact F1]];
        intros c (body & s1 & s2 & Hin & Hm); exists body, s1, s2;
        (split; [apply in_or_app; auto | exact Hm]).
    + rewrite map_app. intros i Hi. apply in_app_or in Hi. apply in_or_app.
      destruct Hi; [right; auto | left; auto].
  - destruct IHMatches as (e & C & F & S1). exists e. repeat split; [exact C | | apply incl_nil_l].
    eapply Forall_impl; [|exact F]. intros c (body & s1 & s2 & Hin & Hm).
    exists body, s1, s2. split; [apply in_or_app; auto | exact Hm].
  - destruct IHMatches as (e & C & F & S1). exists e. repeat split; [exact C | | apply incl_nil_l].
    eapply Forall_impl; [|exact F]. intros c (body & s1 & s2 & Hin & Hm).
    exists body, s1, s2. split; [apply in_or_app; auto | exact Hm].
  - destruct IHMatches1 as (e1 & C1 & F1 & S1), IHMatches2 as (e2 & C2 & F2 & S2).
    exists (e2 ++ e1). rewrite C2, C1, app_assoc. repeat split; [| apply incl_nil_l].
    apply Forall_app. split; [exact F2 | exact F1].
  - destruct IHMatches as (e & C & F & S1).
    destruct (Matches_consumes _ _ _ _ H) as [Er Ep].
    exists ((i, take (RegExp.pos st' - RegExp.pos st) (RegExp.rest st)) :: e).
    rewrite C. repeat split.
    + constructor.
      * exists r, st, st'. split; [left; reflexivity|]. cbn [snd].
        replace (RegExp.pos st' - RegExp.pos st) with (String.length w) by lia.
        rewrite Er, take_app_length. exact H.
      * eapply Forall_impl; [|exact F]. intros c (body & s1 & s2 & Hin & Hm).
        exists body, s1, s2. split; [right; exact Hin | exact Hm].
    + cbn [map fst]. intros j [<- | Hj]; [left; reflexivity | right; auto].
Qed.

Lemma search_sound (r : RegExp.regex) (s : string) :
  forall p m,
    RegExp.search icase r p s = Some m ->
    exists st0 w st',
      RegExp.caps st0 = [] /\ Matches icase r st0 w st'
      /\ RegExp.groups m = RegExp.caps st'
      /\ RegExp.index m = RegExp.pos st0 /\ RegExp.endIndex m = RegExp.pos st'
      /\ p <= RegExp.pos st0.
Proof.
  induction s as [|c s IH]; intros p m H; cbn [RegExp.search] in H.
  - destruct (RegExp.run icase r _ Some) as [st|] eqn:E; [|discriminate].
    injection H as <-. apply run_sound in E. destruct E as (w & st' & M & [= ->]).
    exists (RegExp.MState p "" []), w, st.
    repeat split; [exact M | cbn; lia].
  - destruct (RegExp.run icase r _ Some) as [st|] eqn:E.
    + injection H as <-. apply run_sound in E. destruct E as (w & st' & M & [= ->]).
      exists (RegExp.MState p (String c s) []), w, st.
      repeat split; [exact M | cbn; lia].
    + apply IH in H. destruct H as (st0 & w & st' & H0 & M & Hg & Hi & He & Hp).
      exists st0, w, st'. repeat split; auto. lia.
Qed.

End MatcherFacts.

Section ExecFacts.

(** What [exec] returns comes from a match of the source; a successful
    [exec] starts at or after [lastIndex] and moves it to the end of the
    match, within the text. *)
Lemma exec_sound (re : RegExp.t) (li : nat) (s : string) (m : RegExp.rmatch) (li' : nat) :
  RegExp.exec re li s = (Some m, li') ->
  exists st0 w st',
    RegExp.caps st0 = []
    /\ Matches (RegExp.ignoreCase re) (RegExp.source re) st0 w st'
    /\ RegExp.groups m = RegExp.caps st'.
Proof.
  unfold RegExp.exec. intros H.
  destruct (String.length s <? _); [discriminate|].
  destruct (RegExp.search _ _ _ _) as [m'|] eqn:E; [|discriminate].
  injection H as <- _. apply search_sound in E.
  destruct E as (st0 & w & st' & H0 & M & Hg & _).
  exists st0, w, st'. auto.
Qed.

End ExecFacts.

(** ** Durations are numbers *)

Section DigitCaptures.

Lemma allChars_app (ok : ascii -> bool) (a b : string) :
  allChars ok (a ++ b) = allChars ok a && allChars ok b.
Proof. induction a as [|c a IH]; simpl; [reflexivity | now rewrite IH, andb_assoc]. Qed.

Lemma digit_class (icase : bool) (c : ascii) :
  existsb (RegExp.inCset icase c) [RegExp.CDigit] = true -> isDigit c = true.
Proof. cbn. now rewrite orb_false_r. Qed.

Lemma Matches_class_inv (icase : bool) (cs : list RegExp.cset)
      (st st' : RegExp.mstate) (w : string) :
  Matches icase (RegExp.Class cs) st w st' ->
  exists c, w = String c "" /\ existsb (RegExp.inCset icase c) cs = true.
Proof. inversion 1; subst; eauto. Qed.

Lemma Matches_seq_inv (icase : bool) (r1 r2 : RegExp.regex)
      (st st' : RegExp.mstate) (w : string) :
  Matches icase (RegExp.Seq r1 r2) st w st' ->
  exists w1 st1 w2,
    w = (w1 ++ w2)%string /\ Matches icase r1 st w1 st1 /\ Matches icase r2 st1 w2 st'.
Proof. inversion 1; subst; eauto 6. Qed.

Lemma star_digit (icase g : bool) (st st' : RegExp.mstate) (w : string) :
  Matches icase (RegExp.Star g RegExp.digit) st w st' -> allChars isDigit w = true.
Proof.
  remember (RegExp.Star g RegExp.digit) as r eqn:Er. intros M.
  induction M; try discriminate Er; [reflexivity|].
  injection Er as -> ->. rewrite allChars_app, IHM2 by reflexivity.
  apply Matches_class_inv in M1. destruct M1 as (c & -> & Hc).
  cbn. now rewrite (digit_class _ _ Hc).
Qed.

Lemma plus_digit (icase : bool) (st st' : RegExp.mstate) (w : string) :
  Matches icase (RegExp.Plus RegExp.digit) st w st' -> digitString w.
Proof.
  unfold RegExp.Plus. intros M.
  apply Matches_seq_inv in M. destruct M as (w1 & st1 & w2 & -> & M1 & M2).
  apply Matches_class_inv in M1. destruct M1 as (c & -> & Hc).
  split; [discriminate|].
  cbn. rewrite (digit_class _ _ Hc). cbn. eapply star_digit; eauto.
Qed.

Lemma isDigit_value (c : ascii) :
  isDigit c = true ->
  exists d, digitValue 10 c = Some d /\ (0 <= d)%Z.
Proof.
  intros H. unfold digitValue. rewrite H. unfold isDigit, between in H.
  apply andb_prop in H. destruct H as [H1 H2].
  apply Nat.leb_le in H1, H2.
  exists (Z.of_nat (code c) - 48)%Z.
  replace (Z.of_nat (code c) - 48 <? 10)%Z with true by (symmetry; apply Z.ltb_lt; lia).
  split; [reflexivity | lia].
Qed.

Lemma digits_of_digitString (s : string) :
  allChars isDigit s = true ->
  forall acc : option Z,
    (acc = None -> s <> "") ->
    (forall a, acc = Some a -> (0 <= a)%Z) ->
    exists v, digits 10 acc s = Some v /\ (0 <= v)%Z.
Proof.
  induction s as [|c s IH]; intros Hs acc Hne Hacc; cbn [digits].
  - destruct acc as [a|]; [exists a; auto | now contradiction Hne].
  - cbn in Hs. apply andb_prop in Hs. destruct Hs as [Hc Hs].
    destruct (isDigit_value c Hc) as (d & -> & Hd).
    apply IH; [exact Hs | discriminate |].
    intros a [= <-]. destruct acc as [a0|]; [specialize (Hacc a0 eq_refl); nia | exact Hd].
Qed.

(** Rounding a non-negative integer gives a non-negative integer or
    plus infinity. *)
Lemma roundToDouble_count (z : Z) : (0 <= z)%Z -> isCount (roundToDouble z).
Proof.
  intros Hz. unfold roundToDouble, isCount.
  destruct (Z.abs z <? 9007199254740992)%Z; [left; eauto|].
  set (e := (Z.log2 (Z.abs z) - 52)%Z).
  set (q := Z.shiftr (Z.abs z) e).
  match goal with
  | |- context [if ?c then (q + 1)%Z else q] => set (q' := if c then (q + 1)%Z else q)
  end.
  assert (Hq : (0 <= q)%Z) by (apply Z.shiftr_nonneg; lia).
  assert (Hq' : (0 <= q')%Z) by (subst q'; destruct (_ || _)%bool; lia).
  destruct (1024 <=? _)%Z.
  - right. f_equal. apply Z.ltb_ge. exact Hz.
  - left. eexists. split; [reflexivity|].
    apply Z.mul_nonneg_nonneg; [|now apply Z.shiftl_nonneg].
    destruct z; cbn; lia.
Qed.

(** Below 2^53 nothing is rounded. *)
Lemma roundToDouble_exact (z : Z) :
  (Z.abs z < 9007199254740992)%Z -> roundToDouble z = Int z.
Proof.
  intros H. unfold roundToDouble. apply Z.ltb_lt in H. now rewrite H.
Qed.

(** On a text that starts with a digit, [parseInt] reads decimal digits:
    there is no white space or sign to skip and the prefix is not [0x]. *)
Lemma parseInt_digit_first (c : ascii) (w : string) :
  isDigit c = true -> allChars isDigit w = true ->
  parseInt (String c w) = match digits 10 None (String c w) with
                          | Some v => roundToDouble v
                          | None => NaN
                          end.
Proof.
  intros Hc Hw.
  assert (Hfin : forall s v, match digits 10 None s with
                             | Some z => roundToDouble (1 * z)
                             | None => NaN
                             end = v ->
                             v = match digits 10 None s with
                                 | Some z => roundToDouble z
                                 | None => NaN
                                 end).
  { intros s v <-. destruct (digits 10 None s) as [z|]; [|reflexivity].
    now rewrite Z.mul_1_l. }
  destruct c as [b0 b1 b2 b3 b4 b5 b6 b7].
  destruct b0, b1, b2, b3, b4, b5, b6, b7; try (cbv in Hc; discriminate Hc);
    try (apply Hfin; reflexivity).
  all: destruct w as [|c2 w2]; [reflexivity|].
  all: cbn in Hw; apply andb_prop in Hw; destruct Hw as [Hc2 _].
  all: destruct c2 as [b0 b1 b2 b3 b4 b5 b6 b7].
  all: destruct b0, b1, b2, b3, b4, b5, b6, b7; try (cbv in Hc2; discriminate Hc2);
    apply Hfin; reflexivity.
Qed.

Lemma parseInt_digitString (s : string) :
  digitString s -> isCount (parseInt s).
Proof.
  intros [Hne Hs]. destruct s as [|c w]; [congruence|].
  pose proof Hs as Hs'. cbn in Hs'. apply andb_prop in Hs'. destruct Hs' as [Hc Hw].
  rewrite (parseInt_digit_first c w Hc Hw).
  destruct (digits_of_digitString (String c w) Hs None) as (v & -> & Hv);
    [intros _; discriminate | discriminate |].
  now apply roundToDouble_count.
Qed.

Lemma mul_count (a : number) (k : Z) : isCount a -> (0 < k)%Z -> isCount (mul a k).
Proof.
  intros [(z & -> & Hz) | ->] Hk; cbn [mul].
  - apply roundToDouble_count. nia.
  - right. destruct (k =? 0)%Z eqn:E; [apply Z.eqb_eq in E; lia|].
    f_equal. apply Z.ltb_ge. lia.
Qed.

Lemma ceilAvg_count (a b : number) : isCount a -> isCount b -> isCount (ceilAvg a b).
Proof.
  intros [(x & -> & Hx) | ->] [(y & -> & Hy) | ->]; unfold ceilAvg; cbn [add Bool.eqb];
    try (right; reflexivity).
  destruct (roundToDouble_count (x + y) ltac:(lia)) as [(s & -> & Hs) | ->];
    [|right; reflexivity].
  left. eexists. split; [reflexivity|].
  apply Z.opp_nonneg_nonpos. apply Z.div_le_upper_bound; lia.
Qed.

Lemma group_In (i : nat) (g : list (nat * string)) :
  In i (map fst g) -> exists s, RegExp.group i g = Some s /\ In (i, s) g.
Proof.
  induction g as [|[j s] g IH]; cbn [map fst In RegExp.group]; [tauto|].
  intros H. destruct (i =? j) eqn:E.
  - apply Nat.eqb_eq in E. subst j. exists s. split; [reflexivity | now left].
  - apply Nat.eqb_neq in E. destruct H as [H | H]; [congruence|].
    destruct (IH H) as (s' & Hs & Hin). exists s'. split; [exact Hs | now right].
Qed.

(** When every group of a pattern is [(\d+)], a sure group of a
    successful [exec] holds a non-empty run of digits, so [parseInt]
    reads a number from it. *)
Lemma exec_digit_group (re : RegExp.t) (li : nat) (s : string) (m : RegExp.rmatch)
      (li' i : nat) :
  RegExp.exec re li s = (Some m, li') ->
  Forall (fun b => snd b = RegExp.Plus RegExp.digit) (groupBodies (RegExp.source re)) ->
  In i (sureGroups (RegExp.source re)) ->
  isCount (parseGroup i m).
Proof.
  intros He Hd Hi. apply exec_sound in He.
  destruct He as (st0 & w & st' & H0 & M & Hg).
  destruct (Matches_caps _ _ _ _ _ M) as (extra & C & F & S1).
  rewrite H0, app_nil_r in C. rewrite <- Hg in C.
  destruct (group_In i extra (S1 i Hi)) as (u & Hu & Hin).
  unfold parseGroup. rewrite C, Hu.
  rewrite Forall_forall in F, Hd.
  destruct (F _ Hin) as (body & s1 & s2 & Hb & Hm).
  specialize (Hd _ Hb). cbn [snd fst] in *. subst body.
  apply parseInt_digitString. eapply plus_digit; eauto.
Qed.

(** Whatever a table entry returns after a successful [exec] is a
    non-negative count. *)
Lemma durationOf_number :
  Forall (fun p => forall li s m li',
              RegExp.exec (pattern p) li s = (Some m, li') ->
              forall d, durationOf p m = Some d -> isCount d)
         durationPatterns.
Proof.
  unfold durationPatterns.
  repeat (apply Forall_cons); try apply Forall_nil;
    intros li s m li' He d Hd; unfold durationOf in Hd;
    cbn [value range multiplier withValue withMultiplier withRange] in Hd.
  all: try (injection Hd as <-; left; eexists; split; [reflexivity | lia]).
  1-3: injection Hd as <-; apply mul_count; [|lia];
       apply (exec_digit_group _ _ _ _ _ 1 He); [repeat constructor | cbn; auto].
  all: injection Hd as <-; apply ceilAvg_count;
       [apply (exec_digit_group _ _ _ _ _ 1 He); [repeat constructor | cbn; auto]
       |apply (exec_digit_group _ _ _ _ _ 2 He); [repeat constructor | cbn; auto 10]].
Qed.

Lemma durationLoop_number (prompt : string) (ps : list DurationPattern) :
  Forall (fun p => forall li s m li',
              RegExp.exec (pattern p) li s = (Some m, li') ->
              forall d, durationOf p m = Some d -> isCount d) ps ->
  forall st d, fst (durationLoop prompt ps st) = Some d -> isCount d.
Proof.
  induction 1 as [|p ps Hp Hps IH]; intros st d H; cbn [durationLoop] in H; [discriminate|].
  destruct (RegExp.exec (pattern p) (hd 0 st) prompt) as [[m|] li] eqn:E.
  - destruct (durationOf p m) as [d'|] eqn:Ed.
    + cbn in H. injection H as <-. eapply Hp; eauto.
    + destruct (durationLoop prompt ps (tl st)) as [r st'] eqn:El. cbn in H.
      apply (IH (tl st)). now rewrite El.
  - destruct (durationLoop prompt ps (tl st)) as [r st'] eqn:El. cbn in H.
    apply (IH (tl st)). now rewrite El.
Qed.

Lemma extractDuration_number (prompt : string) (st : Store) :
  isCount (fst (extractDuration prompt st)).
Proof.
  unfold extractDuration.
  destruct (durationLoop prompt durationPatterns st) as [[d|] st'] eqn:E.
  - cbn. apply (durationLoop_number prompt durationPatterns durationOf_number st).
    now rewrite E.
  - cbn. left.
    destruct (_ || _); [eexists; split; [reflexivity | lia]|].
    destruct (_ || _); [eexists; split; [reflexivity | lia]|].
    destruct (includes _ _); [eexists; split; [reflexivity | lia]|].
    destruct (includes _ _); eexists; split; try reflexivity; lia.
Qed.

(** A run of 309 nines before "days" is more than the largest double:
    the duration is plus infinity; a run of 17 digits is rounded. *)
Example long_digit_runs :
  fst (extractDuration (nines 309 ++ " days") freshStore) = Infinity false
  /\ ParsedPreferences.duration (parse "12345678901234567 days" freshStore)
     = Int 12345678901234568
  /\ ParsedPreferences.duration (parse "9007199254740993 weeks" freshStore)
     = Int 63050394783186944.
Proof. repeat split; vm_compute; reflexivity. Qed.

End DigitCaptures.

(** X1: for every text and every state of the duration patterns the
    duration of the parse is never NaN and never negative: it is the
    integer value of a double, or plus infinity when a run of digits is
    too long for a double.  The groups that [parseInt] reads can only
    hold decimal digits, the multipliers are positive, and the keyword
    fall-backs and the default are positive constants. *)
Theorem parse_duration_is_number (text : string) (st : Store) :
  (exists z : Z, ParsedPreferences.duration (parse text st) = Int z /\ (0 <= z)%Z)
  \/ ParsedPreferences.duration (parse text st) = Infinity false.
Proof. rewrite parse_duration. apply extractDuration_number. Qed.

(** ** When the state of the duration patterns carries over *)

Section StoreFacts.

Lemma string_app_nil (a b : string) : (a ++ b)%string = "" -> a = "".
Proof. destruct a; [reflexivity | discriminate]. Qed.

Lemma Matches_nonempty (icase : bool) (r : RegExp.regex) (st st' : RegExp.mstate)
      (w : string) :
  Matches icase r st w st' -> nullable r = false -> w <> "".
Proof.
  induction 1; cbn [nullable]; intros Hn; try discriminate.
  - apply andb_false_iff in Hn. intros E.
    pose proof (string_app_nil _ _ E) as E1. subst w1. cbn in E. subst w2.
    destruct Hn as [Hn | Hn]; [now apply IHMatches1 | now apply IHMatches2].
  - apply orb_false_iff in Hn. now apply IHMatches.
  - apply orb_false_iff in Hn. now apply IHMatches.
  - now apply IHMatches.
Qed.

(** A successful [exec] of a global pattern that cannot match the empty
    text leaves a positive [lastIndex]. *)
Lemma exec_advances (re : RegExp.t) (li : nat) (s : string) (m : RegExp.rmatch) (li' : nat) :
  RegExp.global re = true -> nullable (RegExp.source re) = false ->
  RegExp.exec re li s = (Some m, li') -> 0 < li'.
Proof.
  unfold RegExp.exec. intros Hg Hn H. rewrite Hg in H.
  destruct (String.length s <? li); [discriminate|].
  destruct (RegExp.search _ _ _ _) as [m'|] eqn:E; [|discriminate].
  injection H as <- <-. apply search_sound in E.
  destruct E as (st0 & w & st' & H0 & M & Hgr & Hi & He & Hp).
  destruct (Matches_consumes _ _ _ _ _ M) as [_ Hpos].
  pose proof (Matches_nonempty _ _ _ _ _ M Hn) as Hw.
  destruct w; [congruence|]. cbn in Hpos. lia.
Qed.

Lemma durationPatterns_global_nonnull :
  Forall (fun p => RegExp.global (pattern p) = true
                   /\ nullable (RegExp.source (pattern p)) = false) durationPatterns.
Proof. repeat constructor. Qed.

Lemma durationLoop_length (s : string) (ps : list DurationPattern) :
  forall st, length ps <= length st -> length (snd (durationLoop s ps st)) = length st.
Proof.
  induction ps as [|p ps IH]; intros st H; cbn [durationLoop]; [reflexivity|].
  destruct st as [|li st]; cbn [length] in H; [lia|]. cbn [hd tl].
  destruct (RegExp.exec (pattern p) li s) as [om li'].
  specialize (IH st ltac:(lia)).
  destruct (durationLoop s ps st) as [r st'].
  destruct om as [m|]; [destruct (durationOf p m)|]; cbn in *; lia.
Qed.

Lemma extractDuration_length (s : string) (st : Store) :
  length durationPatterns <= length st ->
  length (snd (extractDuration s st)) = length st.
Proof.
  intros H. unfold extractDuration.
  pose proof (durationLoop_length s durationPatterns st H) as L.
  destruct (durationLoop s durationPatterns st) as [[d|] st']; exact L.
Qed.

(** When no [test] succeeds, every entry of the table has been reset. *)
Lemma confidenceLoop_false (s : string) (ps : list DurationPattern) :
  forall st, fst (confidenceLoop s ps st) = false ->
             snd (confidenceLoop s ps st) = repeat 0 (length ps) ++ skipn (length ps) st.
Proof.
  induction ps as [|p ps IH]; intros st H; cbn [confidenceLoop] in *; [reflexivity|].
  destruct (RegExp.test (pattern p) (hd 0 st) s) as [b li].
  destruct b; [discriminate|].
  specialize (IH (tl st)).
  destruct (confidenceLoop s ps (tl st)) as [r st']. cbn [fst snd] in *.
  cbn [length repeat app]. rewrite skipn_S_tl, (IH H). reflexivity.
Qed.

(** When a [test] succeeds, the entry that matched is left positive. *)
Lemma confidenceLoop_true (s : string) (ps : list DurationPattern) :
  Forall (fun p => RegExp.global (pattern p) = true
                   /\ nullable (RegExp.source (pattern p)) = false) ps ->
  forall st, fst (confidenceLoop s ps st) = true ->
             Exists (fun li => 0 < li) (firstn (length ps) (snd (confidenceLoop s ps st))).
Proof.
  induction 1 as [|p ps [Hg Hn] Hps IH]; intros st H; cbn [confidenceLoop] in *;
    [discriminate|].
  unfold RegExp.test in *.
  destruct (RegExp.exec (pattern p) (hd 0 st) s) as [[m|] li] eqn:E.
  - cbn [fst snd length firstn]. left. eapply exec_advances; eauto.
  - specialize (IH (tl st)).
    destruct (confidenceLoop s ps (tl st)) as [r st']. cbn [fst snd length firstn] in *.
    right. now apply IH.
Qed.

Lemma storeAfter_eq (text : string) (st : Store) :
  storeAfter text st
  = snd (confidenceLoop (toLowerCase text) durationPatterns
           (snd (extractDuration (toLowerCase text) st))).
Proof.
  unfold storeAfter, parsePrompt.
  destruct (extractDuration _ st) as [d st1]. cbn [snd].
  unfold calculateConfidence.
  destruct (confidenceLoop _ _ st1) as [hit st2]. reflexivity.
Qed.

Lemma parse_duration_confidence (text : string) (st : Store) :
  ParsingConfidence.duration (ParsedPreferences.confidence (parse text st))
  = if fst (confidenceLoop (toLowerCase text) durationPatterns
              (snd (extractDuration (toLowerCase text) st)))
    then 0.9%Q else 0.4%Q.
Proof. now rewrite parse_confidence, calculateConfidence_duration. Qed.

Lemma skipn_all_length {A} (l : list A) (n : nat) : length l = n -> skipn n l = [].
Proof. intros <-. apply skipn_all. Qed.

Lemma Exists_repeat_zero (n : nat) : ~ Exists (fun li => 0 < li) (repeat 0 n).
Proof.
  induction n as [|n IH]; cbn; intros H; inversion H; subst; [lia | auto].
Qed.

Lemma freshStore_repeat : freshStore = repeat 0 (length durationPatterns).
Proof. reflexivity. Qed.

End StoreFacts.

(** X2: in a state that has one entry per pattern, a parse leaves every
    [lastIndex] at 0, as on a freshly loaded module, exactly when it
    reports the duration confidence 0.4; a parse that reports 0.9 always
    leaves a pattern with a positive [lastIndex] behind. *)
Theorem store_reset_iff_low_duration_confidence (text : string) (st : Store) :
  length st = length durationPatterns ->
  (ParsingConfidence.duration (ParsedPreferences.confidence (parse text st)) = 0.4%Q
   <-> storeAfter text st = freshStore)
  /\ (ParsingConfidence.duration (ParsedPreferences.confidence (parse text st)) = 0.9%Q
      <-> Exists (fun li => 0 < li) (storeAfter text st)).
Proof.
  intros Hlen.
  rewrite parse_duration_confidence, storeAfter_eq, freshStore_repeat.
  set (s := toLowerCase text).
  assert (L1 : length (snd (extractDuration s st)) = length durationPatterns).
  { rewrite extractDuration_length; lia. }
  set (st1 := snd (extractDuration s st)) in *.
  destruct (fst (confidenceLoop s durationPatterns st1)) eqn:Hit.
  - pose proof (confidenceLoop_true s durationPatterns durationPatterns_global_nonnull st1 Hit)
      as Hex.
    assert (Hex' : Exists (fun li => 0 < li) (snd (confidenceLoop s durationPatterns st1))).
    { rewrite <- (firstn_skipn (length durationPatterns)
                    (snd (confidenceLoop s durationPatterns st1))).
      apply Exists_app. now left. }
    repeat split; try discriminate; auto.
    intros E. rewrite E in Hex'. exfalso. exact (Exists_repeat_zero _ Hex').
  - pose proof (confidenceLoop_false s durationPatterns st1 Hit) as E.
    rewrite (skipn_all_length st1 _ L1), app_nil_r in E.
    repeat split; try discriminate; auto.
    intros Hex. rewrite E in Hex. exfalso. exact (Exists_repeat_zero _ Hex).
Qed.

Lemma store_reset_iff_low_duration_confidence_witness :
  length (storeAfter "2 days and 3 days" freshStore) = length durationPatterns
  /\ ((ParsingConfidence.duration
         (ParsedPreferences.confidence
            (parse "a week in paris" (storeAfter "2 days and 3 days" freshStore))) = 0.4%Q
       <-> storeAfter "a week in paris" (storeAfter "2 days and 3 days" freshStore)
           = freshStore)
      /\ (ParsingConfidence.duration
            (ParsedPreferences.confidence
               (parse "a week in paris" (storeAfter "2 days and 3 days" freshStore))) = 0.9%Q
          <-> Exists (fun li => 0 < li)
                (storeAfter "a week in paris" (storeAfter "2 days and 3 days" freshStore)))).
Proof.
  split; [vm_compute; reflexivity|].
  apply (store_reset_iff_low_duration_confidence "a week in paris"
           (storeAfter "2 days and 3 days" freshStore)).
  vm_compute. reflexivity.
Defined.

Section NoDurationPhrase.

Lemma durationPatterns_global :
  Forall (fun p => RegExp.global (pattern p) = true) durationPatterns.
Proof. repeat constructor. Qed.

Lemma neverMatches_all (s : string) :
  forallb (neverMatches s) durationPatterns = true ->
  Forall (fun p => forall li, RegExp.exec (pattern p) li s = (None, 0)) durationPatterns.
Proof.
  intros H. rewrite forallb_forall in H.
  pose proof durationPatterns_global as G. rewrite Forall_forall in *.
  intros p Hp. apply neverMatches_spec; auto.
Qed.

Lemma durationLoop_all_fail (s : string) (st : Store) :
  Forall (fun p => forall li, RegExp.exec (pattern p) li s = (None, 0)) durationPatterns ->
  durationLoop s durationPatterns st = (None, resetStore st).
Proof.
  intros H. rewrite <- (app_nil_r durationPatterns) at 1.
  rewrite durationLoop_skip by exact H. reflexivity.
Qed.

Lemma confidenceLoop_all_fail (s : string) (st : Store) :
  Forall (fun p => forall li, RegExp.exec (pattern p) li s = (None, 0)) durationPatterns ->
  confidenceLoop s durationPatterns st = (false, resetStore st).
Proof.
  intros H. rewrite <- (app_nil_r durationPatterns) at 1.
  rewrite confidenceLoop_skip by exact H. reflexivity.
Qed.

Lemma resetStore_idem (st : Store) : resetStore (resetStore st) = resetStore st.
Proof.
  unfold resetStore. rewrite skipn_app, repeat_length, Nat.sub_diag.
  rewrite skipn_all2 by (rewrite repeat_length; lia). reflexivity.
Qed.

End NoDurationPhrase.

(** X3: when no duration pattern finds anything in the lower-cased text,
    from whatever index it starts, the parse does not depend on the state
    of the patterns: it is the parse of a freshly loaded module, its
    duration confidence is 0.4, and it leaves every [lastIndex] at 0. *)
Theorem parse_without_duration_phrase (text : string) (st : Store) :
  forallb (neverMatches (toLowerCase text)) durationPatterns = true ->
  parse text st = parse text freshStore
  /\ ParsingConfidence.duration (ParsedPreferences.confidence (parse text st)) = 0.4%Q
  /\ storeAfter text st = resetStore st.
Proof.
  intros H. apply neverMatches_all in H.
  assert (E : forall st0,
             parsePrompt text st0
             = (fst (parsePrompt text freshStore), resetStore st0)
               /\ ParsingConfidence.duration
                    (ParsedPreferences.confidence (fst (parsePrompt text st0))) = 0.4%Q).
  { intros st0. unfold parsePrompt, extractDuration, calculateConfidence.
    rewrite !(durationLoop_all_fail _ _ H), !(confidenceLoop_all_fail _ _ H).
    cbn [fst snd ParsedPreferences.confidence ParsingConfidence.duration].
    rewrite resetStore_idem. split; reflexivity. }
  unfold parse, storeAfter. destruct (E st) as [E1 E2].
  rewrite E1. cbn [fst snd]. repeat split. rewrite E1 in E2. exact E2.
Qed.

Lemma parse_without_duration_phrase_witness :
  forallb (neverMatches (toLowerCase "I want to go somewhere nice")) durationPatterns = true
  /\ (parse "I want to go somewhere nice" (storeAfter "2 days and 3 days" freshStore)
      = parse "I want to go somewhere nice" freshStore
      /\ ParsingConfidence.duration
           (ParsedPreferences.confidence
              (parse "I want to go somewhere nice"
                 (storeAfter "2 days and 3 days" freshStore))) = 0.4%Q
      /\ storeAfter "I want to go somewhere nice" (storeAfter "2 days and 3 days" freshStore)
         = resetStore (storeAfter "2 days and 3 days" freshStore)).
Proof.
  split; [vm_compute; reflexivity|].
  apply (parse_without_duration_phrase "I want to go somewhere nice"
           (storeAfter "2 days and 3 days" freshStore)).
  vm_compute. reflexivity.
Defined.

(** ** Destinations *)

Section DestinationFacts.

Lemma split_nonempty (sep : ascii) (s : string) : split sep s <> [].
Proof.
  induction s as [|c s IH]; cbn [split]; [discriminate|].
  destruct (Ascii.eqb c sep); [discriminate|].
  destruct (split sep s); discriminate.
Qed.

Lemma concat_cons2 (sep x y : string) (l : list string) :
  String.concat sep (x :: y :: l) = (x ++ sep ++ String.concat sep (y :: l))%string.
Proof. reflexivity. Qed.

(** Splitting at a separator and joining with it gives the text back. *)
Lemma join_split (sep : ascii) (s : string) :
  join (String sep "") (split sep s) = s.
Proof.
  unfold join. induction s as [|c s IH]; cbn [split]; [reflexivity|].
  pose proof (split_nonempty sep s) as Hne.
  destruct (split sep s) as [|w ws]; [congruence|].
  destruct (Ascii.eqb c sep) eqn:E.
  - apply Ascii.eqb_eq in E. subst c.
    rewrite concat_cons2, IH. reflexivity.
  - destruct ws as [|w' ws].
    + cbn [String.concat] in *. now rewrite IH.
    + rewrite concat_cons2 in *. cbn [append] in *. now rewrite IH.
Qed.

Lemma concat_map_length (sep : string) (f : string -> string) (l : list string) :
  (forall w, String.length w <= String.length (f w)) ->
  String.length (String.concat sep l) <= String.length (String.concat sep (map f l)).
Proof.
  intros Hf. induction l as [|w l IH]; [cbn; lia|].
  destruct l as [|w' l]; [cbn; apply Hf|].
  cbn [map] in *. rewrite !concat_cons2, !string_app_length. specialize (Hf w). lia.
Qed.

Lemma capitalize_length (w : string) : String.length w <= String.length (capitalize w).
Proof.
  unfold capitalize. destruct w as [|c w]; [cbn; lia|].
  cbn [charAt0 slice1 toUpperCase]. destruct (code c =? 223); cbn; lia.
Qed.

(** Capitalising the words of a text never shortens it. *)
Lemma titleCase_length (s : string) : String.length s <= String.length (titleCase s).
Proof.
  unfold titleCase, join.
  rewrite <- (join_split " " s) at 1. unfold join.
  apply concat_map_length, capitalize_length.
Qed.

Lemma acceptedCapture_length (prompt : string) (p : RegExp.t) (d : string) :
  acceptedCapture prompt p = Some d -> 3 <= String.length d.
Proof.
  unfold acceptedCapture.
  destruct (fst (RegExp.exec p 0 prompt)) as [m|]; [|discriminate].
  destruct (RegExp.group 1 (RegExp.groups m)) as [[|c1 s1]|]; try discriminate.
  destruct (2 <? _) eqn:E; [|discriminate]. cbn [andb].
  destruct (_ && _); [|discriminate].
  intros [= <-]. apply Nat.ltb_lt in E.
  pose proof (titleCase_length (trim (String c1 s1))). lia.
Qed.

Lemma patternDestination_length (prompt : string) (ps : list RegExp.t) (d : string) :
  patternDestination prompt ps = Some d -> 3 <= String.length d.
Proof.
  induction ps as [|p ps IH]; cbn [patternDestination]; [discriminate|].
  destruct (acceptedCapture prompt p) as [d'|] eqn:E; [|exact IH].
  intros [= <-]. eapply acceptedCapture_length; eauto.
Qed.

Lemma destinations_length :
  Forall (fun d => 3 <= String.length d) destinations.
Proof.
  apply Forall_forall. intros d Hd.
  assert (H : forallb (fun d => 3 <=? String.length d) destinations = true)
    by (vm_compute; reflexivity).
  rewrite forallb_forall in H. apply Nat.leb_le. auto.
Qed.

(** [find] returns the first element that passes the test. *)
Lemma find_first {A} (f : A -> bool) (l : list A) (x : A) :
  find f l = Some x ->
  exists l1 l2, l = l1 ++ x :: l2 /\ f x = true /\ forallb (fun y => negb (f y)) l1 = true.
Proof.
  induction l as [|y l IH]; cbn [find]; [discriminate|].
  destruct (f y) eqn:E.
  - intros [= <-]. exists [], l. auto.
  - intros H. destruct (IH H) as (l1 & l2 & -> & Hx & Hl).
    exists (y :: l1), l2. cbn. rewrite E. auto.
Qed.

Lemma find_none_existsb {A} (f : A -> bool) (l : list A) :
  find f l = None -> existsb f l = false.
Proof.
  induction l as [|y l IH]; cbn; [reflexivity|].
  destruct (f y); [discriminate | exact IH].
Qed.

Lemma find_some_existsb {A} (f : A -> bool) (l : list A) (x : A) :
  find f l = Some x -> existsb f l = true.
Proof.
  intros H. apply find_some in H. apply existsb_exists. exists x. exact H.
Qed.

End DestinationFacts.

(** X4: for every text the destination of the parse has at least three
    characters; in particular it is never the empty string. *)
Theorem parse_destination_length (text : string) (st : Store) :
  3 <= String.length (ParsedPreferences.destination (parse text st)).
Proof.
  rewrite parse_destination. unfold extractDestination.
  destruct (gazetteerHit _) as [d|] eqn:G.
  - unfold gazetteerHit in G. apply find_some in G. destruct G as [Hin _].
    pose proof destinations_length as L. rewrite Forall_forall in L.
    specialize (L d Hin). pose proof (titleCase_length d). lia.
  - destruct (patternDestination _ _) as [d|] eqn:P.
    + eapply patternDestination_length; eauto.
    + cbn. lia.
Qed.

(** X5: the destination and its confidence agree on the gazetteer.  When
    an entry of the gazetteer occurs in the lower-cased text, the
    destination is the capitalised first such entry in table order (so
    "new york city" is reported as "New York") and the confidence is 0.9;
    otherwise the confidence is below 0.9. *)
Theorem gazetteer_destination (text : string) (st : Store) :
  match gazetteerHit (toLowerCase text) with
  | Some d =>
      ParsedPreferences.destination (parse text st) = titleCase d
      /\ ParsingConfidence.destination (ParsedPreferences.confidence (parse text st)) = 0.9%Q
      /\ exists before after,
           destinations = before ++ d :: after
           /\ includes (toLowerCase text) d = true
           /\ forallb (fun e => negb (includes (toLowerCase text) e)) before = true
  | None =>
      (ParsingConfidence.destination (ParsedPreferences.confidence (parse text st)) < 0.9)%Q
  end.
Proof.
  destruct (gazetteerHit (toLowerCase text)) as [d|] eqn:G.
  - split; [|split].
    + rewrite parse_destination. unfold extractDestination. now rewrite G.
    + rewrite parse_confidence. unfold calculateConfidence.
      destruct (confidenceLoop _ _ _) as [hit st'].
      cbn [fst ParsingConfidence.destination].
      now rewrite (find_some_existsb _ _ _ G).
    + destruct (find_first _ _ _ G) as (l1 & l2 & E & Hd & Hl). eauto.
  - rewrite parse_confidence. unfold calculateConfidence.
    destruct (confidenceLoop _ _ _) as [hit st'].
    cbn [fst ParsingConfidence.destination].
    rewrite (find_none_existsb _ _ G).
    destruct (fst (RegExp.test _ _ _)); [reflexivity|].
    destruct (negb _); reflexivity.
Qed.

Example new_york_city_is_new_york :
  ParsedPreferences.destination (parse "Four days in New York City" freshStore) = "New York".
Proof. vm_compute. reflexivity. Qed.

(** ** Interests come from a closed vocabulary *)

Section InterestFacts.

Lemma setAdd_In (s : list string) (x y : string) :
  In y (setAdd s x) -> In y s \/ y = x.
Proof.
  unfold setAdd. destruct (arrIncludes s x); [auto|].
  intros H. apply in_app_or in H. destruct H as [H | [H | []]]; auto.
Qed.

Lemma fold_setAdd_In (l s : list string) (y : string) :
  In y (fold_left setAdd l s) -> In y s \/ In y l.
Proof.
  revert s. induction l as [|x l IH]; intros s H; cbn [fold_left] in H; [auto|].
  apply IH in H. destruct H as [H | H]; [|right; now right].
  apply setAdd_In in H. destruct H as [H | ->]; [auto | right; now left].
Qed.

Lemma newSet_In (l : list string) (y : string) : In y (newSet l) -> In y l.
Proof. intros H. apply fold_setAdd_In in H. destruct H as [[] | H]. exact H. Qed.

Lemma foundInterests_raw (prompt : string) :
  Forall (fun r => In r rawTerms) (foundInterests prompt).
Proof.
  unfold foundInterests, rawTerms. rewrite !Forall_app. repeat split.
  - apply Forall_forall. intros r Hr. apply filter_In in Hr. apply in_or_app. tauto.
  - destruct (_ || _);
      repeat (apply Forall_cons; [apply in_or_app; right; cbn; tauto|]); apply Forall_nil.
  - destruct (_ || _);
      repeat (apply Forall_cons; [apply in_or_app; right; cbn; tauto|]); apply Forall_nil.
  - destruct (_ || _);
      repeat (apply Forall_cons; [apply in_or_app; right; cbn; tauto|]); apply Forall_nil.
  - destruct (_ || _);
      repeat (apply Forall_cons; [apply in_or_app; right; cbn; tauto|]); apply Forall_nil.
Qed.

Lemma default_raw :
  Forall (fun r => In r rawTerms) ["scenic drives"; "nature"; "photography"].
Proof.
  repeat (apply Forall_cons; [apply arrIncludes_In; vm_compute; reflexivity|]).
  apply Forall_nil.
Qed.

Lemma extractInterests_raw (prompt : string) :
  Forall (fun r => In r rawTerms) (extractInterests prompt).
Proof.
  unfold extractInterests.
  pose proof (foundInterests_raw prompt) as F.
  destruct (foundInterests prompt) as [|x l] eqn:E; [apply default_raw|].
  apply Forall_forall. intros r Hr. unfold slice0 in Hr.
  apply firstn_In_subset in Hr. apply newSet_In in Hr.
  rewrite Forall_forall in F. auto.
Qed.

Lemma extractInterests_NoDup (prompt : string) : NoDup (extractInterests prompt).
Proof.
  unfold extractInterests.
  destruct (foundInterests prompt) as [|x l].
  - repeat constructor; cbn; intros H; repeat destruct H as [H | H]; discriminate || auto.
  - unfold slice0. apply firstn_NoDup, newSet_NoDup.
Qed.

Lemma directTags_known (ints : list string) (t : string) :
  In t (directTags ints) -> In t (map fst uiTagMap).
Proof.
  unfold directTags. generalize uiTagMap. intros m.
  assert (G : forall s, (forall y, In y s -> In y (map fst m)) ->
                        forall y, In y (fold_left
                                          (fun mapped e =>
                                             if existsb (tagMatches (fst e) (snd e)) ints
                                             then setAdd mapped (fst e) else mapped) m s) ->
                                  In y (map fst m)).
  { induction m as [|e m IH]; intros s Hs y Hy; cbn [fold_left] in Hy; [auto|].
    cbn [map]. 
    assert (Hor : y = fst e \/ In y (map fst m) \/ In y s).
    { destruct (in_dec string_dec y (map fst m)) as [Hm | Hm]; [auto|].
      destruct (string_dec y (fst e)) as [He | He]; [auto|].
      right. right.
      assert (K : forall s0, In y (fold_left
                                     (fun mapped e0 =>
                                        if existsb (tagMatches (fst e0) (snd e0)) ints
                                        then setAdd mapped (fst e0) else mapped) m s0) ->
                             In y (map fst m) \/ In y s0).
      { clear. induction m as [|e0 m IHm]; intros s0 H0; cbn [fold_left] in H0; [auto|].
        apply IHm in H0. cbn [map]. destruct H0 as [H0 | H0]; [left; now right|].
        destruct (existsb _ ints); [|auto].
        apply setAdd_In in H0. destruct H0 as [H0 | ->]; [auto | left; now left]. }
      apply K in Hy. destruct Hy as [Hy | Hy]; [contradiction|].
      destruct (existsb _ ints); [|exact Hy].
      apply setAdd_In in Hy. destruct Hy as [Hy | Hy]; [exact Hy | contradiction]. }
    destruct Hor as [-> | [Hm | Hin]]; [now left | now right |].
    specialize (Hs y Hin). cbn [map] in Hs. exact Hs. }
  intros H. apply (G [] (fun y Hy => match Hy with end) t H).
Qed.

Lemma addCustom_known (mapped : list string) (interest t : string) :
  In t (addCustom mapped interest) -> In t mapped \/ t = titleCase interest.
Proof.
  unfold addCustom. destruct (negb _ && negb _); [apply setAdd_In | auto].
Qed.

Lemma fold_addCustom_known (ints mapped : list string) (t : string) :
  In t (fold_left addCustom ints mapped) -> In t mapped \/ In t (map titleCase ints).
Proof.
  revert mapped. induction ints as [|i ints IH]; intros mapped H; cbn [fold_left] in H;
    [auto|].
  apply IH in H. cbn [map]. destruct H as [H | H]; [|right; now right].
  apply addCustom_known in H. destruct H as [H | ->]; [auto | right; now left].
Qed.

Lemma mapInterestsToUITags_known (ints : list string) (t : string) :
  In t (mapInterestsToUITags ints) ->
  In t (map fst uiTagMap) \/ In t (map titleCase ints).
Proof.
  unfold mapInterestsToUITags, slice0. intros H.
  apply firstn_In_subset in H. apply fold_addCustom_known in H.
  destruct H as [H | H]; [left; now apply directTags_known in H | now right].
Qed.

End InterestFacts.

(** X6: the raw interest list that [extractInterests] returns has between
    one and five entries, no duplicate, and only terms of the fixed
    vocabulary or derived tags; every interest of the parse is a UI
    category of the synonym table or such a raw term with its words
    capitalised. *)
Theorem parse_interests_known (text : string) (st : Store) :
  Forall (fun t => In t knownTags) (ParsedPreferences.interests (parse text st))
  /\ Forall (fun r => In r rawTerms) (extractInterests (toLowerCase text))
  /\ NoDup (extractInterests (toLowerCase text))
  /\ 1 <= length (extractInterests (toLowerCase text)) <= 5.
Proof.
  split; [|split; [apply extractInterests_raw | split;
                   [apply extractInterests_NoDup | apply extractInterests_length]]].
  rewrite parse_interests. apply Forall_forall. intros t Ht.
  apply mapInterestsToUITags_known in Ht. unfold knownTags. apply in_or_app.
  destruct Ht as [Ht | Ht]; [now left | right].
  apply in_map_iff in Ht. destruct Ht as (r & <- & Hr).
  apply in_map. pose proof (extractInterests_raw (toLowerCase text)) as F.
  rewrite Forall_forall in F. auto.
Qed.

(** ** Which questions follow a parse *)

Section QuestionsAfterParse.

Lemma generate_is_pushed (parsed : ParsedPreferences.t) :
  generateClarificationQuestions parsed = pushedQuestions parsed.
Proof.
  unfold generateClarificationQuestions. apply sort_sorted_id.
  rewrite pushedQuestions_fields. unfold fieldCheckOrder. cbn [filter].
  destruct (belowThreshold parsed Fdestination);
    destruct (belowThreshold parsed Fduration);
    destruct (belowThreshold parsed Finterests);
    destruct (belowThreshold parsed FaccommodationType);
    destruct (belowThreshold parsed Fpace);
    cbn [map]; repeat constructor; unfold byPriority; simpl; lia.
Qed.

Lemma generate_fields (parsed : ParsedPreferences.t) :
  map ClarificationQuestion.field (generateClarificationQuestions parsed)
  = filter (belowThreshold parsed) fieldCheckOrder.
Proof.
  rewrite generate_is_pushed, pushedQuestions_fields, map_map.
  induction (filter (belowThreshold parsed) fieldCheckOrder) as [|f l IH] eqn:E.
  - reflexivity.
  - assert (Hin : forall g, In g (f :: l) -> In g fieldCheckOrder).
    { intros g Hg. rewrite <- E in Hg. apply filter_In in Hg. tauto. }
    clear E IH. induction (f :: l) as [|g l' IH']; [reflexivity|].
    cbn [map]. rewrite IH' by (intros; apply Hin; now right). f_equal.
    specialize (Hin g (or_introl eq_refl)). unfold fieldCheckOrder in Hin. cbn in Hin.
    destruct Hin as [<- | [<- | [<- | [<- | [<- | []]]]]]; reflexivity.
Qed.

Lemma belowThreshold_lt (parsed : ParsedPreferences.t) (f : Field) :
  belowThreshold parsed f
  = lt (fieldConfidence f (ParsedPreferences.confidence parsed)) threshold.
Proof. unfold belowThreshold. now rewrite lt_Qlt_le_dec. Qed.

Lemma parse_accommodationType (text : string) (st : Store) :
  ParsedPreferences.accommodationType (parse text st)
  = extractAccommodationType (toLowerCase text).
Proof.
  unfold parse, parsePrompt.
  destruct (extractDuration _ st) as [d st1].
  destruct (calculateConfidence _ _ st1) as [c st2]. reflexivity.
Qed.

Lemma parse_pace (text : string) (st : Store) :
  ParsedPreferences.pace (parse text st) = extractPace (toLowerCase text).
Proof.
  unfold parse, parsePrompt.
  destruct (extractDuration _ st) as [d st1].
  destruct (calculateConfidence _ _ st1) as [c st2]. reflexivity.
Qed.

(** The five scores of a parse, each as a function of what was found. *)
Lemma parse_scores (text : string) (st : Store) :
  ParsingConfidence.destination (ParsedPreferences.confidence (parse text st))
  = (if existsb (includes (toLowerCase text)) destinations then 0.9
     else if fst (RegExp.test travelVerbPhrase 0 (toLowerCase text)) then 0.7
     else if negb (String.eqb (ParsedPreferences.destination (parse text st)) "California")
          then 0.6 else 0.3)%Q
  /\ ParsingConfidence.interests (ParsedPreferences.confidence (parse text st))
     = (Qmin 0.9 (0.3 + inject_Z (Z.of_nat (length (extractInterests (toLowerCase text))))
                        * 0.15))%Q
  /\ ParsingConfidence.accommodationType (ParsedPreferences.confidence (parse text st))
     = match ParsedPreferences.accommodationType (parse text st) with
       | Some _ => 0.8%Q
       | None => 0.2%Q
       end
  /\ ParsingConfidence.pace (ParsedPreferences.confidence (parse text st))
     = match ParsedPreferences.pace (parse text st) with
       | Some _ => 0.7%Q
       | None => 0.3%Q
       end.
Proof.
  rewrite parse_accommodationType, parse_pace, parse_destination, parse_confidence.
  unfold calculateConfidence.
  destruct (confidenceLoop _ _ _) as [hit st']. repeat split.
Qed.

Lemma interests_score_below (n : nat) :
  1 <= n <= 5 ->
  lt (Qmin 0.9 (0.3 + inject_Z (Z.of_nat n) * 0.15)) threshold = (n =? 1).
Proof.
  intros H. destruct n as [|[|[|[|[|[|n]]]]]]; try lia; reflexivity.
Qed.

End QuestionsAfterParse.

(** X7: the questions generated for a parse follow what the parse found.
    The destination question is asked exactly when no gazetteer entry and
    no travel-verb phrase occurs and the destination is the default; the
    duration question exactly when the duration confidence is 0.4; the
    interests question exactly when one single raw term was found (never
    when none was found, because the default triple counts as three); the
    accommodation and pace questions exactly when no accommodation type,
    respectively no pace, was found. *)
Theorem questions_after_parse (text : string) (st : Store) :
  map ClarificationQuestion.field (generateClarificationQuestions (parse text st))
  = filter (askedAfterParse text st) fieldCheckOrder.
Proof.
  rewrite generate_fields. apply filter_ext_in. intros f Hf.
  rewrite belowThreshold_lt.
  destruct (parse_scores text st) as (Hd & Hi & Ha & Hp).
  unfold fieldCheckOrder in Hf. cbn in Hf.
  destruct Hf as [<- | [<- | [<- | [<- | [<- | []]]]]];
    cbn [fieldConfidence askedAfterParse].
  - rewrite Hd. destruct (existsb _ _); [reflexivity|].
    destruct (fst (RegExp.test _ _ _)); [reflexivity|].
    destruct (String.eqb _ _); reflexivity.
  - rewrite parse_duration_confidence. destruct (fst (confidenceLoop _ _ _)); reflexivity.
  - rewrite Hi, interests_score_below by apply extractInterests_length.
    rewrite extractInterests_rawCount.
    destruct (rawCount (toLowerCase text)) as [|[|[|[|[|[|n]]]]]]; reflexivity.
  - rewrite Ha. destruct (ParsedPreferences.accommodationType _); reflexivity.
  - rewrite Hp. destruct (ParsedPreferences.pace _); reflexivity.
Qed.

(** ** The other handlers of the wizard *)

Import Handlers.

Section ToggleFacts.

Lemma arrIncludes_app (a b : list string) (x : string) :
  arrIncludes (a ++ b) x = arrIncludes a x || arrIncludes b x.
Proof. unfold arrIncludes. apply existsb_app. Qed.

Lemma arrIncludes_filter_ne (l : list string) (i x : string) :
  arrIncludes (filter (fun j => negb (String.eqb j i)) l) x
  = arrIncludes l x && negb (String.eqb x i).
Proof.
  unfold arrIncludes. induction l as [|y l IH]; cbn [filter existsb]; [reflexivity|].
  destruct (String.eqb y i) eqn:Eyi; cbn [negb existsb]; rewrite IH.
  - apply String.eqb_eq in Eyi. subst y.
    destruct (String.eqb x i); cbn; [now rewrite andb_false_r | reflexivity].
  - destruct (String.eqb x y) eqn:Exy; cbn; [|reflexivity].
    apply String.eqb_eq in Exy. subst y. now rewrite Eyi.
Qed.

Lemma filter_ne_absent (l : list string) (i : string) :
  arrIncludes l i = false -> filter (fun j => negb (String.eqb j i)) l = l.
Proof.
  unfold arrIncludes. induction l as [|y l IH]; cbn [filter existsb]; [reflexivity|].
  intros H. apply orb_false_iff in H. destruct H as [H1 H2].
  rewrite String.eqb_sym in H1. rewrite H1. cbn. now rewrite IH.
Qed.

Lemma toggle_includes (l : list string) (interest x : string) :
  arrIncludes (toggle l interest) x
  = (if String.eqb x interest then negb (arrIncludes l interest) else arrIncludes l x).
Proof.
  unfold toggle. destruct (arrIncludes l interest) eqn:E.
  - rewrite arrIncludes_filter_ne.
    destruct (String.eqb x interest) eqn:Ex; cbn; [now rewrite andb_false_r|].
    now rewrite andb_true_r.
  - rewrite arrIncludes_app. cbn.
    destruct (String.eqb x interest) eqn:Ex; cbn.
    + now rewrite orb_true_r.
    + now rewrite orb_false_r.
Qed.

Lemma toggle_twice (l : list string) (interest : string) :
  toggle (toggle l interest) interest
  = (if arrIncludes l interest
     then filter (fun j => negb (String.eqb j interest)) l ++ [interest]
     else l).
Proof.
  unfold toggle at 2. destruct (arrIncludes l interest) eqn:E; unfold toggle.
  - rewrite arrIncludes_filter_ne, String.eqb_refl, andb_false_r. reflexivity.
  - rewrite arrIncludes_app. cbn. rewrite String.eqb_refl, orb_true_r.
    rewrite filter_app. cbn. rewrite String.eqb_refl. cbn.
    rewrite app_nil_r. now apply filter_ne_absent.
Qed.

End ToggleFacts.

(** X8: toggling an interest flips whether the list holds it and leaves
    every other interest as it was; a second toggle gives the list back
    when the interest was absent, and moves it to the end when it was
    there. *)
Theorem toggle_flips_membership (prev : TourPreferences.t) (interest x : string) :
  arrIncludes (TourPreferences.interests (toggleInterest interest prev)) x
  = (if String.eqb x interest
     then negb (arrIncludes (TourPreferences.interests prev) interest)
     else arrIncludes (TourPreferences.interests prev) x)
  /\ TourPreferences.interests (toggleInterest interest (toggleInterest interest prev))
     = (if arrIncludes (TourPreferences.interests prev) interest
        then filter (fun j => negb (String.eqb j interest)) (TourPreferences.interests prev)
             ++ [interest]
        else TourPreferences.interests prev).
Proof.
  unfold toggleInterest. cbn [TourPreferences.interests].
  split; [apply toggle_includes | apply toggle_twice].
Qed.

Section HandlerFacts.

Lemma parsePrompt_pair (text : string) (st : Store) :
  parsePrompt text st = (parse text st, storeAfter text st).
Proof. unfold parse, storeAfter. apply surjective_pairing. Qed.

(** The confidence record of a parse is one of finitely many. *)
Lemma parse_confidence_shape (text : string) (st : Store) :
  exists d u n a p,
    In d [0.9; 0.7; 0.6; 0.3]%Q /\ In u [0.9; 0.4]%Q /\ In n [1; 2; 3; 4; 5]
    /\ In a [0.8; 0.2]%Q /\ In p [0.7; 0.3]%Q
    /\ ParsedPreferences.confidence (parse text st)
       = ParsingConfidence.Make
           ((d + u + Qmin 0.9 (0.3 + inject_Z (Z.of_nat n) * 0.15) + a + p) / 5)%Q
           d u (Qmin 0.9 (0.3 + inject_Z (Z.of_nat n) * 0.15))%Q a p.
Proof.
  rewrite parse_confidence. unfold calculateConfidence.
  destruct (confidenceLoop _ _ _) as [hit st']. cbn [fst].
  cbn [Extracted.destination Extracted.interests Extracted.accommodationType Extracted.pace].
  pose proof (extractInterests_length (toLowerCase text)) as Hn.
  match goal with
  | |- exists d u n a p, _ /\ _ /\ _ /\ _ /\ _ /\
         ParsingConfidence.Make _ ?d0 ?u0 _ ?a0 ?p0 = _ =>
      exists d0, u0, (length (extractInterests (toLowerCase text))), a0, p0
  end.
  repeat split.
  - destruct (existsb _ _); [cbn; auto|]. destruct (fst _); [cbn; auto|].
    destruct (negb _); cbn; auto.
  - destruct hit; cbn; auto.
  - destruct (length _) as [|[|[|[|[|[|n]]]]]]; cbn; auto; lia.
  - destruct (extractAccommodationType _); cbn; auto.
  - destruct (extractPace _); cbn; auto.
Qed.

(** Whenever the overall confidence of a parse is below 0.7, one of its
    per-field confidences is below 0.6, so there is a question to ask. *)
Lemma low_overall_has_question (text : string) (st : Store) :
  AIPromptParser.lt
    (ParsingConfidence.overall (ParsedPreferences.confidence (parse text st))) 0.7 = true ->
  generateClarificationQuestions (parse text st) <> [].
Proof.
  rewrite generate_is_pushed. unfold pushedQuestions.
  destruct (parse_confidence_shape text st) as (d & u & n & a & p & Hd & Hu & Hn & Ha & Hp & ->).
  cbn [ParsingConfidence.overall ParsingConfidence.destination ParsingConfidence.duration
       ParsingConfidence.interests ParsingConfidence.accommodationType ParsingConfidence.pace].
  cbn [In] in Hd, Hu, Hn, Ha, Hp.
  intros H.
  repeat match goal with
         | Hx : _ \/ _ |- _ => destruct Hx as [Hx | Hx]
         | Hx : False |- _ => destruct Hx
         end; subst;
    vm_compute in H; try discriminate H; vm_compute; discriminate.
Qed.

Lemma interests_score_above (n : nat) :
  1 <= n <= 5 ->
  gt (Qmin 0.9 (0.3 + inject_Z (Z.of_nat n) * 0.15)) 0.4 = true.
Proof.
  intros H. destruct n as [|[|[|[|[|[|n]]]]]]; try lia; reflexivity.
Qed.

End HandlerFacts.

(** X9: [parsePromptPreferences] never returns an undefined
    accommodation type (the parsed one is taken exactly when one was
    found) and never keeps the interests of the form: the parsed interests
    always pass the 0.4 threshold.  The budget follows the pace whenever a
    pace was found; the duration is the parsed one exactly when its
    confidence is 0.9, the destination the parsed one unless its
    confidence is 0.3. *)
Theorem parsePromptPreferences_spec (prompt : string) (base : TourPreferences.t) (st : Store) :
  PreferencesObject.accommodationType (fst (parsePromptPreferences prompt base st))
  = Some (match ParsedPreferences.accommodationType (parse prompt st) with
          | Some a => a
          | None => TourPreferences.accommodationType base
          end)
  /\ PreferencesObject.interests (fst (parsePromptPreferences prompt base st))
     = ParsedPreferences.interests (parse prompt st)
  /\ PreferencesObject.budget (fst (parsePromptPreferences prompt base st))
     = match ParsedPreferences.pace (parse prompt st) with
       | Some relaxed => budgetHigh
       | Some fast => budgetLow
       | Some (moderate | inheritedPace _) => budgetMedium
       | None => TourPreferences.budget base
       end
  /\ PreferencesObject.duration (fst (parsePromptPreferences prompt base st))
     = (if Qeq_bool (ParsingConfidence.duration
                       (ParsedPreferences.confidence (parse prompt st))) 0.9
        then ParsedPreferences.duration (parse prompt st)
        else TourPreferences.duration base)
  /\ PreferencesObject.destination (fst (parsePromptPreferences prompt base st))
     = (if Qeq_bool (ParsingConfidence.destination
                       (ParsedPreferences.confidence (parse prompt st))) 0.3
        then TourPreferences.destination base
        else ParsedPreferences.destination (parse prompt st))
  /\ snd (parsePromptPreferences prompt base st) = storeAfter prompt st.
Proof.
  unfold parsePromptPreferences. rewrite parsePrompt_pair.
  cbn [fst snd PreferencesObject.accommodationType PreferencesObject.interests
       PreferencesObject.budget PreferencesObject.duration PreferencesObject.destination].
  destruct (parse_scores prompt st) as (Hd & Hi & Ha & Hp).
  rewrite Ha, Hp, Hi, Hd, parse_duration_confidence.
  repeat split.
  - destruct (ParsedPreferences.accommodationType _); reflexivity.
  - now rewrite interests_score_above by apply extractInterests_length.
  - destruct (ParsedPreferences.pace _) as [[| | |]|]; reflexivity.
  - destruct (fst (confidenceLoop _ _ _)); reflexivity.
  - destruct (existsb _ _); [reflexivity|]. destruct (fst (RegExp.test _ _ _)); [reflexivity|].
    destruct (String.eqb _ _); reflexivity.
Qed.
(** X10: [handlePromptChange].  A text whose trimmed length is at most 20
    clears the parsed record and the questions, hides the review panel
    and leaves the preferences and the state of the duration patterns
    alone; a longer text stores its parse.  In both cases the preferences
    keep a defined accommodation type, and the review panel is shown
    exactly when at least one question is set: a parse whose overall
    confidence is below 0.7 always has a field below 0.6. *)
Theorem handlePromptChange_spec (value : string) (prev : TourPreferences.t) (st : Store) :
  newPrompt (fst (handlePromptChange value prev st)) = value
  /\ (if 20 <? String.length (trim value)
      then newParsedData (fst (handlePromptChange value prev st)) = Some (parse value st)
           /\ snd (handlePromptChange value prev st) = storeAfter value st
      else newParsedData (fst (handlePromptChange value prev st)) = None
           /\ newPreferences (fst (handlePromptChange value prev st)) = keep prev
           /\ snd (handlePromptChange value prev st) = st)
  /\ PreferencesObject.accommodationType
       (newPreferences (fst (handlePromptChange value prev st)))
     = Some (if 20 <? String.length (trim value)
             then match ParsedPreferences.accommodationType (parse value st) with
                  | Some a => a
                  | None => TourPreferences.accommodationType prev
                  end
             else TourPreferences.accommodationType prev)
  /\ newShowReviewPanel (fst (handlePromptChange value prev st))
     = match newQuestions (fst (handlePromptChange value prev st)) with
       | [] => false
       | _ :: _ => true
       end
  /\ (newQuestions (fst (handlePromptChange value prev st)) = []
      \/ newQuestions (fst (handlePromptChange value prev st))
         = generateClarificationQuestions (parse value st)).
Proof.
  unfold handlePromptChange.
  destruct (20 <? String.length (trim value)); [|cbn; auto 10].
  rewrite parsePrompt_pair.
  destruct (parse_scores value st) as (_ & _ & Ha & _).
  destruct (AIPromptParser.lt _ 0.7) eqn:L;
    cbn [fst snd newPrompt newParsedData newPreferences newQuestions newShowReviewPanel
         PreferencesObject.accommodationType].
  - pose proof (low_overall_has_question value st L) as Hq.
    rewrite Ha.
    repeat split; auto.
    + destruct (ParsedPreferences.accommodationType _); reflexivity.
    + destruct (generateClarificationQuestions _); [congruence | reflexivity].
  - rewrite Ha. repeat split; auto.
    destruct (ParsedPreferences.accommodationType _); reflexivity.
Qed.

Section GateFacts.

Lemma high_questions (parsed : ParsedPreferences.t) :
  map ClarificationQuestion.field
      (filter (fun q => Priority_eqb (ClarificationQuestion.priority q) high)
              (generateClarificationQuestions parsed))
  = filter (belowThreshold parsed) [Fdestination; Fduration].
Proof.
  rewrite generate_is_pushed, pushedQuestions_fields. unfold fieldCheckOrder. cbn [filter].
  destruct (belowThreshold parsed Fdestination);
    destruct (belowThreshold parsed Fduration);
    destruct (belowThreshold parsed Finterests);
    destruct (belowThreshold parsed FaccommodationType);
    destruct (belowThreshold parsed Fpace); reflexivity.
Qed.

End GateFacts.

(** X11: [handleGenerate] does nothing while nobody is signed in.  For a
    signed-in user it holds the generation back and opens the
    clarification exactly when there is a parsed record whose overall
    confidence is below 0.6 and whose destination or duration confidence
    is below 0.6; it then shows every question, not only those two.  In
    every other case it goes on to generate a tour for that user. *)
Theorem handleGenerate_gate (user : option User) (parsedData : option ParsedPreferences.t) :
  handleGenerate user parsedData
  = match user, parsedData with
    | None, _ => Ignored
    | Some u, Some parsed =>
        if AIPromptParser.lt
             (ParsingConfidence.overall (ParsedPreferences.confidence parsed)) 0.6
           && (belowThreshold parsed Fdestination || belowThreshold parsed Fduration)
        then Clarify (generateClarificationQuestions parsed)
        else Generate (id u)
    | Some u, None => Generate (id u)
    end.
Proof.
  unfold handleGenerate.
  destruct user as [u|]; [|reflexivity].
  destruct parsedData as [parsed|]; [|reflexivity].
  destruct (AIPromptParser.lt _ 0.6); [|reflexivity]. cbn [andb].
  pose proof (high_questions parsed) as H. cbn [filter] in H.
  destruct (filter _ (generateClarificationQuestions parsed)) as [|q qs];
    destruct (belowThreshold parsed Fdestination);
    destruct (belowThreshold parsed Fduration); cbn in H; try discriminate H; reflexivity.
Qed.

(** X12: answering a question that [generateClarificationQuestions]
    produced removes it and keeps the others in order; the clarification
    stays open exactly while another question about the destination or
    the duration is left, so answering those two, in either order, closes
    it. *)
Theorem answers_close_the_clarification
        (p : ParsedPreferences.t) (w : State) (st : Store) (f : Field) (a b : string) :
  map ClarificationQuestion.field
      (clarificationQuestions (answered f a (asking w p) st))
  = filter (fun g => belowThreshold p g && negb (Field_eqb g f)) fieldCheckOrder
  /\ showClarification (answered f a (asking w p) st)
     = existsb (fun g => belowThreshold p g && negb (Field_eqb g f)) [Fdestination; Fduration]
  /\ showClarification
       (answered Fduration b (answered Fdestination a (asking w p) st) st) = false
  /\ showClarification
       (answered Fdestination b (answered Fduration a (asking w p) st) st) = false.
Proof.
  unfold answered, asking, handleClarificationAnswer.
  cbn [fst parsedData clarificationQuestions showClarification prompt preferences].
  rewrite generate_is_pushed, pushedQuestions_fields. unfold fieldCheckOrder.
  cbn [filter existsb].
  destruct (belowThreshold p Fdestination);
    destruct (belowThreshold p Fduration);
    destruct (belowThreshold p Finterests);
    destruct (belowThreshold p FaccommodationType);
    destruct (belowThreshold p Fpace);
    destruct f; repeat split.
Qed.
Section ReviewFacts.

Ltac projections :=
  cbn [ParsedPreferences.destination ParsedPreferences.duration
       ParsedPreferences.interests ParsedPreferences.accommodationType
       ParsedPreferences.pace ParsedPreferences.confidence
       ParsingConfidence.overall ParsingConfidence.destination
       ParsingConfidence.duration ParsingConfidence.interests
       ParsingConfidence.accommodationType ParsingConfidence.pace
       TourPreferences.destination TourPreferences.duration TourPreferences.interests
       TourPreferences.accommodationType TourPreferences.vehicleRange
       TourPreferences.budget
       parsedData prompt preferences clarificationQuestions showClarification].

Lemma orElse_twice (a b : number) : orElse a (orElse a b) = orElse a b.
Proof. unfold orElse. destruct (truthy a); reflexivity. Qed.

Lemma truthy_orElse (a b : number) : truthy (orElse a b) = truthy a || truthy b.
Proof. unfold orElse. destruct (truthy a) eqn:E; [now rewrite E | reflexivity]. Qed.

(** Sending the same edit again changes nothing. *)
Lemma reviewParsed_idem (p : ParsedPreferences.t) (edit : ReviewEdit) :
  reviewParsed (reviewParsed p edit) edit = reviewParsed p edit.
Proof.
  destruct p as [dest dur ints acc pc [o cd cu ci ca cp]].
  destruct edit; unfold reviewParsed; projections; try reflexivity.
  now rewrite orElse_twice.
Qed.

Lemma syncPreferences_idem (r : ParsedPreferences.t) (prev : TourPreferences.t) :
  syncPreferences r (syncPreferences r prev) = syncPreferences r prev.
Proof.
  unfold syncPreferences. projections.
  destruct (ParsedPreferences.accommodationType r); reflexivity.
Qed.

End ReviewFacts.

(** X13: [handleParsedPreferencesChange] does nothing while there is no
    parsed record.  Otherwise the parsed record and the form agree on
    destination, duration and interests after the edit; the edited field
    holds the value sent and the other fields are kept, except that a
    duration that [parseInt] cannot read, or reads as 0, keeps the
    previous duration, and one it can read is stored as [parseInt] read
    it; sending the same edit again changes nothing; and the recomputed
    [overall] is the mean of the five per-field confidences unless the
    pace confidence is 0, which is counted as 0.5. *)
Theorem review_edit_spec (edit : ReviewEdit) (w : State) :
  match parsedData w with
  | None => handleParsedPreferencesChange edit w = w
  | Some p =>
      parsedData (handleParsedPreferencesChange edit w) = Some (reviewParsed p edit)
      /\ TourPreferences.destination (preferences (handleParsedPreferencesChange edit w))
         = ParsedPreferences.destination (reviewParsed p edit)
      /\ TourPreferences.duration (preferences (handleParsedPreferencesChange edit w))
         = ParsedPreferences.duration (reviewParsed p edit)
      /\ TourPreferences.interests (preferences (handleParsedPreferencesChange edit w))
         = ParsedPreferences.interests (reviewParsed p edit)
      /\ ParsedPreferences.duration (reviewParsed p edit)
         = match edit with
           | EditDuration value =>
               if truthy (parseInt value) then parseInt value
               else ParsedPreferences.duration p
           | _ => ParsedPreferences.duration p
           end
      /\ ParsedPreferences.destination (reviewParsed p edit)
         = match edit with
           | EditDestination value => value
           | _ => ParsedPreferences.destination p
           end
      /\ ParsedPreferences.interests (reviewParsed p edit)
         = match edit with
           | EditInterests value => value
           | _ => ParsedPreferences.interests p
           end
      /\ ParsedPreferences.accommodationType (reviewParsed p edit)
         = match edit with
           | EditAccommodation value => Some value
           | _ => ParsedPreferences.accommodationType p
           end
      /\ ParsedPreferences.pace (reviewParsed p edit) = ParsedPreferences.pace p
      /\ truthy (ParsedPreferences.duration (reviewParsed p edit))
         = (match edit with
            | EditDuration value => truthy (parseInt value)
            | _ => false
            end || truthy (ParsedPreferences.duration p))
      /\ handleParsedPreferencesChange edit (handleParsedPreferencesChange edit w)
         = handleParsedPreferencesChange edit w
      /\ (if Qeq_bool (ParsingConfidence.pace (ParsedPreferences.confidence p)) 0
          then True
          else (ParsingConfidence.overall (ParsedPreferences.confidence (reviewParsed p edit))
                == mean5 (ParsedPreferences.confidence (reviewParsed p edit)))%Q)
  end.
Proof.
  unfold handleParsedPreferencesChange.
  destruct (parsedData w) as [p|] eqn:E; [|reflexivity].
  cbn [parsedData preferences]. repeat split.
  - destruct edit; reflexivity.
  - destruct edit; reflexivity.
  - destruct edit; reflexivity.
  - destruct edit; reflexivity.
  - destruct edit; reflexivity.
  - destruct edit; unfold reviewParsed; cbn [ParsedPreferences.duration];
      try reflexivity. apply truthy_orElse.
  - now rewrite reviewParsed_idem, syncPreferences_idem.
  - unfold mean5.
    destruct p as [dest dur ints acc pc [o cd cu ci ca cp]].
    cbn [ParsedPreferences.confidence ParsingConfidence.pace].
    destruct (Qeq_bool cp 0) eqn:Ep; [exact I|].
    destruct edit; unfold reviewParsed, orHalf;
      cbn [ParsedPreferences.confidence ParsingConfidence.overall
           ParsingConfidence.destination ParsingConfidence.duration
           ParsingConfidence.interests ParsingConfidence.accommodationType
           ParsingConfidence.pace];
      rewrite Ep; reflexivity.
Qed.

(** X14: [toggleReviewInterest] does nothing while there is no parsed
    record; otherwise the parsed record and the form both hold the
    toggled list, in which the membership of the interest is flipped, and
    the interests confidence becomes 0.9. *)
Theorem toggleReviewInterest_spec (interest : string) (w : State) :
  match parsedData w with
  | None => toggleReviewInterest interest w = w
  | Some p =>
      exists r,
        parsedData (toggleReviewInterest interest w) = Some r
        /\ ParsedPreferences.interests r = toggle (ParsedPreferences.interests p) interest
        /\ TourPreferences.interests (preferences (toggleReviewInterest interest w))
           = toggle (ParsedPreferences.interests p) interest
        /\ arrIncludes (ParsedPreferences.interests r) interest
           = negb (arrIncludes (ParsedPreferences.interests p) interest)
        /\ ParsingConfidence.interests (ParsedPreferences.confidence r) = 0.9%Q
  end.
Proof.
  unfold toggleReviewInterest, handleParsedPreferencesChange.
  destruct (parsedData w) as [p|] eqn:E; [|reflexivity].
  eexists. split; [reflexivity|].
  cbn [preferences]. unfold syncPreferences, reviewParsed.
  cbn [ParsedPreferences.interests ParsedPreferences.confidence
       ParsingConfidence.interests TourPreferences.interests].
  repeat split.
  now rewrite toggle_includes, String.eqb_refl.
Qed.

(** ** The cut to six tags *)
(** ** The cut to six tags *)

Section TagCount.

Variable ints : list string.

Lemma setAdd_length (s : list string) (x : string) : length (setAdd s x) <= length s + 1.
Proof.
  unfold setAdd. destruct (arrIncludes s x); [lia|]. rewrite length_app. cbn. lia.
Qed.

Lemma sum_cons (x : nat) (l : list nat) : list_sum (x :: l) = x + list_sum l.
Proof. reflexivity. Qed.

Lemma list_sum_add {A} (f g : A -> nat) (l : list A) :
  list_sum (map (fun x => f x + g x) l) = list_sum (map f l) + list_sum (map g l).
Proof.
  induction l as [|x l IH]; [reflexivity|].
  cbn [map]. rewrite !sum_cons, IH. lia.
Qed.

Lemma existsb_le_sum {A} (f : A -> bool) (l : list A) :
  (if existsb f l then 1 else 0) <= list_sum (map (fun x => if f x then 1 else 0) l).
Proof.
  induction l as [|x l IH]; [cbn; lia|].
  cbn [map existsb]. rewrite sum_cons.
  destruct (f x); cbn [orb]; [lia|]. destruct (existsb f l); lia.
Qed.

Lemma directFrom_length (m : list (string * list string)) :
  forall s,
    length (directFrom ints m s)
    <= length s
       + list_sum (map (fun i => length (filter (fun e => tagMatches (fst e) (snd e) i) m))
                       ints).
Proof.
  unfold directFrom. induction m as [|e m IH]; intros s; cbn [fold_left].
  - induction ints as [|i l IHl]; [cbn; lia|]. cbn [map length filter] in *. rewrite sum_cons. lia.
  - eapply Nat.le_trans; [apply IH|].
    assert (E : list_sum
                  (map (fun i => length (filter (fun e0 => tagMatches (fst e0) (snd e0) i)
                                                (e :: m))) ints)
                = list_sum (map (fun i => if tagMatches (fst e) (snd e) i then 1 else 0) ints)
                  + list_sum (map (fun i => length (filter
                                      (fun e0 => tagMatches (fst e0) (snd e0) i) m)) ints)).
    { rewrite <- (list_sum_add
                    (fun i => if tagMatches (fst e) (snd e) i then 1 else 0)
                    (fun i => length (filter (fun e0 => tagMatches (fst e0) (snd e0) i) m))).
      f_equal. apply map_ext. intros i. cbn [filter].
      destruct (tagMatches (fst e) (snd e) i); reflexivity. }
    rewrite E.
    pose proof (existsb_le_sum (tagMatches (fst e) (snd e)) ints) as L.
    destruct (existsb (tagMatches (fst e) (snd e)) ints).
    + pose proof (setAdd_length s (fst e)). lia.
    + lia.
Qed.

Lemma directFrom_keeps (m : list (string * list string)) :
  forall s t, In t s -> In t (directFrom ints m s).
Proof.
  unfold directFrom. induction m as [|e m IH]; intros s t H; cbn [fold_left]; [exact H|].
  apply IH. destruct (existsb _ ints); [now apply setAdd_keeps | exact H].
Qed.

Lemma setAdd_has (s : list string) (x : string) : In x (setAdd s x).
Proof.
  unfold setAdd. destruct (arrIncludes s x) eqn:E.
  - now apply arrIncludes_In.
  - apply in_or_app. right. now left.
Qed.

Lemma directFrom_contains (m : list (string * list string)) (e : string * list string) :
  In e m -> existsb (tagMatches (fst e) (snd e)) ints = true ->
  forall s, In (fst e) (directFrom ints m s).
Proof.
  unfold directFrom. induction m as [|e0 m IH]; intros Hin Hex s; [destruct Hin|].
  cbn [fold_left]. destruct Hin as [-> | Hin].
  - rewrite Hex. apply (directFrom_keeps m). apply setAdd_has.
  - now apply IH.
Qed.

Lemma uiTagLookup_first (m : list (string * list string)) (e : string * list string) :
  NoDup (map fst m) -> In e m -> uiTagLookup m (fst e) = Some (snd e).
Proof.
  induction m as [|[k v] m IH]; intros Hnd Hin; [destruct Hin|].
  cbn [uiTagLookup]. cbn [map fst] in Hnd. inversion Hnd as [|? ? Hk Hm]; subst.
  destruct Hin as [<- | Hin].
  - cbn [fst snd]. now rewrite String.eqb_refl.
  - destruct (String.eqb k (fst e)) eqn:E.
    + apply String.eqb_eq in E. subst k. exfalso. apply Hk.
      apply in_map_iff. exists e. auto.
    + now apply IH.
Qed.

Lemma uiTagMap_keys : NoDup (map fst uiTagMap).
Proof.
  cbn. repeat (constructor; [cbn; intros H;
                              repeat (destruct H as [H | H]; [discriminate H|]); exact H|]).
  constructor.
Qed.

(** An interest that some entry lists as a synonym never becomes a custom
    tag: the first loop has added that entry's tag. *)
Lemma addCustom_listed (mapped : list string) (i : string) :
  In i ints -> inSynonyms i = true ->
  (forall t, In t (directTags ints) -> In t mapped) ->
  addCustom mapped i = mapped.
Proof.
  intros Hi Hs Hsub. unfold inSynonyms in Hs. apply existsb_exists in Hs.
  destruct Hs as (e & He & Hsyn).
  assert (Hmatch : existsb (tagMatches (fst e) (snd e)) ints = true).
  { apply existsb_exists. exists i. split; [exact Hi|].
    unfold tagMatches. now rewrite Hsyn. }
  pose proof (directFrom_contains uiTagMap e He Hmatch []) as Hin.
  apply Hsub in Hin.
  unfold addCustom.
  replace (existsb _ mapped) with true; [reflexivity|].
  symmetry. apply existsb_exists. exists (fst e). split; [exact Hin|].
  now rewrite (uiTagLookup_first uiTagMap e uiTagMap_keys He).
Qed.

Lemma addCustom_keeps (mapped : list string) (i t : string) :
  In t mapped -> In t (addCustom mapped i).
Proof.
  unfold addCustom. destruct (negb _ && negb _); [apply setAdd_keeps | auto].
Qed.

Lemma addCustom_length (mapped : list string) (i : string) :
  length (addCustom mapped i) <= length mapped + 1.
Proof.
  unfold addCustom. destruct (negb _ && negb _); [apply setAdd_length | lia].
Qed.

Lemma fold_addCustom_length (l : list string) :
  (forall i, In i l -> In i ints) ->
  forall mapped,
    (forall t, In t (directTags ints) -> In t mapped) ->
    length (fold_left addCustom l mapped)
    <= length mapped + list_sum (map (fun i => if inSynonyms i then 0 else 1) l).
Proof.
  induction l as [|i l IH]; intros Hl mapped Hsub; cbn [fold_left map]; [cbn; lia|].
  rewrite sum_cons.
  assert (Hsub' : forall t, In t (directTags ints) -> In t (addCustom mapped i))
    by (intros t Ht; apply addCustom_keeps; auto).
  eapply Nat.le_trans; [apply IH; [intros; apply Hl; now right | exact Hsub']|].
  destruct (inSynonyms i) eqn:E.
  - rewrite (addCustom_listed mapped i (Hl i (or_introl eq_refl)) E Hsub). lia.
  - pose proof (addCustom_length mapped i). lia.
Qed.

Lemma allTags_length :
  length (allTags ints) <= list_sum (map tagWeight ints).
Proof.
  unfold allTags.
  eapply Nat.le_trans; [apply fold_addCustom_length; auto|].
  pose proof (directFrom_length uiTagMap []) as L. cbn [length] in L.
  unfold tagWeight, tagsOf.
  rewrite (list_sum_add
             (fun i => length (filter (fun e => tagMatches (fst e) (snd e) i) uiTagMap))
             (fun i => if inSynonyms i then 0 else 1)).
  unfold directTags. unfold directFrom in L. lia.
Qed.

End TagCount.

Section TagWeights.

Lemma rawTerms_weight :
  Forall (fun i => tagWeight i = 1 + (if String.eqb i "museums" then 1 else 0)) rawTerms.
Proof.
  apply Forall_forall. intros i Hi.
  assert (H : forallb (fun i => tagWeight i =? 1 + (if String.eqb i "museums" then 1 else 0))
                      rawTerms = true) by (vm_compute; reflexivity).
  rewrite forallb_forall in H. apply Nat.eqb_eq. auto.
Qed.

Lemma weight_sum (l : list string) :
  Forall (fun r => In r rawTerms) l ->
  list_sum (map tagWeight l) = length l + count_occ string_dec l "museums".
Proof.
  pose proof rawTerms_weight as W. rewrite Forall_forall in W.
  induction 1 as [|i l Hi Hl IH]; [reflexivity|].
  cbn [map length count_occ]. rewrite sum_cons, IH, (W i Hi).
  destruct (string_dec i "museums") as [-> | Hne].
  - rewrite String.eqb_refl. lia.
  - apply String.eqb_neq in Hne. rewrite Hne. lia.
Qed.

Lemma raw_interests_weight (prompt : string) :
  list_sum (map tagWeight (extractInterests prompt)) <= 6.
Proof.
  rewrite weight_sum by apply extractInterests_raw.
  pose proof (extractInterests_length prompt) as L.
  pose proof (extractInterests_NoDup prompt) as N.
  rewrite (NoDup_count_occ string_dec) in N. specialize (N "museums"). lia.
Qed.

Lemma represented_grows (tags more : list string) (i : string) :
  represented tags i = true -> represented (tags ++ more) i = true.
Proof.
  unfold represented. rewrite !arrIncludes_app, existsb_app.
  intros H. apply orb_true_iff in H. destruct H as [H | H].
  - apply orb_true_iff in H. destruct H as [H | H]; rewrite H; cbn;
      rewrite ?orb_true_r; reflexivity.
  - rewrite H. cbn. now rewrite !orb_true_r.
Qed.

Lemma addCustom_appends (mapped : list string) (i : string) :
  exists more, addCustom mapped i = mapped ++ more.
Proof.
  unfold addCustom, setAdd. destruct (negb _ && negb _).
  - destruct (arrIncludes mapped (titleCase i)); [exists []; now rewrite app_nil_r | eauto].
  - exists []. now rewrite app_nil_r.
Qed.

Lemma addCustom_represents (mapped : list string) (i : string) :
  represented (addCustom mapped i) i = true.
Proof.
  unfold addCustom, represented.
  destruct (existsb _ mapped) eqn:E1; cbn [negb andb]; [now rewrite E1|].
  destruct (arrIncludes mapped i) eqn:E2; cbn [negb]; [now rewrite E1, E2|].
  replace (arrIncludes (setAdd mapped (titleCase i)) (titleCase i)) with true;
    [now rewrite !orb_true_r|].
  symmetry. apply arrIncludes_In, setAdd_has.
Qed.

Lemma fold_addCustom_represents (l : list string) :
  forall mapped i,
    (In i l \/ represented mapped i = true) ->
    represented (fold_left addCustom l mapped) i = true.
Proof.
  induction l as [|j l IH]; intros mapped i H; cbn [fold_left].
  - destruct H as [[] | H]. exact H.
  - apply IH. destruct H as [[-> | H] | H]; [right | now left | right].
    + apply addCustom_represents.
    + destruct (addCustom_appends mapped j) as (more & ->). now apply represented_grows.
Qed.

End TagWeights.

(** Below six tags the cut keeps the whole list. *)
Lemma mapInterestsToUITags_all (ints : list string) :
  length (allTags ints) <= 6 -> mapInterestsToUITags ints = allTags ints.
Proof.
  intros H. unfold mapInterestsToUITags, slice0. unfold allTags in H |- *.
  now apply firstn_all2.
Qed.

Lemma allTags_represents (ints : list string) (i : string) :
  In i ints -> represented (allTags ints) i = true.
Proof.
  intros H. unfold allTags. apply fold_addCustom_represents. now left.
Qed.

(** X15: the cut to six tags never drops a tag.  A raw interest brings at
    most one tag, except "museums", which brings two, so the at most five
    distinct raw interests of a parse give at most six tags; and every
    raw interest is represented in the result by a tag that lists it as a
    synonym or by itself as a custom tag. *)
Theorem interests_cut_is_never_reached (text : string) (st : Store) :
  ParsedPreferences.interests (parse text st)
  = allTags (extractInterests (toLowerCase text))
  /\ forallb (represented (ParsedPreferences.interests (parse text st)))
             (extractInterests (toLowerCase text)) = true.
Proof.
  assert (E : ParsedPreferences.interests (parse text st)
              = allTags (extractInterests (toLowerCase text))).
  { rewrite parse_interests. apply mapInterestsToUITags_all.
    eapply Nat.le_trans; [apply allTags_length | apply raw_interests_weight]. }
  split; [exact E|].
  rewrite E. apply forallb_forall. intros i Hi.
  now apply allTags_represents.
Qed.

(** ** Letter case *)

Lemma lowerChar_idem (c : ascii) : lowerChar (lowerChar c) = lowerChar c.
Proof.
  destruct c as [[] [] [] [] [] [] [] []]; reflexivity.
Qed.

Lemma toLowerCase_idem (s : string) : toLowerCase (toLowerCase s) = toLowerCase s.
Proof.
  induction s as [|c s IH]; [reflexivity|].
  cbn [toLowerCase]. now rewrite lowerChar_idem, IH.
Qed.

(** X16: the parser reads its text only through [toLowerCase].  Two
    texts with the same lower-case form give the same record and leave
    the same pattern state behind, from every state; in particular a text
    and its lower-case form do. *)
Theorem parse_ignores_letter_case (a b : string) (st : Store) :
  toLowerCase a = toLowerCase b ->
  parsePrompt a st = parsePrompt b st
  /\ parsePrompt (toLowerCase a) st = parsePrompt a st.
Proof.
  intros H.
  assert (G : forall x y, toLowerCase x = toLowerCase y ->
                          parsePrompt x st = parsePrompt y st).
  { intros x y E. unfold parsePrompt, calculateConfidence. now rewrite E. }
  split; [now apply G|]. apply G. apply toLowerCase_idem.
Qed.

Lemma parse_ignores_letter_case_witness :
  toLowerCase "A Weekend In PARIS" = toLowerCase "a WEEKEND in Paris"
  /\ parsePrompt "A Weekend In PARIS" freshStore
     = parsePrompt "a WEEKEND in Paris" freshStore
  /\ parsePrompt (toLowerCase "A Weekend In PARIS") freshStore
     = parsePrompt "A Weekend In PARIS" freshStore.
Proof.
  split; [reflexivity|].
  apply (parse_ignores_letter_case "A Weekend In PARIS" "a WEEKEND in Paris" freshStore).
  reflexivity.
Defined.

(** ** Where the tags come from *)

Section TagOrigin.

Variable ints : list string.

Lemma directFrom_origin (m : list (string * list string)) :
  forall s t,
    In t (directFrom ints m s) ->
    In t s \/ exists e, In e m /\ fst e = t
                        /\ existsb (tagMatches (fst e) (snd e)) ints = true.
Proof.
  unfold directFrom. induction m as [|e m IH]; intros s t H; cbn [fold_left] in H; [auto|].
  apply IH in H. destruct H as [H | (e' & He' & Ht & Hm)].
  - destruct (existsb (tagMatches (fst e) (snd e)) ints) eqn:E; [|auto].
    apply setAdd_In in H. destruct H as [H | ->]; [auto|].
    right. exists e. repeat split; [now left | exact E].
  - right. exists e'. repeat split; [now right | exact Ht | exact Hm].
Qed.

Lemma allTags_origin (t : string) :
  In t (allTags ints) -> mappedFrom ints t = true.
Proof.
  unfold allTags, mappedFrom. intros H.
  apply fold_addCustom_known in H. apply orb_true_iff. destruct H as [H | H].
  - left. apply (directFrom_origin uiTagMap [] t) in H.
    destruct H as [[] | (e & He & Ht & Hm)].
    apply existsb_exists. exists e. split; [exact He|].
    rewrite <- Ht, String.eqb_refl. exact Hm.
  - right. apply in_map_iff in H. destruct H as (i & Hi & Hin).
    apply existsb_exists. exists i. split; [exact Hin|].
    rewrite Hi. apply String.eqb_refl.
Qed.

Lemma uiTagLookup_In (m : list (string * list string)) (tag : string) (syn : list string) :
  uiTagLookup m tag = Some syn -> In (tag, syn) m.
Proof.
  induction m as [|[k v] m IH]; cbn [uiTagLookup]; [discriminate|].
  destruct (String.eqb k tag) eqn:E.
  - apply String.eqb_eq in E. intros [= <-]. subst k. now left.
  - intros H. right. now apply IH.
Qed.

End TagOrigin.

(** No raw term of the parser is itself a tag the parser can produce. *)
Lemma rawTerms_are_no_tags (r : string) :
  In r rawTerms -> ~ In r knownTags.
Proof.
  intros Hr Hk.
  assert (H : forallb (fun r => negb (arrIncludes knownTags r)) rawTerms = true)
    by (vm_compute; reflexivity).
  rewrite forallb_forall in H. specialize (H r Hr).
  apply negb_true_iff in H. apply arrIncludes_In in Hk. congruence.
Qed.

Lemma allTags_known (ints : list string) (t : string) :
  Forall (fun r => In r rawTerms) ints -> In t (allTags ints) -> In t knownTags.
Proof.
  intros Hraw H. unfold allTags in H. apply fold_addCustom_known in H.
  unfold knownTags. apply in_or_app. destruct H as [H | H].
  - left. now apply directTags_known in H.
  - right. apply in_map_iff in H. destruct H as (i & <- & Hi).
    apply in_map. rewrite Forall_forall in Hraw. auto.
Qed.

Lemma allTags_mappedInto (ints : list string) (i : string) :
  Forall (fun r => In r rawTerms) ints -> In i ints ->
  mappedInto (allTags ints) i = true.
Proof.
  intros Hraw Hi. pose proof (allTags_represents ints i Hi) as R.
  unfold represented in R. unfold mappedInto.
  apply orb_true_iff in R. destruct R as [R | R]; [|now rewrite R, orb_true_r].
  apply orb_true_iff in R. destruct R as [R | R].
  - apply existsb_exists in R. destruct R as (tag & Htag & Hsyn).
    destruct (uiTagLookup uiTagMap tag) as [syn|] eqn:L; [|discriminate].
    apply uiTagLookup_In in L.
    apply orb_true_iff. left. apply existsb_exists. exists (tag, syn). split.
    + unfold tagsOf. apply filter_In. split; [exact L|].
      cbn [fst snd]. unfold tagMatches. now rewrite Hsyn.
    + cbv beta. cbn [fst]. apply arrIncludes_In. exact Htag.
  - apply arrIncludes_In in R. exfalso.
    pose proof (allTags_known ints i Hraw R) as K.
    rewrite Forall_forall in Hraw.
    exact (rawTerms_are_no_tags i (Hraw i Hi) K).
Qed.

(** C10: for every input text, the empty one included, the interests of
    the parse are non-empty.  The raw list is never empty (it is the
    default triple when nothing matched), and the UI-tag mapping maps
    every raw interest to a UI category that matches it or to itself with
    its words capitalised, and produces no other tag. *)
Theorem parse_interests_nonempty (text : string) (st : Store) :
  ParsedPreferences.interests (parse text st) <> []
  /\ extractInterests (toLowerCase text) <> []
  /\ match foundInterests (toLowerCase text) with
     | [] => extractInterests (toLowerCase text)
             = ["scenic drives"; "nature"; "photography"]
     | _ :: _ => True
     end
  /\ forallb (mappedInto (ParsedPreferences.interests (parse text st)))
             (extractInterests (toLowerCase text)) = true
  /\ forallb (mappedFrom (extractInterests (toLowerCase text)))
             (ParsedPreferences.interests (parse text st)) = true.
Proof.
  assert (E : ParsedPreferences.interests (parse text st)
              = allTags (extractInterests (toLowerCase text))).
  { rewrite parse_interests. apply mapInterestsToUITags_all.
    eapply Nat.le_trans; [apply allTags_length | apply raw_interests_weight]. }
  split; [|split; [|split; [|split]]].
  - rewrite parse_interests.
    apply mapInterestsToUITags_nonempty, extractInterests_nonempty.
  - apply extractInterests_nonempty.
  - unfold extractInterests. destruct (foundInterests _); [reflexivity | exact I].
  - rewrite E. apply forallb_forall. intros i Hi.
    apply allTags_mappedInto; [apply extractInterests_raw | exact Hi].
  - rewrite E. apply forallb_forall. intros t Ht. now apply allTags_origin.
Qed.
